(** * Voice-assistant demo: the API routes, the LanguageModel service and the
    recognition/cleanup handlers, embedded and checked against their
    specification.

  The development follows the TypeScript sources:
  - [src/app/api/speech-to-text/route.ts]  (module [SpeechToText])
  - [src/app/api/text-to-speech/route.ts]  (module [TextToSpeech])
  - [src/app/api/chat/route.ts]            (module [Chat])
  - [src/services/LanguageModel.ts]        (module [LanguageModel])
  - the [WebSpeechProcessor] component     (module [WebSpeech])
  - [src/services/AudioProcessor.ts]       (module [AudioProcessor])
  - [src/lib/real-time-audio.ts]           (module [RealTimeAudio])

  JavaScript strings are sequences of UTF-16 code units, JavaScript numbers
  are IEEE-754 binary64 values (Rocq's [spec_float] at precision 53), and a
  [try]/[catch] is an explicit error monad. *)

From Stdlib Require Import ZArith NArith QArith Qround Lia List String Ascii Bool.
From Stdlib Require Import Floats.SpecFloat.
From stdpp Require Import base list.
Import ListNotations.

Local Open Scope Z_scope.

(* ===================================================================== *)
(** * JavaScript values shared by all modules *)
(* ===================================================================== *)

Module JS.

(** ** Strings: UTF-16 code units *)

Definition jsstring := list N.

(** Decoder from the UTF-8 bytes of a Rocq string literal to UTF-16 code
    units, so that the literals of the sources can be written as they
    appear there. *)
Fixpoint utf16_of_utf8 (bs : list N) : jsstring :=
  match bs with
  | [] => []
  | b :: rest =>
      if (b <? 128)%N then b :: utf16_of_utf8 rest
      else if (b <? 224)%N then
        match rest with
        | c :: rest' => ((b - 192) * 64 + (c - 128))%N :: utf16_of_utf8 rest'
        | _ => []
        end
      else if (b <? 240)%N then
        match rest with
        | c :: d :: rest' =>
            ((b - 224) * 4096 + (c - 128) * 64 + (d - 128))%N
              :: utf16_of_utf8 rest'
        | _ => []
        end
      else
        match rest with
        | c :: d :: e :: rest' =>
            let cp := ((b - 240) * 262144 + (c - 128) * 4096
                       + (d - 128) * 64 + (e - 128))%N in
            (55296 + (cp - 65536) / 1024)%N
              :: (56320 + (cp - 65536) mod 1024)%N
              :: utf16_of_utf8 rest'
        | _ => []
        end
  end.

Definition js (s : string) : jsstring :=
  utf16_of_utf8 (map N_of_ascii (list_ascii_of_string s)).

Definition jsstring_eqb (a b : jsstring) : bool := bool_decide (a = b).

(** A string is truthy exactly when it is not empty. *)
Definition truthy (s : jsstring) : bool :=
  match s with [] => false | _ => true end.

(** ** Exceptions *)

Inductive Error : Type :=
| TypeError (msg : jsstring)
| RangeError (msg : jsstring)
| PlainError (msg : jsstring).

Inductive Exc (A : Type) : Type :=
| Ok (a : A)
| Throw (e : Error).
Arguments Ok {A} a.
Arguments Throw {A} e.

Definition bind {A B} (m : Exc A) (k : A -> Exc B) : Exc B :=
  match m with
  | Ok a => k a
  | Throw e => Throw e
  end.

Definition try_catch {A} (body : Exc A) (handler : Error -> Exc A) : Exc A :=
  match body with
  | Ok a => Ok a
  | Throw e => handler e
  end.

(** ** Numbers: IEEE-754 binary64 *)

Definition Number := spec_float.

Definition prec : Z := 53.
Definition emax : Z := 1024.

(** An integer as a number (correctly rounded; exact below 2^53). *)
Definition of_Z (z : Z) : Number := binary_normalize prec emax z 0 false.
Definition of_nat (n : nat) : Number := of_Z (Z.of_nat n).

Definition mul : Number -> Number -> Number := SFmul prec emax.
Definition div : Number -> Number -> Number := SFdiv prec emax.
Definition add : Number -> Number -> Number := SFadd prec emax.
Definition lt : Number -> Number -> bool := SFltb.

(** A decimal literal [p/q] of the source denotes the double nearest to
    it, which is what the correctly rounded quotient of the two exactly
    representable integers computes. *)
Definition decimal (p q : Z) : Number := div (of_Z p) (of_Z q).

(** [Math.min] on two arguments: NaN when either is NaN, else the lesser
    (with -0 below +0). *)
Definition Math_min (x y : Number) : Number :=
  match SFcompare x y with
  | None => S754_nan
  | Some Lt => x
  | Some Gt => y
  | Some Eq =>
      match x, y with
      | S754_zero false, S754_zero true => y
      | _, _ => x
      end
  end.

(** [Math.floor], as the integer it denotes; [None] stands for the
    results that are no integer (NaN and the infinities). *)
Definition Math_floor (x : Number) : option Z :=
  match x with
  | S754_zero _ => Some 0
  | S754_finite s m e =>
      let v := if s then Z.neg m else Z.pos m in
      Some (if 0 <=? e then v * 2 ^ e else v / 2 ^ (- e))
  | S754_infinity _ | S754_nan => None
  end.

(** The exact rational value of a finite number. *)
Definition to_Q (x : Number) : option Q :=
  match x with
  | S754_zero _ => Some 0%Q
  | S754_finite s m e =>
      let v := if s then Z.neg m else Z.pos m in
      Some (if 0 <=? e then inject_Z (v * 2 ^ e)
            else (v # Z.to_pos (2 ^ (- e)))%Q)
  | S754_infinity _ | S754_nan => None
  end.

(** [x] is +infinity or a normal number in canonical form whose value is
    at least the integer [c]. *)
Definition at_least (x : Number) (c : Z) : Prop :=
  x = S754_infinity false \/
  exists m e, x = S754_finite false m e /\ Z.pos (digits2_pos m) = 53 /\
              (e <= 0 -> c * 2 ^ (- e) <= Z.pos m).

End JS.
Import JS.

(* ===================================================================== *)
(** * POST /api/speech-to-text *)
(* ===================================================================== *)

Module SpeechToText.

Record File := { name : jsstring; content : list N }.

(** The two form fields the handler reads; [None] is the [null] that
    [formData.get] gives for a missing field. *)
Record FormData := {
  audio : option File;
  urduType_field : option jsstring
}.

Inductive Body :=
| ErrorBody (error : jsstring)
| SuccessBody (text : jsstring) (urduType : jsstring)
              (confidence : Number) (method : jsstring).

Record Response := { status : Z; body : Body }.

Definition json (b : Body) (st : Z) : Response := {| status := st; body := b |}.

(** [processAudioWithWebSpeechAPI]: [None] is [null]. *)
Definition processAudioWithWebSpeechAPI (audioBuffer : list N) (urduType : jsstring)
  : Exc (option jsstring) :=
  try_catch
    (let audioLength := of_nat (length audioBuffer) in
     let duration := div audioLength (of_Z 32000) in
     let roman := jsstring_eqb urduType (js "roman") in
     if lt duration (of_Z 1) then
       Ok (Some (if roman then js "Hello" else js "ہیلو"))
     else if lt duration (of_Z 2) then
       Ok (Some (if roman then js "Aap kaise hain?" else js "آپ کیسے ہیں؟"))
     else if lt duration (of_Z 3) then
       Ok (Some (if roman then js "Mujhe Urdu mein baat karni hai"
                 else js "مجھے اردو میں بات کرنی ہے"))
     else
       Ok (Some (if roman then js "Main aaj bahut khush hoon"
                 else js "میں آج بہت خوش ہوں")))
    (fun _ => Ok None).

Definition simulated_roman : list jsstring :=
  [ js "Aap kaise hain?";
    js "Mujhe Urdu mein baat karni hai";
    js "Yeh kitne ka hai?";
    js "Main aaj bahut khush hoon";
    js "Kya aap mujhe madad kar sakte hain?";
    js "Namaste, kya haal chaal hai?";
    js "Main aap se baat karna chahta hoon";
    js "Yeh bohat achha hai";
    js "Shukriya bahut bahut";
    js "Main theek hoon, aap sunaiye?";
    js "Aap ka din kaisa guzra?";
    js "Kya aaj koi khaas baat hai?";
    js "Mujhe thoda help chahiye";
    js "Aap se mil kar khushi hui";
    js "Main abhi aaya hoon" ].

Definition simulated_pure : list jsstring :=
  [ js "آپ کیسے ہیں؟";
    js "مجھے اردو میں بات کرنی ہے";
    js "یہ کتنے کا ہے؟";
    js "میں آج بہت خوش ہوں";
    js "کیا آپ مجھے مدد کر سکتے ہیں؟";
    js "نمستے، کیا حال چال ہے؟";
    js "میں آپ سے بات کرنا چاہتا ہوں";
    js "یہ بہت اچھا ہے";
    js "شکریہ بہت بہت";
    js "میں ٹھیک ہوں، آپ سنائیے؟";
    js "آپ کا دن کیسے گزرا؟";
    js "کیا آج کوئی خاص بات ہے؟";
    js "مجھے تھوڑی مدد چاہیے";
    js "آپ سے مل کر خوشی ہوئی";
    js "میں ابھی آیا ہوں" ].

(** Property lookup [simulatedTranscriptions[urduType]]: [None] is
    [undefined]. *)
Definition simulatedTranscriptions (urduType : jsstring) : option (list jsstring) :=
  if jsstring_eqb urduType (js "roman") then Some simulated_roman
  else if jsstring_eqb urduType (js "pure") then Some simulated_pure
  else None.

(** The part of the handler after the primary attempt (source lines
    44-94). *)
Definition simulated_fallback (buffer : list N) (urduType : jsstring) (rnd : Number)
  : Exc Response :=
  match simulatedTranscriptions urduType with
  | None => Throw (TypeError (js "Cannot read properties of undefined"))
  | Some table =>
      let seed := (length buffer mod length table)%nat in
      match table !! seed with
      | None => Throw (TypeError (js "undefined transcript"))
      | Some transcribedText =>
          Ok (json (SuccessBody transcribedText urduType
                      (add (decimal 7 10) (mul rnd (decimal 2 10)))
                      (js "simulated")) 200)
      end
  end.

(** [formData.get('urduType') || 'roman']. *)
Definition urduType_of (formData : FormData) : jsstring :=
  match urduType_field formData with
  | Some s => if truthy s then s else js "roman"
  | None => js "roman"
  end.

(** The handler.  [rnd] is the value [Math.random()] yields in the branch
    that is taken. *)
Definition POST (formData : FormData) (rnd : Number) : Exc Response :=
  try_catch
    (let audioFile := audio formData in
     let urduType := urduType_of formData in
     match audioFile with
     | None => Ok (json (ErrorBody (js "No audio file provided")) 400)
     | Some file =>
         let buffer := content file in
         match
           try_catch
             (bind (processAudioWithWebSpeechAPI buffer urduType)
                (fun transcription =>
                   match transcription with
                   | Some t =>
                       if truthy t then
                         Ok (Some (json (SuccessBody t urduType
                                           (add (decimal 85 100)
                                                (mul rnd (decimal 15 100)))
                                           (js "web_speech_api")) 200))
                       else Ok None
                   | None => Ok None
                   end))
             (fun _ => Ok None)
         with
         | Ok (Some response) => Ok response
         | Ok None => simulated_fallback buffer urduType rnd
         | Throw e => Throw e
         end
     end)
    (fun _ => Ok (json (ErrorBody (js "Failed to process speech-to-text")) 500)).

(** The claimed selection rule, following the words of the specification:
    the entry of the transcription list at index (buffer length mod list
    length). *)
Definition modulo_selected (buffer : list N) (urduType : jsstring) : option jsstring :=
  match simulatedTranscriptions urduType with
  | Some table => table !! (length buffer mod length table)%nat
  | None => None
  end.

(** The selection the primary path makes, written with integer thresholds
    on the byte length (32000 bytes per second of audio). *)
Definition threshold_phrase (len : nat) (urduType : jsstring) : jsstring :=
  let roman := jsstring_eqb urduType (js "roman") in
  if (Z.of_nat len <? 32000) then
    if roman then js "Hello" else js "ہیلو"
  else if (Z.of_nat len <? 64000) then
    if roman then js "Aap kaise hain?" else js "آپ کیسے ہیں؟"
  else if (Z.of_nat len <? 96000) then
    if roman then js "Mujhe Urdu mein baat karni hai"
    else js "مجھے اردو میں بات کرنی ہے"
  else
    if roman then js "Main aaj bahut khush hoon" else js "میں آج بہت خوش ہوں".

End SpeechToText.


(* ===================================================================== *)
(** * The LanguageModel service *)
(* ===================================================================== *)

Module LanguageModel.

Inductive Role := user | assistant.

(** [timestamp] is the [Date] as milliseconds since the epoch. *)
Record Message := { role : Role; content : jsstring; timestamp : Z }.

(** The body handed to [JSON.stringify] in [callChatAPI]. *)
Record ChatRequest := {
  message : jsstring;
  conversationHistory : list Message
}.

(** The JSON payload of a reply; [error] is [None] when the field is
    missing. *)
Record Payload := {
  success : bool;
  error : option jsstring;
  response : jsstring
}.

(** What [fetch] and [response.json()] can do: [fetch] rejects, or it
    resolves with the [ok] flag and a body whose parsing may itself fail. *)
Inductive FetchOutcome :=
| FetchRejected (e : Error)
| FetchResolved (ok : bool) (payload : Exc Payload).

(** [Array.prototype.slice(-k)]: the last [k] elements, all of them when
    there are fewer. *)
Definition slice_last {A} (k : nat) (l : list A) : list A :=
  drop (length l - k) l.

(** [String.prototype.includes]. *)
Fixpoint starts_with (text pat : jsstring) : bool :=
  match pat, text with
  | [], _ => true
  | _ :: _, [] => false
  | p :: pat', c :: text' => (p =? c)%N && starts_with text' pat'
  end.

Fixpoint includes (text pat : jsstring) : bool :=
  starts_with text pat ||
  match text with
  | [] => false
  | _ :: text' => includes text' pat
  end.

(** [containsAny]: [keywords.some(keyword => text.includes(keyword))]. *)
Definition containsAny (text : jsstring) (keywords : list jsstring) : bool :=
  existsb (fun keyword => includes text keyword) keywords.

(** [arr[Math.floor(Math.random() * arr.length)]]; [None] is [undefined]. *)
Definition random_element (rnd : Number) (arr : list jsstring) : option jsstring :=
  match Math_floor (mul rnd (of_nat (length arr))) with
  | Some i => if i <? 0 then None else arr !! Z.to_nat i
  | None => None
  end.

(** The lower-casing of ASCII letters, the part of [toLowerCase] that the
    keywords of [generateFallbackResponse] can see on ASCII input. *)
Definition ascii_toLowerCase (s : jsstring) : jsstring :=
  map (fun c => if ((65 <=? c) && (c <=? 90))%N then (c + 32)%N else c) s.

Section WithPlatform.

(** [String.prototype.toLowerCase] is the platform's. *)
Variable toLowerCase : jsstring -> jsstring.

Definition greetings : list jsstring :=
  [ js "Hello! How can I help you today?";
    js "Hi there! What can I do for you?";
    js "Hey! Nice to meet you. How are you?" ].

Definition how_are_you_responses : list jsstring :=
  [ js "I'm doing great, thanks for asking! How about you?";
    js "I'm functioning perfectly! How are you feeling today?";
    js "I'm good! I hope you're having a great day too." ].

Definition thanks_responses : list jsstring :=
  [ js "You're welcome! Is there anything else I can help with?";
    js "No problem at all! Happy to help.";
    js "My pleasure! Let me know if you need anything else." ].

Definition goodbye_responses : list jsstring :=
  [ js "Goodbye! It was nice talking with you.";
    js "See you later! Have a great day!";
    js "Take care! Feel free to come back anytime." ].

Definition identity_response : jsstring :=
  js "I'm an AI assistant. I'm here to help you with questions and have conversations. What would you like to talk about?".

Definition default_response : jsstring :=
  js "That's interesting! Tell me more about that.".

(** [generateFallbackResponse]; [rnd] is the value of [Math.random()]. *)
Definition generateFallbackResponse (input : jsstring) (rnd : Number)
  : option jsstring :=
  let lowerInput := toLowerCase input in
  if containsAny lowerInput
       [js "hello"; js "hi"; js "hey"; js "good morning"; js "good afternoon";
        js "good evening"]
  then random_element rnd greetings
  else if containsAny lowerInput [js "name"; js "who are you"; js "what are you"]
  then Some identity_response
  else if containsAny lowerInput
            [js "how are you"; js "how are you doing"; js "how do you do"]
  then random_element rnd how_are_you_responses
  else if containsAny lowerInput [js "thank you"; js "thanks"; js "appreciate it"]
  then random_element rnd thanks_responses
  else if containsAny lowerInput [js "goodbye"; js "bye"; js "see you"; js "take care"]
  then random_element rnd goodbye_responses
  else Some default_response.

(** The object's state. *)
Record State := { history : list Message }.

Definition initial : State := {| history := [] |}.

(** [callChatAPI]: the request it issues and what it returns or throws. *)
Definition callChatAPI (server : ChatRequest -> FetchOutcome)
    (this : State) (msg : jsstring) : ChatRequest * Exc jsstring :=
  let request := {| message := msg;
                    conversationHistory := slice_last 6 (history this) |} in
  (request,
   try_catch
     (match server request with
      | FetchRejected e => Throw e
      | FetchResolved ok payload =>
          if negb ok then Throw (PlainError (js "API request failed"))
          else
            bind payload (fun data =>
              if negb (success data) then
                Throw (PlainError
                         (match error data with
                          | Some e => if truthy e then e else js "API returned error"
                          | None => js "API returned error"
                          end))
              else Ok (response data))
      end)
     (fun e => Throw e)).

(** The environment of one [processUrduText] call: the server's behaviour,
    the two clock readings and the random number. *)
Record Env := {
  server : ChatRequest -> FetchOutcome;
  now_user : Z;
  now_assistant : Z;
  random : Number
}.

Record Outcome := {
  result : Exc (option jsstring);
  state_after : State;
  request_sent : ChatRequest
}.

(** [processUrduText]. *)
Definition processUrduText (env : Env) (this : State) (userInput : jsstring)
  : Outcome :=
  let this1 :=
    {| history := history this ++
                  [{| role := user; content := userInput;
                      timestamp := now_user env |}] |} in
  let '(request, reply) := callChatAPI (server env) this1 userInput in
  match reply with
  | Ok response =>
      {| result := Ok (Some response);
         state_after :=
           {| history := history this1 ++
                         [{| role := assistant; content := response;
                             timestamp := now_assistant env |}] |};
         request_sent := request |}
  | Throw _ =>
      {| result := Ok (generateFallbackResponse userInput (random env));
         state_after := this1;
         request_sent := request |}
  end.

(** [getConversationHistory]: a fresh array with the same elements. *)
Definition getConversationHistory (this : State) : list Message * State :=
  (history this, this).

(** [clearHistory]. *)
Definition clearHistory (this : State) : State := {| history := [] |}.

(** A run of [processUrduText] calls. *)
Fixpoint run (calls : list (Env * jsstring)) (this : State) : State :=
  match calls with
  | [] => this
  | (env, input) :: rest => run rest (state_after (processUrduText env this input))
  end.


End WithPlatform.

(** A server that always answers [reply] successfully. *)
Definition echo_server (reply : jsstring) : ChatRequest -> FetchOutcome :=
  fun _ => FetchResolved true
             (Ok {| success := true; error := None; response := reply |}).

(** A server that cannot be reached. *)
Definition unreachable_server : ChatRequest -> FetchOutcome :=
  fun _ => FetchRejected (TypeError (js "Failed to fetch")).

(** The ways the chat API call can fail: [fetch] rejects, the status is not
    ok, the body does not parse, or the payload says [success: false]. *)
Definition api_failed (o : FetchOutcome) : bool :=
  match o with
  | FetchRejected _ => true
  | FetchResolved ok payload =>
      negb ok ||
      match payload with
      | Throw _ => true
      | Ok data => negb (success data)
      end
  end.

(** [Math.random()] yields a number that selects an element of a
    three-element array. *)
Definition random_in_range (rnd : Number) : Prop :=
  exists k, Math_floor (mul rnd (of_Z 3)) = Some k /\ 0 <= k < 3.

End LanguageModel.

(* ===================================================================== *)
(** * POST /api/chat *)
(* ===================================================================== *)

Module Chat.

(** An element of the [conversationHistory] array of the request. *)
Record HistoryEntry := { role : jsstring; content : jsstring }.

(** The request body; [None] is a missing field. *)
Record RequestBody := {
  message : option jsstring;
  conversationHistory : option (list HistoryEntry)
}.

Record LlmMessage := { llm_role : jsstring; llm_content : jsstring }.

Record CompletionRequest := {
  messages : list LlmMessage;
  max_tokens : Z;
  temperature : Number
}.

(** The completion object, as far as the handler reads it:
    [completion.choices[0]?.message?.content]. *)
Record ChoiceMessage := { choice_content : option jsstring }.
Record Choice := { choice_message : option ChoiceMessage }.
Record Completion := { choices : list Choice }.

(** The SDK: [ZAI.create()] may fail, and so may each completion call. *)
Definition Sdk := Exc (CompletionRequest -> Exc Completion).

Inductive Body :=
| ErrorOnly (error : jsstring)
| Failure (error : jsstring)          (* { error, success: false } *)
| Success (response : jsstring).      (* { response, success: true } *)

Record Response := { status : Z; body : Body }.

Definition json (b : Body) (st : Z) : Response := {| status := st; body := b |}.

Definition newline : jsstring := [10%N].

(** [Array.prototype.join]. *)
Fixpoint join (sep : jsstring) (parts : list jsstring) : jsstring :=
  match parts with
  | [] => []
  | [p] => p
  | p :: rest => p ++ sep ++ join sep rest
  end.

(** White space and line terminators, the code units [trim] strips. *)
Definition is_whitespace (c : N) : bool :=
  ((c =? 9) || (c =? 10) || (c =? 11) || (c =? 12) || (c =? 13) || (c =? 32)
   || (c =? 160) || (c =? 5760) || ((8192 <=? c) && (c <=? 8202))
   || (c =? 8232) || (c =? 8233) || (c =? 8239) || (c =? 8287)
   || (c =? 12288) || (c =? 65279))%N.

Fixpoint trimStart (s : jsstring) : jsstring :=
  match s with
  | [] => []
  | c :: rest => if is_whitespace c then trimStart rest else s
  end.

Definition trimEnd (s : jsstring) : jsstring := rev (trimStart (rev s)).

(** [String.prototype.trim]. *)
Definition trim (s : jsstring) : jsstring := trimEnd (trimStart s).

Definition apology : jsstring :=
  js "Sorry, I'm having trouble responding right now. Could you please try again?".

(** The conversation context: one line per history entry. *)
Definition context_of (history : option (list HistoryEntry)) : jsstring :=
  match history with
  | Some entries =>
      join newline
        (map (fun msg =>
                (if jsstring_eqb (role msg) (js "user") then js "User"
                 else js "Assistant") ++ js ": " ++ content msg)
             entries)
  | None => []
  end.

Definition systemPrompt (context msg : jsstring) : jsstring :=
  js "You are a helpful English AI assistant. You are having a conversation with a user who speaks English. "
  ++ newline
  ++ js "Respond naturally in English, be friendly and helpful. Keep your responses conversational and not too long."
  ++ newline ++ newline
  ++ (if truthy context then js "Recent conversation:" ++ newline ++ context else [])
  ++ newline ++ newline
  ++ js "User: " ++ msg ++ newline
  ++ js "Assistant:".

Definition completion_request (context msg : jsstring) : CompletionRequest :=
  {| messages :=
       [ {| llm_role := js "system";
            llm_content := js "You are a helpful English AI assistant. Respond naturally in English. Be conversational, friendly, and helpful. Keep responses concise but meaningful." |};
         {| llm_role := js "user"; llm_content := systemPrompt context msg |} ];
     max_tokens := 200;
     temperature := decimal 7 10 |}.

(** [completion.choices[0]?.message?.content]; [None] is [undefined] or
    [null]. *)
Definition first_content (completion : Completion) : option jsstring :=
  match choices completion with
  | [] => None
  | choice :: _ =>
      match choice_message choice with
      | None => None
      | Some m => choice_content m
      end
  end.

(** The handler. *)
Definition POST (sdk : Sdk) (req : RequestBody) : Exc Response :=
  try_catch
    (match message req with
     | None => Ok (json (ErrorOnly (js "Message is required")) 400)
     | Some msg =>
         if negb (truthy msg) then
           Ok (json (ErrorOnly (js "Message is required")) 400)
         else
           bind sdk (fun create =>
             let context := context_of (conversationHistory req) in
             bind (create (completion_request context msg)) (fun completion =>
               let response :=
                 match first_content completion with
                 | Some c => if truthy c then c else apology
                 | None => apology
                 end in
               Ok (json (Success (trim response)) 200)))
     end)
    (fun _ => Ok (json (Failure (js "Failed to process your message")) 500)).

(** An SDK whose model always answers [reply]. *)
Definition sdk_answering (reply : option jsstring) : Sdk :=
  Ok (fun _ =>
        Ok {| choices :=
                [ {| choice_message := Some {| choice_content := reply |} |} ] |}).

End Chat.

(* ===================================================================== *)
(** * Recognition handlers and teardown *)
(* ===================================================================== *)

(** What a handler does to the world outside the object: timers it
    schedules or cancels, calls to the recognition object, and errors
    handed to the user's callback. *)
Module Effects.

Inductive Effect :=
| SetTimeout (delay : Z)            (* setTimeout(restart, delay) *)
| ClearTimeout
| RecognitionStart
| RecognitionStop
| ReportError (msg : jsstring)      (* onError(...) *)
| ReportTranscript (text : jsstring) (final : bool)
| ReportAudioLevel (level : Z)
| CancelAnimationFrame (id : Z)
| ClearInterval (id : Z)
| StopTracks
| CloseAudioContext
| DisconnectProcessor
| CloseSocket
| CancelSpeech.

(** A restart scheduled after exactly one second. *)
Definition is_restart (e : Effect) : bool :=
  match e with SetTimeout delay => delay =? 1000 | _ => false end.

Definition is_clear_timeout (e : Effect) : bool :=
  match e with ClearTimeout => true | _ => false end.

Definition is_recognition_start (e : Effect) : bool :=
  match e with RecognitionStart => true | _ => false end.

Definition is_report (e : Effect) : bool :=
  match e with ReportError _ => true | _ => false end.

End Effects.
Import Effects.

(* --------------------------------------------------------------------- *)
(** ** The WebSpeechProcessor component *)
(* --------------------------------------------------------------------- *)

Module WebSpeech.

Definition maxRetries : Z := 3.

(** The values the handlers close over ([isListening], [hasPermission],
    whether [recognitionRef.current] is set) and the retry counter. *)
Record State := {
  isListening : bool;
  hasPermission : bool;
  hasRecognition : bool;
  retryCount : Z
}.

(** The recognition events and the firing of a restart timer. *)
Inductive Event :=
| OnResult (finalTranscript interimTranscript : jsstring)
| OnError (error : jsstring)
| OnEnd
| OnStart
| RestartTimerFires.

Definition no_speech_message : jsstring :=
  js "No speech detected. Please speak clearly and ensure your microphone is working.".

(** [recognition.onerror]. *)
Definition onerror (st : State) (error : jsstring) : State * list Effect :=
  if jsstring_eqb error (js "no-speech") then
    if isListening st && (retryCount st <? maxRetries) then
      ({| isListening := isListening st; hasPermission := hasPermission st;
          hasRecognition := hasRecognition st;
          retryCount := retryCount st + 1 |},
       [SetTimeout 1000])
    else if maxRetries <=? retryCount st then
      ({| isListening := isListening st; hasPermission := hasPermission st;
          hasRecognition := hasRecognition st; retryCount := 0 |},
       [ReportError no_speech_message])
    else (st, [])
  else if jsstring_eqb error (js "audio-capture") then
    (st, [ReportError (js "Microphone error. Please check your microphone connection and try again.")])
  else if jsstring_eqb error (js "not-allowed") then
    (st, [ReportError (js "Microphone access denied. Please allow microphone access and try again.")])
  else if jsstring_eqb error (js "network") then
    (st, [ReportError (js "Network error. Please check your internet connection.")])
  else
    (st, [ReportError (js "Speech recognition error: " ++ error)]).

(** [recognition.onresult], after the transcripts of the event have been
    concatenated. *)
Definition onresult (st : State) (finalTranscript interimTranscript : jsstring)
  : State * list Effect :=
  if truthy finalTranscript then
    ({| isListening := isListening st; hasPermission := hasPermission st;
        hasRecognition := hasRecognition st; retryCount := 0 |},
     [ReportTranscript finalTranscript true])
  else if truthy interimTranscript then
    (st, [ReportTranscript interimTranscript false])
  else (st, []).

(** [recognition.onend]: a restart after 100 ms. *)
Definition onend (st : State) : State * list Effect :=
  if isListening st && hasPermission st then (st, [SetTimeout 100]) else (st, []).

(** [recognition.onstart]. *)
Definition onstart (st : State) : State * list Effect :=
  ({| isListening := isListening st; hasPermission := hasPermission st;
      hasRecognition := hasRecognition st; retryCount := 0 |}, []).

(** The callback of either restart timer. *)
Definition restart_callback (st : State) : State * list Effect :=
  if isListening st && hasRecognition st then (st, [RecognitionStart]) else (st, []).

Definition handle (st : State) (ev : Event) : State * list Effect :=
  match ev with
  | OnResult f i => onresult st f i
  | OnError e => onerror st e
  | OnEnd => onend st
  | OnStart => onstart st
  | RestartTimerFires => restart_callback st
  end.

(** A run of events, with the effects in order. *)
Fixpoint run (st : State) (evs : list Event) : State * list Effect :=
  match evs with
  | [] => (st, [])
  | ev :: rest =>
      let '(st1, out1) := handle st ev in
      let '(st2, out2) := run st1 rest in
      (st2, out1 ++ out2)
  end.

(** The 1-second restarts a run schedules, and the errors it surfaces. *)
Definition no_speech_restarts (out : list Effect) : nat :=
  length (List.filter is_restart out).

Definition surfaced_errors (out : list Effect) : nat :=
  length (List.filter is_report out).


Definition listening : State :=
  {| isListening := true; hasPermission := true; hasRecognition := true;
     retryCount := 0 |}.

End WebSpeech.

(* --------------------------------------------------------------------- *)
(** ** AudioProcessor *)
(* --------------------------------------------------------------------- *)

Module AudioProcessor.

(** The fields of the object; a handle is [Some id] when held and [None]
    when [null].  [pendingRestarts] counts the restart timers that have been
    scheduled and have not fired yet: the object keeps no handle to them. *)
Record State := {
  audioContext : option Z;
  mediaStream : option Z;
  analyser : option Z;
  animationId : option Z;
  isListening : bool;
  recognition : option Z;
  hasSynthesis : bool;
  synthesisSpeaking : bool;
  currentUtterance : option jsstring;
  pendingRestarts : nat
}.

Definition set_isListening (b : bool) (st : State) : State :=
  {| audioContext := audioContext st; mediaStream := mediaStream st;
     analyser := analyser st; animationId := animationId st;
     isListening := b; recognition := recognition st;
     hasSynthesis := hasSynthesis st;
     synthesisSpeaking := synthesisSpeaking st;
     currentUtterance := currentUtterance st;
     pendingRestarts := pendingRestarts st |}.

Definition set_animationId (a : option Z) (st : State) : State :=
  {| audioContext := audioContext st; mediaStream := mediaStream st;
     analyser := analyser st; animationId := a;
     isListening := isListening st; recognition := recognition st;
     hasSynthesis := hasSynthesis st;
     synthesisSpeaking := synthesisSpeaking st;
     currentUtterance := currentUtterance st;
     pendingRestarts := pendingRestarts st |}.

Definition set_pendingRestarts (n : nat) (st : State) : State :=
  {| audioContext := audioContext st; mediaStream := mediaStream st;
     analyser := analyser st; animationId := animationId st;
     isListening := isListening st; recognition := recognition st;
     hasSynthesis := hasSynthesis st;
     synthesisSpeaking := synthesisSpeaking st;
     currentUtterance := currentUtterance st;
     pendingRestarts := n |}.

(** [recognition.onerror]: the error is always reported, and a no-speech
    error while listening schedules a restart after one second. *)
Definition onerror (st : State) (error : jsstring) : State * list Effect :=
  if jsstring_eqb error (js "no-speech") && isListening st then
    (set_pendingRestarts (S (pendingRestarts st)) st,
     [ReportError error; SetTimeout 1000])
  else (st, [ReportError error]).

(** [this.recognition.start()] inside [try]/[catch]: with no recognition
    object the TypeError is caught and logged. *)
Definition try_start (st : State) : list Effect :=
  match recognition st with Some _ => [RecognitionStart] | None => [] end.

(** The callback of the restart timer. *)
Definition restart_callback (st : State) : State * list Effect :=
  let st' := set_pendingRestarts (pred (pendingRestarts st)) st in
  if isListening st then (st', try_start st) else (st', []).

(** [recognition.onend]. *)
Definition onend (st : State) : State * list Effect :=
  if isListening st then (st, try_start st) else (st, []).

(** The recognition events and the firing of a restart timer. *)
Inductive Event :=
| OnError (error : jsstring)
| OnEnd
| RestartTimerFires.

Definition handle (st : State) (ev : Event) : State * list Effect :=
  match ev with
  | OnError e => onerror st e
  | OnEnd => onend st
  | RestartTimerFires => restart_callback st
  end.

Fixpoint run (st : State) (evs : list Event) : State * list Effect :=
  match evs with
  | [] => (st, [])
  | ev :: rest =>
      let '(st1, out1) := handle st ev in
      let '(st2, out2) := run st1 rest in
      (st2, out1 ++ out2)
  end.

(** [stopAudioMonitoring]; an id of 0 is falsy. *)
Definition stopAudioMonitoring (st : State) : State * list Effect :=
  match animationId st with
  | Some id =>
      if id =? 0 then (st, [ReportAudioLevel 0])
      else (set_animationId None st, [CancelAnimationFrame id; ReportAudioLevel 0])
  | None => (st, [ReportAudioLevel 0])
  end.

(** [stopListening]. *)
Definition stopListening (st : State) : State * list Effect :=
  let st1 := set_isListening false st in
  let out1 := match recognition st1 with Some _ => [RecognitionStop] | None => [] end in
  let '(st2, out2) := stopAudioMonitoring st1 in
  (st2, out1 ++ out2).

(** [stopSpeaking]. *)
Definition stopSpeaking (st : State) : State * list Effect :=
  ({| audioContext := audioContext st; mediaStream := mediaStream st;
      analyser := analyser st; animationId := animationId st;
      isListening := isListening st; recognition := recognition st;
      hasSynthesis := hasSynthesis st;
      synthesisSpeaking :=
        if hasSynthesis st then false else synthesisSpeaking st;
      currentUtterance := None;
      pendingRestarts := pendingRestarts st |},
   if hasSynthesis st && synthesisSpeaking st then [CancelSpeech] else []).

(** [cleanup]. *)
Definition cleanup (st : State) : State * list Effect :=
  let '(st1, out1) := stopListening st in
  let '(st2, out2) := stopSpeaking st1 in
  let out3 := match mediaStream st2 with Some _ => [StopTracks] | None => [] end in
  let out4 := match audioContext st2 with Some _ => [CloseAudioContext] | None => [] end in
  ({| audioContext := None; mediaStream := None;
      analyser := None; animationId := animationId st2;
      isListening := isListening st2; recognition := None;
      hasSynthesis := hasSynthesis st2;
      synthesisSpeaking := synthesisSpeaking st2;
      currentUtterance := currentUtterance st2;
      pendingRestarts := pendingRestarts st2 |},
   out1 ++ out2 ++ out3 ++ out4).

(** [startAudioMonitoring]: one run of [monitor], which reports the level
    and requests the next frame; [frame] is the id [requestAnimationFrame]
    returns. *)
Definition startAudioMonitoring (st : State) (level frame : Z)
  : State * list Effect :=
  match analyser st with
  | None => (st, [])
  | Some _ =>
      if isListening st then
        (set_animationId (Some frame) st, [ReportAudioLevel level])
      else (st, [])
  end.

(** [startListening]: throws when there is no recognition object. *)
Definition startListening (st : State) (level frame : Z)
  : Exc (State * list Effect) :=
  match recognition st with
  | None => Throw (PlainError (js "Speech recognition not available"))
  | Some _ =>
      let st1 := set_isListening true st in
      let '(st2, out) := startAudioMonitoring st1 level frame in
      Ok (st2, RecognitionStart :: out)
  end.

(** An initialized object that is listening. *)
Definition listening : State :=
  {| audioContext := Some 1; mediaStream := Some 2; analyser := Some 3;
     animationId := Some 7; isListening := true; recognition := Some 4;
     hasSynthesis := true; synthesisSpeaking := false;
     currentUtterance := None; pendingRestarts := 0 |}.

End AudioProcessor.

(* --------------------------------------------------------------------- *)
(** ** RealTimeAudioProcessor *)
(* --------------------------------------------------------------------- *)

Module RealTimeAudio.

Record State := {
  ws : option Z;
  audioContext : option Z;
  mediaStream : option Z;
  processor : option Z;
  isRecording : bool;
  processingInterval : option Z
}.

(** A timer handle is truthy unless it is the number 0. *)
Definition truthy_handle (h : option Z) : bool :=
  match h with Some id => negb (id =? 0) | None => false end.

(** [stopRecording]. *)
Definition stopRecording (st : State) : State * list Effect :=
  if truthy_handle (processingInterval st) then
    ({| ws := ws st; audioContext := audioContext st;
        mediaStream := mediaStream st; processor := processor st;
        isRecording := false; processingInterval := None |},
     match processingInterval st with Some id => [ClearInterval id] | None => [] end)
  else
    ({| ws := ws st; audioContext := audioContext st;
        mediaStream := mediaStream st; processor := processor st;
        isRecording := false; processingInterval := processingInterval st |},
     []).

(** [cleanup], when [audioContext.close()] resolves. *)
Definition cleanup (st : State) : State * list Effect :=
  let out1 :=
    if truthy_handle (processingInterval st) then
      match processingInterval st with Some id => [ClearInterval id] | None => [] end
    else [] in
  let interval :=
    if truthy_handle (processingInterval st) then None else processingInterval st in
  let out2 := match processor st with Some _ => [DisconnectProcessor] | None => [] end in
  let out3 := match mediaStream st with Some _ => [StopTracks] | None => [] end in
  let out4 := match audioContext st with Some _ => [CloseAudioContext] | None => [] end in
  let out5 := match ws st with Some _ => [CloseSocket] | None => [] end in
  ({| ws := None; audioContext := None; mediaStream := None; processor := None;
      isRecording := false; processingInterval := interval |},
   out1 ++ out2 ++ out3 ++ out4 ++ out5).

End RealTimeAudio.

(* ===================================================================== *)
(** * Base64 ([btoa]) *)
(* ===================================================================== *)

Module Base64.

(** The character of a 6-bit value. *)
Definition char_of (i : N) : N :=
  (if i <? 26 then 65 + i
   else if i <? 52 then 97 + (i - 26)
   else if i <? 62 then 48 + (i - 52)
   else if i =? 62 then 43
   else 47)%N.

(** The 6-bit value of a character of the alphabet. *)
Definition index_of (c : N) : option N :=
  (if (65 <=? c) && (c <=? 90) then Some (c - 65)
   else if (97 <=? c) && (c <=? 122) then Some (c - 97 + 26)
   else if (48 <=? c) && (c <=? 57) then Some (c - 48 + 52)
   else if c =? 43 then Some 62
   else if c =? 47 then Some 63
   else None)%N.

Definition pad : N := 61%N.

Fixpoint encode (bytes : list N) : list N :=
  match bytes with
  | [] => []
  | [a] =>
      [char_of (a / 4); char_of ((a mod 4) * 16); pad; pad]%N
  | [a; b] =>
      [char_of (a / 4); char_of ((a mod 4) * 16 + b / 16);
       char_of ((b mod 16) * 4); pad]%N
  | a :: b :: c :: rest =>
      [char_of (a / 4); char_of ((a mod 4) * 16 + b / 16);
       char_of ((b mod 16) * 4 + c / 64); char_of (c mod 64)]%N
      ++ encode rest
  end.

(** [btoa]: throws on a code unit above 255. *)
Definition btoa (binary : jsstring) : Exc jsstring :=
  if forallb (fun c => (c <? 256)%N) binary then Ok (encode binary)
  else Throw (PlainError (js "InvalidCharacterError")).

(** The decoder ([atob]); [None] on malformed input. *)
Fixpoint decode (chars : list N) : option (list N) :=
  match chars with
  | [] => Some []
  | c1 :: c2 :: c3 :: c4 :: rest =>
      match index_of c1, index_of c2 with
      | Some i1, Some i2 =>
          if ((c3 =? pad) && (c4 =? pad))%N then
            match rest with
            | [] => Some [(i1 * 4 + i2 / 16)%N]
            | _ => None
            end
          else
            match index_of c3 with
            | Some i3 =>
                if (c4 =? pad)%N then
                  match rest with
                  | [] => Some [(i1 * 4 + i2 / 16)%N;
                                ((i2 mod 16) * 16 + i3 / 4)%N]
                  | _ => None
                  end
                else
                  match index_of c4, decode rest with
                  | Some i4, Some tail =>
                      Some ((i1 * 4 + i2 / 16)%N
                              :: ((i2 mod 16) * 16 + i3 / 4)%N
                              :: ((i3 mod 4) * 64 + i4)%N :: tail)
                  | _, _ => None
                  end
            | None => None
            end
      | _, _ => None
      end
  | _ => None
  end.

End Base64.

(* ===================================================================== *)
(** * POST /api/text-to-speech *)
(* ===================================================================== *)

Module TextToSpeech.

(** ** [DataView] over an [ArrayBuffer]: a list of bytes *)

Definition ArrayBuffer := list N.

(** The little-endian bytes of the low [8 * n] bits of [v]. *)
Fixpoint le_bytes (n : nat) (v : Z) : list N :=
  match n with
  | O => []
  | S n' => Z.to_N (v mod 256) :: le_bytes n' (v / 256)
  end.

(** Every setter writes its bytes at [offset], or throws a RangeError when
    they do not fit. *)
Definition write_bytes (offset : nat) (vs : list N) (buf : ArrayBuffer)
  : Exc ArrayBuffer :=
  if (offset + length vs <=? length buf)%nat then
    Ok (take offset buf ++ vs ++ drop (offset + length vs) buf)
  else Throw (RangeError (js "Offset is outside the bounds of the DataView")).

Definition setUint8 (offset : nat) (v : Z) := write_bytes offset (le_bytes 1 v).
Definition setUint16 (offset : nat) (v : Z) := write_bytes offset (le_bytes 2 v).
Definition setUint32 (offset : nat) (v : Z) := write_bytes offset (le_bytes 4 v).
(** [setInt16] stores the two's-complement bytes, the same low 16 bits. *)
Definition setInt16 (offset : nat) (v : Z) := write_bytes offset (le_bytes 2 v).

(** [writeString]: one [setUint8] per code unit. *)
Fixpoint writeString (offset : nat) (s : jsstring) (buf : ArrayBuffer)
  : Exc ArrayBuffer :=
  match s with
  | [] => Ok buf
  | c :: rest =>
      bind (setUint8 offset (Z.of_N c) buf) (writeString (S offset) rest)
  end.

(** Little-endian reads, as [getUint16] and [getUint32] do. *)
Definition getUint (n : nat) (offset : nat) (buf : ArrayBuffer) : Z :=
  fold_right (fun b acc => Z.of_N b + 256 * acc) 0 (take n (drop offset buf)).

Definition getUint16 := getUint 2.
Definition getUint32 := getUint 4.

(** ** The synthesizer *)

Definition sampleRate : Z := 22050.

(** [Math.floor(sampleRate * Math.min(text.length * perChar, maxDuration))]. *)
Definition sample_count (perChar : Number) (maxDuration : Z) (len : nat) : option Z :=
  let duration := Math_min (mul (of_nat len) perChar) (of_Z maxDuration) in
  Math_floor (mul (of_Z sampleRate) duration).

(** The 44-byte header. *)
Definition write_header (samples : Z) (buf : ArrayBuffer) : Exc ArrayBuffer :=
  bind (writeString 0 (js "RIFF") buf) (fun buf =>
  bind (setUint32 4 (36 + samples * 2) buf) (fun buf =>
  bind (writeString 8 (js "WAVE") buf) (fun buf =>
  bind (writeString 12 (js "fmt ") buf) (fun buf =>
  bind (setUint32 16 16 buf) (fun buf =>
  bind (setUint16 20 1 buf) (fun buf =>
  bind (setUint16 22 1 buf) (fun buf =>
  bind (setUint32 24 sampleRate buf) (fun buf =>
  bind (setUint32 28 (sampleRate * 2) buf) (fun buf =>
  bind (setUint16 32 2 buf) (fun buf =>
  bind (setUint16 34 16 buf) (fun buf =>
  bind (writeString 36 (js "data") buf) (fun buf =>
  setUint32 40 (samples * 2) buf)))))))))))).

(** The header as a list of bytes. *)
Definition header_bytes (samples : Z) : list N :=
  js "RIFF" ++ le_bytes 4 (36 + samples * 2)
  ++ js "WAVE" ++ js "fmt " ++ le_bytes 4 16
  ++ le_bytes 2 1 ++ le_bytes 2 1
  ++ le_bytes 4 sampleRate ++ le_bytes 4 (sampleRate * 2)
  ++ le_bytes 2 2 ++ le_bytes 2 16
  ++ js "data" ++ le_bytes 4 (samples * 2).

(** The bytes of the samples [i], ..., [i + count - 1]. *)
Definition pcm_bytes (pcm : nat -> Z) (count i : nat) : list N :=
  flat_map (fun k => le_bytes 2 (pcm k)) (seq i count).

(** The sample loop: [count] iterations left, the next index [i] writing at
    [offset].  [pcm i] is the integer that [setInt16] stores for sample [i]:
    the clamped mixture of sines and noise, which is outside this model. *)
Fixpoint write_samples (pcm : nat -> Z) (count : nat) (i : nat) (offset : nat)
    (buf : ArrayBuffer) : Exc ArrayBuffer :=
  match count with
  | O => Ok buf
  | S count' =>
      bind (setInt16 offset (pcm i) buf)
           (write_samples pcm count' (S i) (offset + 2))
  end.

(** The body shared by the two generators, which differ in the speech rate,
    the longest duration and the wave form. *)
Definition synthesize (perChar : Number) (maxDuration : Z) (pcm : nat -> Z)
    (text : jsstring) : Exc jsstring :=
  match sample_count perChar maxDuration (length text) with
  | None => Throw (RangeError (js "Invalid array buffer length"))
  | Some samples =>
      if samples <? 0 then Throw (RangeError (js "Invalid array buffer length"))
      else
        let buffer := replicate (Z.to_nat (44 + samples * 2)) 0%N in
        bind (write_header samples buffer) (fun buffer =>
        bind (write_samples pcm (Z.to_nat samples) 0 44 buffer) (fun buffer =>
        Base64.btoa buffer))
  end.

(** [generateAudioWithWebSpeechAPI]. *)
Definition generateAudioWithWebSpeechAPI (pcm : nat -> Z) (text urduText : jsstring)
  : Exc jsstring :=
  try_catch (synthesize (decimal 7 100) 3 pcm text) (fun e => Throw e).

(** [generateNaturalSpeechAudio]. *)
Definition generateNaturalSpeechAudio (pcm : nat -> Z) (text urduText : jsstring)
  : Exc jsstring :=
  synthesize (decimal 8 100) 4 pcm text.

(** ** [convertRomanToUrdu] *)

(** [String.prototype.replace] with a global literal pattern: matches are
    found left to right and do not overlap.  [skip] counts the code units
    of the current match still to be passed over. *)
Fixpoint replace_from (pat rep : jsstring) (skip : nat) (s : jsstring) : jsstring :=
  match s with
  | [] => []
  | c :: rest =>
      match skip with
      | S k => replace_from pat rep k rest
      | O =>
          if LanguageModel.starts_with s pat then
            rep ++ replace_from pat rep (length pat - 1) rest
          else c :: replace_from pat rep 0 rest
      end
  end.

Definition replaceAll (pat rep : jsstring) (s : jsstring) : jsstring :=
  replace_from pat rep 0 s.

Definition replacements : list (jsstring * jsstring) :=
  [ (js "aap", js "آپ"); (js "kaise", js "کیسے"); (js "hain", js "ہیں");
    (js "main", js "میں"); (js "hoon", js "ہوں"); (js "theek", js "ٹھیک");
    (js "shukriya", js "شکریہ"); (js "mujhe", js "مجھے"); (js "nahin", js "نہیں");
    (js "haan", js "ہاں"); (js "kya", js "کیا"); (js "ho", js "ہو");
    (js "sakta", js "سکتا"); (js "sakti", js "سکتی"); (js "hai", js "ہے");
    (js "tha", js "تھا"); (js "thi", js "تھی"); (js "hoga", js "ہوگا");
    (js "hogi", js "ہوگی") ].

Definition convertRomanToUrdu (romanText : jsstring) : jsstring :=
  fold_left (fun acc '(pat, rep) => replaceAll pat rep acc) replacements romanText.

(** ** The handler *)

(** The JSON body; [None] is a missing field. *)
Record RequestBody := {
  text : option jsstring;
  urduType : option jsstring
}.

Inductive Body :=
| ErrorBody (error : jsstring)
| SuccessBody (audioUrl audioBase64 text urduText method : jsstring).

Record Response := { status : Z; body : Body }.

Definition json (b : Body) (st : Z) : Response := {| status := st; body := b |}.

(** The environment of one request: the clock and the two wave forms. *)
Record Env := {
  now : jsstring;               (* String(Date.now()) *)
  pcm_primary : nat -> Z;
  pcm_fallback : nat -> Z
}.

Definition audioUrl_of (env : Env) : jsstring :=
  js "/api/audio/" ++ now env ++ js ".mp3".

Definition POST (env : Env) (req : RequestBody) : Exc Response :=
  try_catch
    (match text req with
     | None => Ok (json (ErrorBody (js "No text provided")) 400)
     | Some txt =>
         if negb (truthy txt) then Ok (json (ErrorBody (js "No text provided")) 400)
         else
           let urduType := match urduType req with Some u => u | None => js "roman" end in
           let urduText :=
             if jsstring_eqb urduType (js "roman") then convertRomanToUrdu txt
             else txt in
           match
             try_catch
               (bind (generateAudioWithWebSpeechAPI (pcm_primary env) txt urduText)
                  (fun audioBase64 =>
                     Ok (Some (json (SuccessBody (audioUrl_of env) audioBase64
                                       txt urduText (js "web_speech_api")) 200))))
               (fun _ => Ok None)
           with
           | Ok (Some response) => Ok response
           | Ok None =>
               bind (generateNaturalSpeechAudio (pcm_fallback env) txt urduText)
                 (fun audioBase64 =>
                    Ok (json (SuccessBody (audioUrl_of env) audioBase64
                                txt urduText (js "enhanced_simulated")) 200))
           | Throw e => Throw e
           end
     end)
    (fun _ => Ok (json (ErrorBody (js "Failed to process text-to-speech")) 500)).

(** The number of samples the specification states, in exact arithmetic:
    floor (22050 * min (0.07 * length, 3)). *)
Definition stated_samples (len : nat) : Z :=
  Qfloor (22050 * (if Qle_bool ((7 # 100) * inject_Z (Z.of_nat len)) 3
                   then (7 # 100) * inject_Z (Z.of_nat len) else 3))%Q.

End TextToSpeech.

(* ===================================================================== *)
(** * Further functions of the cited files and their callers *)
(* ===================================================================== *)

(* --------------------------------------------------------------------- *)
(** ** [createWavFile] of real-time-audio.ts *)
(* --------------------------------------------------------------------- *)

Module WavFile.
Import TextToSpeech.

(** The copy loop: one [setUint8] per byte of the audio. *)
Fixpoint copy_audio (offset : nat) (audio : list N) (buf : ArrayBuffer)
  : Exc ArrayBuffer :=
  match audio with
  | [] => Ok buf
  | b :: rest =>
      bind (setUint8 offset (Z.of_N b) buf) (copy_audio (S offset) rest)
  end.

(** [createWavFile(audioBuffer, sampleRate)]. *)
Definition createWavFile (audioBuffer : list N) (sampleRate : Z) : Exc ArrayBuffer :=
  let byteLength := Z.of_nat (length audioBuffer) in
  let buffer := replicate (44 + length audioBuffer) 0%N in
  bind (writeString 0 (js "RIFF") buffer) (fun buf =>
  bind (setUint32 4 (36 + byteLength) buf) (fun buf =>
  bind (writeString 8 (js "WAVE") buf) (fun buf =>
  bind (writeString 12 (js "fmt ") buf) (fun buf =>
  bind (setUint32 16 16 buf) (fun buf =>
  bind (setUint16 20 1 buf) (fun buf =>
  bind (setUint16 22 1 buf) (fun buf =>
  bind (setUint32 24 sampleRate buf) (fun buf =>
  bind (setUint32 28 (sampleRate * 2) buf) (fun buf =>
  bind (setUint16 32 2 buf) (fun buf =>
  bind (setUint16 34 16 buf) (fun buf =>
  bind (writeString 36 (js "data") buf) (fun buf =>
  bind (setUint32 40 byteLength buf) (fun buf =>
  copy_audio 44 audioBuffer buf))))))))))))).

(** The header it writes, as a list of bytes. *)
Definition wav_header (sampleRate byteLength : Z) : list N :=
  js "RIFF" ++ le_bytes 4 (36 + byteLength)
  ++ js "WAVE" ++ js "fmt " ++ le_bytes 4 16
  ++ le_bytes 2 1 ++ le_bytes 2 1
  ++ le_bytes 4 sampleRate ++ le_bytes 4 (sampleRate * 2)
  ++ le_bytes 2 2 ++ le_bytes 2 16
  ++ js "data" ++ le_bytes 4 byteLength.

End WavFile.

(* --------------------------------------------------------------------- *)
(** ** [RealTTS.getTTSAudio]: the client of POST /api/text-to-speech *)
(* --------------------------------------------------------------------- *)

Module RealTTS.

(** What the client sees of the reply: the status is ok or not, and the
    JSON fields [success], [audioBase64] and [error]. *)
Definition reply_of (r : Exc TextToSpeech.Response)
  : Exc (bool * bool * option jsstring * option jsstring) :=
  bind r (fun resp =>
    match TextToSpeech.body resp with
    | TextToSpeech.SuccessBody _ audioBase64 _ _ _ =>
        Ok ((TextToSpeech.status resp =? 200), true, Some audioBase64, None)
    | TextToSpeech.ErrorBody e =>
        Ok ((TextToSpeech.status resp =? 200), false, None, Some e)
    end).

(** [atob]: throws on a string that is not Base64. *)
Definition atob (s : jsstring) : Exc (list N) :=
  match Base64.decode s with
  | Some bytes => Ok bytes
  | None => Throw (PlainError (js "InvalidCharacterError"))
  end.

(** [getTTSAudio], with the route as the server; [None] is [null]. *)
Definition getTTSAudio (env : TextToSpeech.Env) (text : jsstring)
  : option (list N) :=
  match
    try_catch
      (bind (reply_of (TextToSpeech.POST env
                         {| TextToSpeech.text := Some text;
                            TextToSpeech.urduType := Some (js "roman") |}))
         (fun '(ok, success, audioBase64, error) =>
            if negb ok then Throw (PlainError (js "HTTP error!"))
            else
              match audioBase64 with
              | Some b64 =>
                  if success && truthy b64 then
                    bind (atob b64) (fun bytes => Ok (Some bytes))
                  else Throw (PlainError (js "TTS generation failed"))
              | None =>
                  Throw (PlainError
                           (match error with
                            | Some e => if truthy e then e else js "TTS generation failed"
                            | None => js "TTS generation failed"
                            end))
              end))
      (fun _ => Ok None)
  with
  | Ok v => v
  | Throw _ => None
  end.

End RealTTS.

(* --------------------------------------------------------------------- *)
(** ** [SimpleSpeechTest]: the debug log of speech-commands.tsx *)
(* --------------------------------------------------------------------- *)

Module SpeechTest.

(** [setDebugInfo(prev => [...prev.slice(-9), entry])]. *)
Definition addDebug (entry : jsstring) (debugInfo : list jsstring) : list jsstring :=
  LanguageModel.slice_last 9 debugInfo ++ [entry].

(** [reset]: [setDebugInfo([])] followed by [addDebug('System reset')]. *)
Definition reset (entry : jsstring) (debugInfo : list jsstring) : list jsstring :=
  addDebug entry [].

(** A run of [addDebug] calls. *)
Definition log_all (entries : list jsstring) (debugInfo : list jsstring)
  : list jsstring :=
  fold_left (fun log entry => addDebug entry log) entries debugInfo.

End SpeechTest.

(* --------------------------------------------------------------------- *)
(** ** [SpeechCommands]: matching a transcript against the command table *)
(* --------------------------------------------------------------------- *)

Module SpeechCommands.

(** The [command] fields of the table, in order. *)
Definition commands : list jsstring :=
  [ js "go home"; js "home"; js "open settings"; js "settings"; js "help";
    js "show help";
    js "گھر جاؤ"; js "گھر"; js "سیٹنگز کھولو"; js "سیٹنگز"; js "مدد"; js "مدد کرو";
    js "start listening"; js "stop listening"; js "clear"; js "clear transcript";
    js "سننا شروع کرو"; js "سننا بند کرو"; js "صاف کرو"; js "ٹرانسکرپٹ صاف کرو";
    js "what can I say"; js "show commands"; js "repeat last command";
    js "میں کیا کہہ سکتا ہوں"; js "کمانڈز دکھاؤ"; js "پچھلا کمانڈ دہرائیں" ].

(** [commands.find(cmd => transcript.includes(cmd.command.toLowerCase()))],
    where [transcript] is the lower-cased, trimmed transcript of the event.
    The command names are ASCII or Urdu script, on which [toLowerCase] is
    the lower-casing of the ASCII letters. *)
Definition matchedCommand (transcript : jsstring) : option jsstring :=
  List.find
    (fun cmd => LanguageModel.includes transcript (LanguageModel.ascii_toLowerCase cmd))
    commands.

End SpeechCommands.

(* --------------------------------------------------------------------- *)
(** ** [SimulatedSpeechRecognizer] of real-time-audio.ts *)
(* --------------------------------------------------------------------- *)

Module SimulatedRecognizer.

Definition phrases : list jsstring :=
  [ js "Aap"; js "Aap kaise"; js "Aap kaise hain?"; js "Aap kaise hain? Main";
    js "Aap kaise hain? Main theek"; js "Aap kaise hain? Main theek hoon." ].

(** The object's fields and the [index] the timer callback closes over. *)
Record State := {
  isListening : bool;
  recognitionTimer : option Z;
  index : nat
}.

(** [stop]. *)
Definition stop (st : State) : State * list Effect :=
  match recognitionTimer st with
  | Some id =>
      if id =? 0 then
        ({| isListening := false; recognitionTimer := recognitionTimer st;
            index := index st |}, [])
      else
        ({| isListening := false; recognitionTimer := None; index := index st |},
         [ClearInterval id])
  | None =>
      ({| isListening := false; recognitionTimer := None; index := index st |}, [])
  end.

(** [start]; [timer] is the id [setInterval] returns. *)
Definition start (timer : Z) (st : State) : State :=
  {| isListening := true; recognitionTimer := Some timer; index := 0 |}.

(** One firing of the interval. *)
Definition tick (st : State) : State * list Effect :=
  if (index st <? length phrases)%nat && isListening st then
    match phrases !! index st with
    | Some transcript =>
        ({| isListening := isListening st; recognitionTimer := recognitionTimer st;
            index := S (index st) |},
         [ReportTranscript transcript (index st =? length phrases - 1)%nat])
    | None => (st, [])
    end
  else stop st.

Fixpoint ticks (n : nat) (st : State) : State * list Effect :=
  match n with
  | O => (st, [])
  | S n' =>
      let '(st1, out1) := tick st in
      let '(st2, out2) := ticks n' st1 in
      (st2, out1 ++ out2)
  end.

End SimulatedRecognizer.

(* ===================================================================== *)
(** * The route handlers from the raw request *)
(* ===================================================================== *)

(** The handlers above start from a body that has been read.  Here each
    route starts from the request itself: reading the body can fail, and a
    field can hold a value of another kind than the handler expects. *)

(* --------------------------------------------------------------------- *)
(** ** POST /api/speech-to-text *)
(* --------------------------------------------------------------------- *)

Module SpeechToTextRoute.
Import SpeechToText.

(** What [formData.get('audio')] yields: [null], a text value or a file. *)
Inductive AudioField :=
| AudioMissing
| AudioText (value : jsstring)
| AudioFile (file : File).

(** The request: [request.formData()] rejects, or yields the form.  The
    [urduType] field is text or missing. *)
Inductive Request :=
| FormDataRejected (e : Error)
| Form (audio : AudioField) (urduType_field : option jsstring).

(** The handler.  A text value has no [arrayBuffer] method: a non-empty one
    passes the [!audioFile] test and the call throws a TypeError. *)
Definition POST (request : Request) (rnd : Number) : Exc Response :=
  try_catch
    (match request with
     | FormDataRejected e => Throw e
     | Form audioFile field =>
         match audioFile with
         | AudioMissing =>
             Ok (json (ErrorBody (js "No audio file provided")) 400)
         | AudioText value =>
             if negb (truthy value) then
               Ok (json (ErrorBody (js "No audio file provided")) 400)
             else Throw (TypeError (js "audioFile.arrayBuffer is not a function"))
         | AudioFile file =>
             SpeechToText.POST {| audio := Some file; urduType_field := field |} rnd
         end
     end)
    (fun _ => Ok (json (ErrorBody (js "Failed to process speech-to-text")) 500)).

End SpeechToTextRoute.

(* --------------------------------------------------------------------- *)
(** ** POST /api/chat *)
(* --------------------------------------------------------------------- *)

Module ChatRoute.
Import Chat.

(** The [conversationHistory] field: a falsy value (missing, [null],
    [false], [0] or the empty string), an array of records, or another
    truthy value, which has no callable [map]. *)
Inductive HistoryField :=
| HistoryFalsy
| HistoryArray (entries : list HistoryEntry)
| HistoryNotArray.

(** The request: [request.json()] rejects or yields [null], which cannot be
    destructured; or the two fields are read.  The message is text or
    missing. *)
Inductive Request :=
| BodyUnreadable (e : Error)
| BodyFields (message : option jsstring) (conversationHistory : HistoryField).

(** [conversationHistory ? conversationHistory.map(...).join('\n') : ''] *)
Definition context_of (conversationHistory : HistoryField) : Exc jsstring :=
  match conversationHistory with
  | HistoryFalsy => Ok []
  | HistoryArray entries => Ok (Chat.context_of (Some entries))
  | HistoryNotArray =>
      Throw (TypeError (js "conversationHistory.map is not a function"))
  end.

(** The handler. *)
Definition POST (sdk : Sdk) (request : Request) : Exc Response :=
  try_catch
    (match request with
     | BodyUnreadable e => Throw e
     | BodyFields message conversationHistory =>
         match message with
         | None => Ok (json (ErrorOnly (js "Message is required")) 400)
         | Some msg =>
             if negb (truthy msg) then
               Ok (json (ErrorOnly (js "Message is required")) 400)
             else
               bind sdk (fun create =>
               bind (context_of conversationHistory) (fun context =>
               bind (create (completion_request context msg)) (fun completion =>
                 let response :=
                   match first_content completion with
                   | Some c => if truthy c then c else apology
                   | None => apology
                   end in
                 Ok (json (Success (trim response)) 200))))
         end
     end)
    (fun _ => Ok (json (Failure (js "Failed to process your message")) 500)).

End ChatRoute.

(* --------------------------------------------------------------------- *)
(** ** POST /api/text-to-speech *)
(* --------------------------------------------------------------------- *)

Module TextToSpeechRoute.
Import TextToSpeech.

(** The request: [request.json()] rejects or yields [null], which cannot be
    destructured; or the two fields are read, each text or missing. *)
Inductive Request :=
| BodyUnreadable (e : Error)
| Body (fields : RequestBody).

(** The handler. *)
Definition POST (env : Env) (request : Request) : Exc Response :=
  try_catch
    (match request with
     | BodyUnreadable e => Throw e
     | Body fields => TextToSpeech.POST env fields
     end)
    (fun _ => Ok (json (ErrorBody (js "Failed to process text-to-speech")) 500)).

End TextToSpeechRoute.
(* ===================================================================== *)
(** * Properties *)
(* ===================================================================== *)

Section NumberFacts.

Lemma digits2_pos_size p : digits2_pos p = Pos.size p.
Proof. induction p; simpl; congruence. Qed.

Lemma digits2_bounds p :
  2 ^ (Z.pos (digits2_pos p) - 1) <= Z.pos p < 2 ^ Z.pos (digits2_pos p).
Proof.
  rewrite digits2_pos_size. split.
  - pose proof (Pos.size_le p) as H.
    assert (Hs : Z.pos (2 ^ Pos.size p) <= Z.pos p~0) by (apply Pos2Z.pos_le_pos; exact H).
    rewrite Pos2Z.inj_pow in Hs.
    replace (Z.pos (Pos.size p)) with (Z.succ (Z.pos (Pos.size p) - 1)) in Hs by lia.
    rewrite Z.pow_succ_r in Hs by lia. lia.
  - pose proof (Pos.size_gt p) as H.
    assert (Hs : Z.pos p < Z.pos (2 ^ Pos.size p)) by (apply Pos2Z.pos_lt_pos; exact H).
    rewrite Pos2Z.inj_pow in Hs. exact Hs.
Qed.

Lemma digits2_unique p n :
  2 ^ (n - 1) <= Z.pos p < 2 ^ n -> Z.pos (digits2_pos p) = n.
Proof.
  intros [Hlo Hhi]. pose proof (digits2_bounds p) as [Dlo Dhi].
  assert (0 < n).
  { destruct (Z_lt_le_dec 0 n) as [|Hn]; [assumption|].
    exfalso. destruct (Z.eq_dec n 0) as [->|]; [simpl in Hhi; lia|].
    rewrite (Z.pow_neg_r 2 n) in Hhi by lia. lia. }
  assert (Z.pos (digits2_pos p) - 1 < n).
  { apply (Z.pow_lt_mono_r_iff 2); lia. }
  assert (n - 1 < Z.pos (digits2_pos p)).
  { apply (Z.pow_lt_mono_r_iff 2); lia. }
  lia.
Qed.

Lemma shr_1_m r : 0 <= shr_m r -> shr_m (shr_1 r) = shr_m r / 2.
Proof.
  destruct r as [m b s]. cbn [shr_m]. intros Hm.
  destruct m as [|p|p]; [reflexivity| |lia].
  destruct p as [p|p|]; cbn [shr_1 shr_m].
  - rewrite Pos2Z.inj_xI. apply Z.div_unique with (r := 1); lia.
  - rewrite Pos2Z.inj_xO. apply Z.div_unique with (r := 0); lia.
  - reflexivity.
Qed.

Lemma pow2_xO p : 2 ^ Z.pos p~0 = 2 ^ Z.pos p * 2 ^ Z.pos p.
Proof. rewrite Pos2Z.inj_xO, <- Z.pow_add_r by lia. f_equal. lia. Qed.

Lemma pow2_xI p : 2 ^ Z.pos p~1 = 2 * (2 ^ Z.pos p * 2 ^ Z.pos p).
Proof.
  rewrite Pos2Z.inj_xI, <- Z.pow_add_r by lia.
  replace (2 * Z.pos p + 1) with (Z.succ (Z.pos p + Z.pos p)) by lia.
  apply Z.pow_succ_r. lia.
Qed.

Lemma pow2_gt0 n : 0 <= n -> 0 < 2 ^ n.
Proof. intros. apply Z.pow_pos_nonneg; lia. Qed.

Lemma iter_shr_1_m p : forall r,
  0 <= shr_m r ->
  shr_m (SpecFloat.iter_pos shr_1 p r) = shr_m r / 2 ^ Z.pos p.
Proof.
  induction p as [p IH|p IH|]; intros r Hr; cbn [SpecFloat.iter_pos].
  - pose proof (pow2_gt0 (Z.pos p) ltac:(lia)) as Hp.
    assert (H1 : 0 <= shr_m (shr_1 r))
      by (rewrite shr_1_m by assumption; apply Z.div_pos; lia).
    assert (H2 : 0 <= shr_m (SpecFloat.iter_pos shr_1 p (shr_1 r)))
      by (rewrite IH by assumption; apply Z.div_pos; lia).
    rewrite IH by assumption. rewrite IH by assumption. rewrite shr_1_m by assumption.
    rewrite pow2_xI. rewrite !Z.div_div by lia. reflexivity.
  - pose proof (pow2_gt0 (Z.pos p) ltac:(lia)) as Hp.
    assert (H2 : 0 <= shr_m (SpecFloat.iter_pos shr_1 p r))
      by (rewrite IH by assumption; apply Z.div_pos; lia).
    rewrite IH by assumption. rewrite IH by assumption.
    rewrite pow2_xO. rewrite !Z.div_div by lia. reflexivity.
  - rewrite shr_1_m by assumption. reflexivity.
Qed.

End NumberFacts.
Section NumberFacts2.

Lemma pow2_pos n : 0 < 2 ^ n \/ n < 0.
Proof. destruct (Z_lt_le_dec n 0); [right; assumption|left; apply Z.pow_pos_nonneg; lia]. Qed.

Lemma fexp_normal d : -1074 <= d - 53 -> fexp prec emax d = d - 53.
Proof. intros H. unfold fexp, emin, prec, emax. lia. Qed.

Lemma shr_m_shr m l e k :
  0 <= m -> 0 <= k ->
  shr_m (fst (shr (shr_record_of_loc m l) e k)) = m / 2 ^ k /\
  snd (shr (shr_record_of_loc m l) e k) = e + k.
Proof.
  intros Hm Hk.
  assert (Hr : shr_m (shr_record_of_loc m l) = m) by (destruct l as [|[]]; reflexivity).
  destruct k as [|p|p]; cbn [shr fst snd]; [| |lia].
  - rewrite Hr, Z.div_1_r. split; [reflexivity|lia].
  - rewrite iter_shr_1_m by (rewrite Hr; assumption). rewrite Hr. split; reflexivity.
Qed.

Lemma round_nearest_even_bounds m l :
  m <= round_nearest_even m l <= m + 1.
Proof.
  unfold round_nearest_even. destruct l as [|[]]; try lia.
  destruct (Z.even m); lia.
Qed.

Lemma binary_round_aux_lower (m e : Z) lx (c : Z) :
  0 < m -> 53 <= Zdigits2 m -> -1074 <= Zdigits2 m + e - 53 ->
  0 < c <= 2 ^ 53 ->
  (e <= 0 -> c * 2 ^ (- e) <= m) ->
  at_least (binary_round_aux prec emax false m e lx) c.
Proof.
  intros Hm Hd Hn Hc Hv.
  destruct m as [|p|p]; try lia. cbn [Zdigits2] in *.
  pose proof (digits2_bounds p) as [Dlo Dhi].
  set (d := Z.pos (digits2_pos p)) in *.
  set (k := d - 53). set (T := Z.pos p / 2 ^ k). set (E := e + k).
  assert (Hk : 0 <= k) by (unfold k; lia).
  assert (Hpk : 0 < 2 ^ k) by (apply Z.pow_pos_nonneg; lia).
  assert (HT : 2 ^ 52 <= T < 2 ^ 53).
  { unfold T. split.
    - apply Z.div_le_lower_bound; [assumption|].
      rewrite <- Z.pow_add_r by lia. replace (k + 52) with (d - 1) by (unfold k; lia). exact Dlo.
    - apply Z.div_lt_upper_bound; [assumption|].
      rewrite <- Z.pow_add_r by lia. replace (k + 53) with d by (unfold k; lia). exact Dhi. }
  assert (HTv : E <= 0 -> c * 2 ^ (- E) <= T).
  { intros HE. unfold T. apply Z.div_le_lower_bound; [assumption|].
    assert (He : e <= 0) by (unfold E in HE; lia).
    specialize (Hv He). replace (- e) with (k + - E) in Hv by (unfold E; lia).
    rewrite Z.pow_add_r in Hv by lia. lia. }
  unfold binary_round_aux, shr_fexp. cbn [Zdigits2]. fold d.
  rewrite fexp_normal by lia. replace (d + e - 53 - e) with k by (unfold k; lia).
  destruct (shr_m_shr (Z.pos p) lx e k) as [Hs1 Hs2]; [lia|assumption|].
  destruct (shr (shr_record_of_loc (Z.pos p) lx) e k) as [mrs' e'] eqn:Hshr.
  cbn [fst snd] in Hs1, Hs2. fold T in Hs1. fold E in Hs2. subst e'.
  pose proof (round_nearest_even_bounds (shr_m mrs') (loc_of_shr_record mrs')) as HM.
  rewrite Hs1 in HM |- *.
  set (M := round_nearest_even T (loc_of_shr_record mrs')) in *.
  assert (HE : -1074 <= E) by (unfold E, k; lia).
  destruct M as [|q|q] eqn:HMq; try lia.
  destruct (Z_lt_le_dec (Z.pos q) (2 ^ 53)) as [Hlt|Hge].
  - (* the rounded mantissa still has 53 digits *)
    assert (Hdq : Z.pos (digits2_pos q) = 53) by (apply digits2_unique; lia).
    cbn [Zdigits2]. rewrite Hdq. rewrite fexp_normal by lia.
    replace (53 + E - 53 - E) with 0 by lia. cbn [shr shr_record_of_loc shr_m].
    destruct (E <=? emax - prec); [|left; reflexivity].
    right. exists q, E. split; [reflexivity|]. split; [assumption|].
    intros HE0. specialize (HTv HE0). lia.
  - (* the mantissa was rounded up to 2^53 *)
    assert (Hq : Z.pos q = 2 ^ 53) by lia.
    assert (Hdq : Z.pos (digits2_pos q) = 54) by (apply digits2_unique; rewrite Hq; simpl; lia).
    cbn [Zdigits2]. rewrite Hdq. rewrite fexp_normal by lia.
    replace (54 + E - 53 - E) with 1 by lia.
    assert (q = 9007199254740992%positive) as -> by (apply Pos2Z.inj; rewrite Hq; reflexivity).
    cbn [shr shr_record_of_loc shr_m SpecFloat.iter_pos shr_1].
    destruct (E + 1 <=? emax - prec); [|left; reflexivity].
    right. exists 4503599627370496%positive, (E + 1). split; [reflexivity|].
    split; [reflexivity|]. intros HE0.
    assert (HE1 : E <= 0) by lia. specialize (HTv HE1).
    replace (- E) with (1 + - (E + 1)) in HTv by lia.
    rewrite Z.pow_add_r in HTv by lia. change (2 ^ 1) with 2 in HTv.
    change (Z.pos 4503599627370496) with (2 ^ 52). change (2^53) with (2 * 2^52) in HT. lia.
Qed.

End NumberFacts2.
Section NumberFacts3.

Lemma iter_xO_pow p n : Z.pos (Pos.iter xO p n) = Z.pos p * 2 ^ Z.pos n.
Proof.
  change (Pos.iter xO p n) with (shift_pos n p).
  rewrite shift_pos_correct, Zpower_pos_nat, Zpower_nat_Z, positive_nat_Z. lia.
Qed.

Lemma of_Z_at_least z c : 0 < c <= 2 ^ 53 -> c <= z -> at_least (of_Z z) c.
Proof.
  intros Hc Hz. destruct z as [|p|p]; try lia.
  unfold of_Z, binary_normalize, binary_round.
  pose proof (digits2_bounds p) as [Dlo Dhi].
  set (d := Z.pos (digits2_pos p)) in *.
  assert (Hd : 0 < d) by (unfold d; lia).
  replace (d + 0) with d by lia.
  rewrite fexp_normal by lia. unfold shl_align.
  destruct (d - 53 - 0) as [|s|s] eqn:Hs.
  - apply binary_round_aux_lower; cbn [Zdigits2]; fold d; try lia.
  - apply binary_round_aux_lower; cbn [Zdigits2]; fold d; try lia.
  - assert (Hsh : Z.pos (Pos.iter xO p s) = Z.pos p * 2 ^ (53 - d)).
    { rewrite iter_xO_pow. f_equal. f_equal. lia. }
    assert (Hpw : 0 < 2 ^ (53 - d)) by (apply Z.pow_pos_nonneg; lia).
    assert (Hdg : Z.pos (digits2_pos (Pos.iter xO p s)) = 53).
    { apply digits2_unique. rewrite Hsh. split.
      - replace 52 with ((d - 1) + (53 - d)) at 1 by lia. 
        replace (53 - 1) with ((d - 1) + (53 - d)) by lia.
        rewrite Z.pow_add_r by lia. nia.
      - replace 53 with (d + (53 - d)) at 2 by lia.
        rewrite Z.pow_add_r by lia. nia. }
    apply binary_round_aux_lower; cbn [Zdigits2]; try lia.
    intros _. rewrite Hsh. replace (- (d - 53)) with (53 - d) by lia. nia.
Qed.

(** Multiplying a number that is at least [a] by a positive normal
    constant [(my, ey)] gives at least [c] whenever [a * my * 2^ey >= c]. *)
Lemma mul_at_least x a my ey c :
  at_least x a ->
  Z.pos (digits2_pos my) = 53 -> -60 <= ey <= 0 ->
  0 < a <= 2 ^ 53 -> 0 < c <= 2 ^ 53 ->
  c * 2 ^ (- ey) <= a * Z.pos my ->
  at_least (mul x (S754_finite false my ey)) c.
Proof.
  intros [->|(mx & ex & -> & Hdx & Hvx)] Hdy Hey Ha Hc Hcmp.
  - left. reflexivity.
  - unfold mul, SFmul. cbn [xorb].
    pose proof (digits2_bounds mx) as [Xlo Xhi]. rewrite Hdx in Xlo, Xhi.
    pose proof (digits2_bounds my) as [Ylo Yhi]. rewrite Hdy in Ylo, Yhi.
    pose proof (digits2_bounds (mx * my)) as [Plo Phi].
    change (53 - 1) with 52 in *.
    assert (Hprod : 2 ^ 104 <= Z.pos (mx * my)).
    { rewrite Pos2Z.inj_mul. change (2 ^ 104) with (2 ^ 52 * 2 ^ 52). nia. }
    assert (Hdp : 105 <= Z.pos (digits2_pos (mx * my))).
    { assert (104 < Z.pos (digits2_pos (mx * my))); [|lia].
      apply (Z.pow_lt_mono_r_iff 2); lia. }
    assert (Hex : -53 <= ex).
    { destruct (Z_lt_le_dec ex (-53)) as [Hlt|]; [|assumption]. exfalso.
      assert (He0 : ex <= 0) by lia. specialize (Hvx He0).
      assert (2 ^ 53 <= 2 ^ (- ex)) by (apply Z.pow_le_mono_r; lia). nia. }
    apply binary_round_aux_lower; cbn [Zdigits2]; try lia.
    intros He. rewrite Pos2Z.inj_mul.
    destruct (Z_le_gt_dec ex 0) as [Hx0|Hx0].
    + specialize (Hvx Hx0). replace (- (ex + ey)) with (- ex + - ey) by lia.
      rewrite Z.pow_add_r by lia.
      assert (0 < 2 ^ (- ex)) by (apply Z.pow_pos_nonneg; lia).
      assert (0 < 2 ^ (- ey)) by (apply Z.pow_pos_nonneg; lia).
      nia.
    + set (Q := 2 ^ (- (ex + ey))). set (R := 2 ^ ex).
      assert (HQ : 0 < Q) by (apply pow2_gt0; lia).
      assert (HR : 2 <= R) by (apply (Z.pow_le_mono_r 2 1 ex); lia).
      assert (HQR : Q * R = 2 ^ (- ey)).
      { unfold Q, R. rewrite <- Z.pow_add_r by lia. f_equal. lia. }
      assert (H1 : c * Q * 2 <= c * Q * R) by (apply Z.mul_le_mono_nonneg_l; nia).
      assert (H2 : c * Q * R <= a * Z.pos my) by (rewrite <- Z.mul_assoc, HQR; exact Hcmp).
      assert (H3 : a * Z.pos my <= 2 ^ 53 * Z.pos my) by (apply Z.mul_le_mono_nonneg_r; lia).
      assert (H4 : 2 ^ 52 * Z.pos my <= Z.pos mx * Z.pos my) by (apply Z.mul_le_mono_nonneg_r; lia).
      change (2 ^ 53) with (2 * 2 ^ 52) in H3. lia.
Qed.

(** Comparison of a number that is at least [c] with the constant [c]
    itself, given in canonical form [(mc, ec)]. *)
Lemma at_least_compare x c mc ec :
  at_least x c ->
  Z.pos (digits2_pos mc) = 53 -> ec <= 0 -> Z.pos mc = c * 2 ^ (- ec) ->
  SFcompare x (S754_finite false mc ec) = Some Gt \/ x = S754_finite false mc ec.
Proof.
  intros [->|(m & e & -> & Hd & Hv)] Hdc Hec Hmc.
  - left. reflexivity.
  - cbn [SFcompare].
    pose proof (digits2_bounds m) as [Xlo Xhi]. rewrite Hd in Xlo, Xhi.
    pose proof (digits2_bounds mc) as [Clo Chi]. rewrite Hdc in Clo, Chi.
    destruct (Z.compare_spec e ec) as [->|Hlt|Hgt].
    + specialize (Hv Hec). rewrite <- Hmc in Hv.
      rewrite Pos.compare_cont_spec. cbn [Pos.switch_Eq].
      destruct (Pos.compare_spec m mc) as [->|Hl|Hg]; [right; reflexivity|lia|left; reflexivity].
    + exfalso. assert (He : e <= 0) by lia. specialize (Hv He).
      assert (Hpw : 2 * 2 ^ (- ec) <= 2 ^ (- e)).
      { replace (- e) with (1 + (- ec) + (ec - e - 1)) by lia.
        rewrite !Z.pow_add_r by lia. change (2 ^ 1) with 2.
        assert (1 <= 2 ^ (ec - e - 1)) by (apply (Z.pow_le_mono_r 2 0); lia).
        assert (0 < 2 ^ (- ec)) by (apply Z.pow_pos_nonneg; lia). nia. }
      change (53 - 1) with 52 in *. change (2 ^ 53) with (2 * 2 ^ 52) in *.
      assert (0 < c) by (assert (0 < 2 ^ (- ec)) by (apply Z.pow_pos_nonneg; lia); nia).
      nia.
    + left. reflexivity.
Qed.

End NumberFacts3.

Section NumberFacts4.

(** Dividing a number that is at least [a] by a positive normal constant
    [(my, ey)] gives at least [c] whenever [c * my * 2^ey <= a]. *)
Lemma div_at_least x a my ey c :
  at_least x a ->
  Z.pos (digits2_pos my) = 53 -> -60 <= ey <= 0 ->
  0 < a <= 2 ^ 53 -> 0 < c <= 2 ^ 53 ->
  c * Z.pos my <= a * 2 ^ (- ey) ->
  at_least (div x (S754_finite false my ey)) c.
Proof.
  intros [->|(mx & ex & -> & Hdx & Hvx)] Hdy Hey Ha Hc Hcmp.
  - left. reflexivity.
  - unfold div, SFdiv, SFdiv_core_binary. cbn [xorb Zdigits2].
    rewrite Hdx, Hdy.
    pose proof (digits2_bounds mx) as [Xlo Xhi]. rewrite Hdx in Xlo, Xhi.
    pose proof (digits2_bounds my) as [Ylo Yhi]. rewrite Hdy in Ylo, Yhi.
    change (53 - 1) with 52 in *.
    assert (Hex : -53 <= ex).
    { destruct (Z_lt_le_dec ex (-53)) as [Hlt|]; [|assumption]. exfalso.
      assert (He0 : ex <= 0) by lia. specialize (Hvx He0).
      assert (2 ^ 53 <= 2 ^ (- ex)) by (apply Z.pow_le_mono_r; lia). nia. }
    replace (53 + ex - (53 + ey)) with (ex - ey) by lia.
    rewrite fexp_normal by lia.
    rewrite Z.min_l by lia.
    replace (ex - ey - (ex - ey - 53)) with 53 by lia.
    cbv beta iota. rewrite Z.shiftl_mul_pow2 by lia.
    pose proof (Z.div_eucl_eq (Z.pos mx * 2 ^ 53) (Z.pos my) ltac:(lia)) as Heq.
    pose proof (Z.mod_pos_bound (Z.pos mx * 2 ^ 53) (Z.pos my) ltac:(lia)) as Hmod.
    unfold Z.modulo in Hmod.
    destruct (Z.div_eucl (Z.pos mx * 2 ^ 53) (Z.pos my)) as [q r].
    assert (Hq : 2 ^ 52 <= q).
    { assert (2 ^ 52 * Z.pos my < (q + 1) * Z.pos my); [|nia].
      assert (2 ^ 52 * Z.pos my <= 2 ^ 52 * 2 ^ 53) by (apply Z.mul_le_mono_nonneg_l; lia).
      assert (2 ^ 52 * 2 ^ 53 <= Z.pos mx * 2 ^ 53) by (apply Z.mul_le_mono_nonneg_r; lia).
      lia. }
    destruct q as [|q|q]; try lia.
    assert (Hdq : 53 <= Z.pos (digits2_pos q)).
    { pose proof (digits2_bounds q) as [_ Qhi].
      assert (52 < Z.pos (digits2_pos q)); [|lia].
      apply (Z.pow_lt_mono_r_iff 2); lia. }
    apply binary_round_aux_lower; cbn [Zdigits2]; try lia.
    intros He.
    set (P := 2 ^ (- (ex - ey - 53))).
    assert (HP : 0 < P) by (apply pow2_gt0; lia).
    (* c * P * my <= mx * 2^53 *)
    assert (Hmain : c * P * Z.pos my <= Z.pos mx * 2 ^ 53).
    { assert (H1 : c * Z.pos my * P <= a * 2 ^ (- ey) * P)
        by (apply Z.mul_le_mono_nonneg_r; lia).
      assert (H2 : 2 ^ (- ey) * P = 2 ^ (53 - ex)).
      { unfold P. rewrite <- Z.pow_add_r by lia. f_equal. lia. }
      assert (H3 : a * 2 ^ (53 - ex) <= Z.pos mx * 2 ^ 53).
      { destruct (Z_le_gt_dec ex 0) as [Hx0|Hx0].
        - specialize (Hvx Hx0).
          replace (53 - ex) with (- ex + 53) by lia. rewrite Z.pow_add_r by lia.
          rewrite Z.mul_assoc. apply Z.mul_le_mono_nonneg_r; lia.
        - assert (2 ^ (53 - ex) <= 2 ^ 52) by (apply Z.pow_le_mono_r; lia).
          assert (0 < 2 ^ (53 - ex)) by (apply pow2_gt0; lia).
          assert (a * 2 ^ (53 - ex) <= 2 ^ 53 * 2 ^ (53 - ex))
            by (apply Z.mul_le_mono_nonneg_r; lia).
          assert (2 ^ 53 * 2 ^ (53 - ex) <= 2 ^ 53 * 2 ^ 52)
            by (apply Z.mul_le_mono_nonneg_l; lia).
          assert (2 ^ 53 * 2 ^ 52 <= Z.pos mx * 2 ^ 53) by lia.
          lia. }
      replace (a * 2 ^ (- ey) * P) with (a * (2 ^ (- ey) * P)) in H1 by ring.
      rewrite H2 in H1.
      replace (c * P * Z.pos my) with (c * Z.pos my * P) by ring. lia. }
    (* hence c * P <= q, since q is the quotient *)
    assert (c * P < Z.pos q + 1); [|lia].
    apply (Z.mul_lt_mono_pos_r (Z.pos my)); [lia|]. nia.
Qed.

End NumberFacts4.

Section NumberFacts5.

(** The shape of a rounded result in the normal range: the mantissa [m] is
    cut to its leading 53 bits [T] and then kept or incremented. *)
Lemma binary_round_aux_shape (m e : Z) lx :
  0 < m -> 53 <= Zdigits2 m -> -1074 <= Zdigits2 m + e - 53 ->
  let k := Zdigits2 m - 53 in
  let T := m / 2 ^ k in
  let E := e + k in
  2 ^ 52 <= T < 2 ^ 53 /\
  exists m' e',
    binary_round_aux prec emax false m e lx =
      (if e' <=? emax - prec then S754_finite false m' e' else S754_infinity false)
    /\ Z.pos (digits2_pos m') = 53
    /\ ((e' = E /\ T <= Z.pos m' <= T + 1)
        \/ (e' = E + 1 /\ Z.pos m' = 2 ^ 52 /\ T = 2 ^ 53 - 1))
    /\ (k = 0 -> lx = loc_Exact -> Z.pos m' = m /\ e' = e).
Proof.
  intros Hm Hd Hn.
  destruct m as [|p|p]; try lia. cbn [Zdigits2] in *.
  pose proof (digits2_bounds p) as [Dlo Dhi].
  set (d := Z.pos (digits2_pos p)) in *.
  set (k := d - 53). set (T := Z.pos p / 2 ^ k). set (E := e + k).
  assert (Hk : 0 <= k) by (unfold k; lia).
  assert (Hpk : 0 < 2 ^ k) by (apply Z.pow_pos_nonneg; lia).
  assert (HT : 2 ^ 52 <= T < 2 ^ 53).
  { unfold T. split.
    - apply Z.div_le_lower_bound; [assumption|].
      rewrite <- Z.pow_add_r by lia. replace (k + 52) with (d - 1) by (unfold k; lia). exact Dlo.
    - apply Z.div_lt_upper_bound; [assumption|].
      rewrite <- Z.pow_add_r by lia. replace (k + 53) with d by (unfold k; lia). exact Dhi. }
  split; [exact HT|].
  unfold binary_round_aux, shr_fexp. cbn [Zdigits2]. fold d.
  rewrite fexp_normal by lia. replace (d + e - 53 - e) with k by (unfold k; lia).
  destruct (shr_m_shr (Z.pos p) lx e k) as [Hs1 Hs2]; [lia|assumption|].
  assert (Hexact : k = 0 -> lx = loc_Exact ->
            round_nearest_even
              (shr_m (fst (shr (shr_record_of_loc (Z.pos p) lx) e k)))
              (loc_of_shr_record (fst (shr (shr_record_of_loc (Z.pos p) lx) e k)))
            = Z.pos p).
  { intros -> ->. reflexivity. }
  destruct (shr (shr_record_of_loc (Z.pos p) lx) e k) as [mrs' e'] eqn:Hshr.
  cbn [fst snd] in Hs1, Hs2, Hexact. fold T in Hs1. fold E in Hs2. subst e'.
  pose proof (round_nearest_even_bounds (shr_m mrs') (loc_of_shr_record mrs')) as HM.
  rewrite Hs1 in HM, Hexact |- *.
  set (M := round_nearest_even T (loc_of_shr_record mrs')) in *.
  assert (HE : -1074 <= E) by (unfold E, k; lia).
  destruct M as [|q|q] eqn:HMq; try lia.
  destruct (Z_lt_le_dec (Z.pos q) (2 ^ 53)) as [Hlt|Hge].
  - assert (Hdq : Z.pos (digits2_pos q) = 53) by (apply digits2_unique; lia).
    cbn [Zdigits2]. rewrite Hdq. rewrite fexp_normal by lia.
    replace (53 + E - 53 - E) with 0 by lia. cbn [shr shr_record_of_loc shr_m].
    exists q, E. split; [reflexivity|]. split; [assumption|].
    split; [left; lia|].
    intros Hk0 Hlx. split; [exact (Hexact Hk0 Hlx)|unfold E; lia].
  - assert (Hq : Z.pos q = 2 ^ 53) by lia.
    assert (Hdq : Z.pos (digits2_pos q) = 54) by (apply digits2_unique; rewrite Hq; simpl; lia).
    cbn [Zdigits2]. rewrite Hdq. rewrite fexp_normal by lia.
    replace (54 + E - 53 - E) with 1 by lia.
    assert (q = 9007199254740992%positive) as -> by (apply Pos2Z.inj; rewrite Hq; reflexivity).
    cbn [shr shr_record_of_loc shr_m SpecFloat.iter_pos shr_1].
    exists 4503599627370496%positive, (E + 1). split; [reflexivity|].
    split; [reflexivity|]. split.
    + right. split; [reflexivity|]. split; [reflexivity|]. lia.
    + intros Hk0 Hlx. specialize (Hexact Hk0 Hlx).
      exfalso. unfold T in HT. rewrite Hk0, Z.pow_0_r, Z.div_1_r in HT.
      injection Hexact as Hp. lia.
Qed.

(** Integers below 2^53 are represented exactly. *)
Lemma of_Z_exact z :
  0 < z < 2 ^ 53 ->
  exists m s,
    of_Z z = S754_finite false m (- s)
    /\ Z.pos (digits2_pos m) = 53 /\ 0 <= s <= 52 /\ Z.pos m = z * 2 ^ s.
Proof.
  intros [Hz0 Hz]. destruct z as [|p|p]; try lia.
  unfold of_Z, binary_normalize, binary_round.
  pose proof (digits2_bounds p) as [Dlo Dhi].
  set (d := Z.pos (digits2_pos p)) in *.
  assert (Hd : 0 < d <= 53).
  { split; [unfold d; lia|].
    assert (d - 1 < 53); [|lia]. apply (Z.pow_lt_mono_r_iff 2); lia. }
  replace (d + 0) with d by lia.
  rewrite fexp_normal by lia. unfold shl_align.
  destruct (d - 53 - 0) as [|s|s] eqn:Hs; [|lia|].
  - (* exactly 53 digits *)
    destruct (binary_round_aux_shape (Z.pos p) 0 loc_Exact) as (_ & m' & e' & Hr & Hdm & _ & Hex);
      cbn [Zdigits2]; fold d; try lia.
    destruct Hex as [Hm' He']; [cbn [Zdigits2]; fold d; lia|reflexivity|]. subst e'.
    rewrite Hr. change (0 <=? emax - prec) with true. cbv iota.
    exists m', 0. split; [reflexivity|]. split; [assumption|]. split; [lia|].
    rewrite Hm'. change (2 ^ 0) with 1. lia.
  - assert (Hsh : Z.pos (Pos.iter xO p s) = Z.pos p * 2 ^ (53 - d)).
    { rewrite iter_xO_pow. f_equal. f_equal. lia. }
    assert (Hpw : 0 < 2 ^ (53 - d)) by (apply Z.pow_pos_nonneg; lia).
    assert (Hdg : Z.pos (digits2_pos (Pos.iter xO p s)) = 53).
    { apply digits2_unique. rewrite Hsh. split.
      - replace (53 - 1) with ((d - 1) + (53 - d)) by lia.
        rewrite Z.pow_add_r by lia. nia.
      - replace 53 with (d + (53 - d)) at 2 by lia.
        rewrite Z.pow_add_r by lia. nia. }
    destruct (binary_round_aux_shape (Z.pos (Pos.iter xO p s)) (d - 53) loc_Exact)
      as (_ & m' & e' & Hr & Hdm & _ & Hex); cbn [Zdigits2]; try lia.
    destruct Hex as [Hm' He']; [cbn [Zdigits2]; lia|reflexivity|]. subst e'.
    rewrite Hr.
    replace (d - 53 <=? emax - prec) with true
      by (symmetry; apply Z.leb_le; unfold emax, prec; lia).
    exists m', (53 - d). split; [f_equal; lia|]. split; [assumption|]. split; [lia|].
    rewrite Hm', Hsh. reflexivity.
Qed.

End NumberFacts5.

Section NumberFacts6.

Lemma lt_finite m e mc ec :
  e < ec \/ (e = ec /\ Z.pos m < Z.pos mc) ->
  lt (S754_finite false m e) (S754_finite false mc ec) = true.
Proof.
  intros H. unfold lt, SFltb. cbn [SFcompare].
  destruct H as [H|[-> H]].
  - rewrite (proj2 (Z.compare_lt_iff e ec) H). reflexivity.
  - rewrite Z.compare_refl, Pos.compare_cont_spec.
    rewrite (proj2 (Pos.compare_lt_iff m mc)) by lia. reflexivity.
Qed.

(** What the quotient of a length [z] by 32000 rounds to: a 53-bit
    mantissa [m'] at exponent [- j] (or [2^52] one exponent up), where the
    cut mantissa [T] satisfies [32000 * T <= z * 2^j]. *)
Lemma div_32000_shape z :
  0 < z < 96000 ->
  exists T j m' e',
    div (of_Z z) (of_Z 32000) = S754_finite false m' e'
    /\ 2 ^ 52 <= T < 2 ^ 53 /\ 50 <= j /\ 32000 * T <= z * 2 ^ j
    /\ ((e' = - j /\ T <= Z.pos m' <= T + 1)
        \/ (e' = - j + 1 /\ Z.pos m' = 2 ^ 52 /\ T = 2 ^ 53 - 1)).
Proof.
  intros Hz.
  destruct (of_Z_exact z) as (m1 & s & -> & Hd1 & Hs & Hm1);
    [change (2 ^ 53) with 9007199254740992; lia|].
  change (of_Z 32000) with (S754_finite false 8796093022208000 (-38)).
  unfold div, SFdiv, SFdiv_core_binary. cbn [xorb Zdigits2].
  rewrite Hd1. change (Z.pos (digits2_pos 8796093022208000)) with 53.
  pose proof (digits2_bounds m1) as [Xlo Xhi]. rewrite Hd1 in Xlo, Xhi.
  change (53 - 1) with 52 in *.
  assert (Hs36 : 36 <= s).
  { destruct (Z_lt_le_dec s 36) as [Hlt|]; [|assumption]. exfalso.
    assert (2 ^ s <= 2 ^ 35) by (apply Z.pow_le_mono_r; lia).
    assert (0 < 2 ^ s) by (apply Z.pow_pos_nonneg; lia).
    change (2 ^ 35) with 34359738368 in *.
    change (2 ^ 52) with 4503599627370496 in *. nia. }
  replace (53 + - s - (53 + -38)) with (38 - s) by lia.
  rewrite fexp_normal by lia.
  rewrite Z.min_l by lia.
  replace (- s - -38 - (38 - s - 53)) with 53 by lia.
  cbv beta iota. rewrite Z.shiftl_mul_pow2 by lia.
  pose proof (Z.div_eucl_eq (Z.pos m1 * 2 ^ 53) 8796093022208000 ltac:(lia)) as Heq.
  pose proof (Z.mod_pos_bound (Z.pos m1 * 2 ^ 53) 8796093022208000 ltac:(lia)) as Hmod.
  unfold Z.modulo in Hmod.
  destruct (Z.div_eucl (Z.pos m1 * 2 ^ 53) 8796093022208000) as [q r].
  assert (Hq : 2 ^ 52 <= q < 2 ^ 54).
  { change (2 ^ 53) with 9007199254740992 in *.
    change (2 ^ 52) with 4503599627370496 in *.
    change (2 ^ 54) with 18014398509481984. lia. }
  destruct q as [|q|q]; try lia.
  pose proof (digits2_bounds q) as [Qlo Qhi].
  set (d := Z.pos (digits2_pos q)) in *.
  assert (Hdq : 53 <= d <= 54).
  { split.
    - assert (52 < d); [|lia]. apply (Z.pow_lt_mono_r_iff 2); lia.
    - assert (d - 1 < 54); [|lia]. apply (Z.pow_lt_mono_r_iff 2); lia. }
  destruct (binary_round_aux_shape (Z.pos q) (38 - s - 53)
              (new_location 8796093022208000 r))
    as (HT & m' & e' & Hr & Hdm & Hcases & _); cbn [Zdigits2]; fold d; try lia.
  cbn [Zdigits2] in HT, Hcases. fold d in HT, Hcases.
  set (k := d - 53) in *. set (T := Z.pos q / 2 ^ k) in *.
  assert (Hk : 0 <= k <= 1) by (unfold k; lia).
  assert (Hpk : 0 < 2 ^ k) by (apply Z.pow_pos_nonneg; lia).
  assert (HTq : T * 2 ^ k <= Z.pos q).
  { unfold T. rewrite Z.mul_comm. apply Z.mul_div_le. assumption. }
  set (j := s + 15 - k).
  assert (Hj : 50 <= j) by (unfold j; lia).
  assert (Hpow : 2 ^ j * (2 ^ k * 2 ^ 38) = 2 ^ s * 2 ^ 53).
  { rewrite <- !Z.pow_add_r by lia. f_equal. unfold j. lia. }
  assert (Hmain : 32000 * T <= z * 2 ^ j).
  { apply (Z.mul_le_mono_pos_r _ _ (2 ^ k * 2 ^ 38));
      [apply Z.mul_pos_pos; [assumption|apply Z.pow_pos_nonneg; lia]|].
    replace (z * 2 ^ j * (2 ^ k * 2 ^ 38)) with (z * (2 ^ j * (2 ^ k * 2 ^ 38))) by ring.
    rewrite Hpow.
    replace (z * (2 ^ s * 2 ^ 53)) with (Z.pos m1 * 2 ^ 53) by (rewrite Hm1; ring).
    replace (32000 * T * (2 ^ k * 2 ^ 38)) with (8796093022208000 * (T * 2 ^ k))
      by (change (2 ^ 38) with 274877906944; ring).
    assert (8796093022208000 * (T * 2 ^ k) <= 8796093022208000 * Z.pos q)
      by (apply Z.mul_le_mono_nonneg_l; lia).
    lia. }
  exists T, j, m', e'.
  assert (He' : e' <= 0) by (destruct Hcases as [[-> _]|[-> _]]; unfold k in *; lia).
  rewrite Hr.
  replace (e' <=? emax - prec) with true
    by (symmetry; apply Z.leb_le; unfold emax, prec; lia).
  split; [reflexivity|]. split; [exact HT|]. split; [exact Hj|].
  split; [exact Hmain|].
  destruct Hcases as [[-> Hm']|[-> Hm']]; [left|right];
    (split; [unfold j; lia|exact Hm']).
Qed.

End NumberFacts6.

Section DurationBelow.

Lemma pow2_le_const j n : j <= n -> 0 <= j -> 0 < 2 ^ j <= 2 ^ n.
Proof.
  intros H H0. split; [apply Z.pow_pos_nonneg; lia|apply Z.pow_le_mono_r; lia].
Qed.

(** Below the threshold [32000 * c] the quotient compares less than [c]. *)
Lemma duration_below z c :
  (c = 1 \/ c = 2 \/ c = 3) -> 0 <= z < 32000 * c ->
  lt (div (of_Z z) (of_Z 32000)) (of_Z c) = true.
Proof.
  intros Hc Hz.
  destruct (Z.eq_dec z 0) as [->|Hz0].
  { destruct Hc as [->|[->| ->]]; vm_compute; reflexivity. }
  destruct (div_32000_shape z) as (T & j & m' & e' & -> & HT & Hj & Hmain & Hcases); [lia|].
  change (2 ^ 53) with 9007199254740992 in *.
  change (2 ^ 52) with 4503599627370496 in *.
  assert (Hpj : 0 < 2 ^ j) by (apply Z.pow_pos_nonneg; lia).
  assert (Hub : 32000 * T <= (32000 * c - 1) * 2 ^ j)
    by (assert (z * 2 ^ j <= (32000 * c - 1) * 2 ^ j)
          by (apply Z.mul_le_mono_nonneg_r; lia); lia).
  destruct Hc as [->|[->| ->]].
  - (* c = 1 *)
    change (of_Z 1) with (S754_finite false 4503599627370496 (-52)).
    assert (H53 : 53 <= j).
    { destruct (Z_lt_le_dec j 53) as [Hlt|]; [|assumption]. exfalso.
      destruct (pow2_le_const j 52) as [_ H]; [lia|lia|].
      change (2 ^ 52) with 4503599627370496 in H. lia. }
    apply lt_finite. destruct Hcases as [[-> _]|(-> & Hm' & HTmax)]; [left; lia|].
    destruct (Z.eq_dec j 53) as [->|]; [|left; lia]. exfalso.
    change (2 ^ 53) with 9007199254740992 in Hub. lia.
  - (* c = 2 *)
    change (of_Z 2) with (S754_finite false 4503599627370496 (-51)).
    assert (H52 : 52 <= j).
    { destruct (Z_lt_le_dec j 52) as [Hlt|]; [|assumption]. exfalso.
      destruct (pow2_le_const j 51) as [_ H]; [lia|lia|].
      change (2 ^ 51) with 2251799813685248 in H. lia. }
    apply lt_finite. destruct Hcases as [[-> _]|(-> & Hm' & HTmax)]; [left; lia|].
    destruct (Z.eq_dec j 52) as [->|]; [|left; lia]. exfalso.
    change (2 ^ 52) with 4503599627370496 in Hub. lia.
  - (* c = 3 *)
    change (of_Z 3) with (S754_finite false 6755399441055744 (-51)).
    assert (H51 : 51 <= j).
    { destruct (Z_lt_le_dec j 51) as [Hlt|]; [|assumption]. exfalso.
      destruct (pow2_le_const j 50) as [_ H]; [lia|lia|].
      change (2 ^ 50) with 1125899906842624 in H. lia. }
    apply lt_finite.
    destruct (Z.eq_dec j 51) as [->|Hne].
    + change (2 ^ 51) with 2251799813685248 in Hub.
      destruct Hcases as [[-> Hm']|(-> & Hm' & HTmax)]; [right; split; lia|exfalso; lia].
    + destruct Hcases as [[-> _]|(-> & Hm' & HTmax)]; [left; lia|].
      destruct (Z.eq_dec j 52) as [->|]; [right; split; lia|left; lia].
Qed.

End DurationBelow.

(* --------------------------------------------------------------------- *)
(** ** POST /api/speech-to-text *)
(* --------------------------------------------------------------------- *)

Section DurationFacts.
Import SpeechToText.

Lemma lt_false_at_least x c mc ec :
  at_least x c ->
  Z.pos (digits2_pos mc) = 53 -> ec <= 0 -> Z.pos mc = c * 2 ^ (- ec) ->
  lt x (S754_finite false mc ec) = false.
Proof.
  intros Hx Hd He Hm.
  destruct (at_least_compare x c mc ec Hx Hd He Hm) as [Hgt| ->]; unfold lt, SFltb.
  - rewrite Hgt. reflexivity.
  - cbn [SFcompare]. rewrite Z.compare_refl, Pos.compare_cont_refl. reflexivity.
Qed.

Lemma duration_ge z c :
  (c = 1 \/ c = 2 \/ c = 3) -> 32000 * c <= z ->
  lt (div (of_Z z) (of_Z 32000)) (of_Z c) = false.
Proof.
  intros Hc Hz.
  assert (Hx : at_least (of_Z z) (32000 * c)).
  { apply of_Z_at_least; [|assumption]. change (2 ^ 53) with 9007199254740992. lia. }
  assert (Hd : at_least (div (of_Z z) (of_Z 32000)) c).
  { change (of_Z 32000) with (S754_finite false 8796093022208000 (-38)).
    apply (div_at_least _ (32000 * c)); try assumption; try reflexivity;
      change (2 ^ 53) with 9007199254740992; change (2 ^ (- -38)) with 274877906944; lia. }
  destruct Hc as [->|[->| ->]].
  - change (of_Z 1) with (S754_finite false 4503599627370496 (-52)).
    apply (lt_false_at_least _ 1); [assumption|reflexivity|lia|reflexivity].
  - change (of_Z 2) with (S754_finite false 4503599627370496 (-51)).
    apply (lt_false_at_least _ 2); [assumption|reflexivity|lia|reflexivity].
  - change (of_Z 3) with (S754_finite false 6755399441055744 (-51)).
    apply (lt_false_at_least _ 3); [assumption|reflexivity|lia|reflexivity].
Qed.

(** The comparison [len / 32000 < c] of the source, on doubles, decides
    [len < 32000 * c] for the thresholds the handler uses, where the
    earlier thresholds have not already fired. *)
Lemma duration_lt_1 n :
  lt (div (of_nat n) (of_Z 32000)) (of_Z 1) = (Z.of_nat n <? 32000).
Proof.
  unfold of_nat. destruct (Z.ltb_spec (Z.of_nat n) 32000).
  - apply duration_below; lia.
  - apply duration_ge; lia.
Qed.

Lemma duration_lt_2 n :
  32000 <= Z.of_nat n ->
  lt (div (of_nat n) (of_Z 32000)) (of_Z 2) = (Z.of_nat n <? 64000).
Proof.
  intros Hn. unfold of_nat. destruct (Z.ltb_spec (Z.of_nat n) 64000).
  - apply duration_below; lia.
  - apply duration_ge; lia.
Qed.

Lemma duration_lt_3 n :
  64000 <= Z.of_nat n ->
  lt (div (of_nat n) (of_Z 32000)) (of_Z 3) = (Z.of_nat n <? 96000).
Proof.
  intros Hn. unfold of_nat. destruct (Z.ltb_spec (Z.of_nat n) 96000).
  - apply duration_below; lia.
  - apply duration_ge; lia.
Qed.

End DurationFacts.

Section SpeechToTextFacts.
Import SpeechToText.

Lemma threshold_phrase_truthy len urduType :
  truthy (threshold_phrase len urduType) = true.
Proof.
  unfold threshold_phrase.
  generalize (jsstring_eqb urduType (js "roman")). intros roman.
  destruct (Z.of_nat len <? 32000); [|destruct (Z.of_nat len <? 64000);
    [|destruct (Z.of_nat len <? 96000)]];
    destruct roman; vm_compute; reflexivity.
Qed.

Lemma processAudio_threshold audioBuffer urduType :
  processAudioWithWebSpeechAPI audioBuffer urduType
  = Ok (Some (threshold_phrase (length audioBuffer) urduType)).
Proof.
  unfold processAudioWithWebSpeechAPI, threshold_phrase.
  rewrite duration_lt_1.
  destruct (Z.ltb_spec (Z.of_nat (length audioBuffer)) 32000) as [H1|H1];
    [reflexivity|].
  rewrite duration_lt_2 by assumption.
  destruct (Z.ltb_spec (Z.of_nat (length audioBuffer)) 64000) as [H2|H2];
    [reflexivity|].
  rewrite duration_lt_3 by assumption.
  destruct (Z.ltb_spec (Z.of_nat (length audioBuffer)) 96000) as [H3|H3];
    reflexivity.
Qed.

Lemma POST_with_audio file field rnd :
  let formData := {| audio := Some file; urduType_field := field |} in
  POST formData rnd =
    Ok (json (SuccessBody (threshold_phrase (length (content file)) (urduType_of formData))
                (urduType_of formData)
                (add (decimal 85 100) (mul rnd (decimal 15 100)))
                (js "web_speech_api")) 200).
Proof.
  intros formData.
  unfold POST. cbn [audio formData]. fold formData.
  rewrite processAudio_threshold. cbn [bind try_catch].
  rewrite threshold_phrase_truthy. reflexivity.
Qed.

(** C9: for every request that carries an audio file the primary path
    yields a non-empty transcript (the phrase its duration class selects:
    below 1 s, below 2 s, below 3 s of audio at 32000 bytes per second,
    otherwise), so the response is a success reporting method
    'web_speech_api' and the 'simulated' branch is never taken. *)
Theorem stt_simulated_branch_unreachable file field rnd :
  let formData := {| audio := Some file; urduType_field := field |} in
  exists t confidence,
    processAudioWithWebSpeechAPI (content file) (urduType_of formData) = Ok (Some t)
    /\ t <> []
    /\ t = threshold_phrase (length (content file)) (urduType_of formData)
    /\ POST formData rnd =
         Ok (json (SuccessBody t (urduType_of formData) confidence
                     (js "web_speech_api")) 200)
    /\ js "web_speech_api" <> js "simulated".
Proof.
  intros formData.
  exists (threshold_phrase (length (content file)) (urduType_of formData)).
  eexists. split; [apply processAudio_threshold|].
  split.
  { pose proof (threshold_phrase_truthy (length (content file)) (urduType_of formData)) as H.
    intros Heq. rewrite Heq in H. discriminate H. }
  split; [reflexivity|]. split; [apply POST_with_audio|].
  vm_compute. discriminate.
Qed.

(** The code after the primary attempt does select by buffer-length modulo:
    for the two known urduType values it answers the table entry at index
    (buffer length mod table length), with method 'simulated'. *)
Lemma simulated_fallback_modulo buffer rnd urduType :
  urduType = js "roman" \/ urduType = js "pure" ->
  exists t,
    modulo_selected buffer urduType = Some t
    /\ simulated_fallback buffer urduType rnd =
         Ok (json (SuccessBody t urduType
                     (add (decimal 7 10) (mul rnd (decimal 2 10)))
                     (js "simulated")) 200).
Proof.
  intros Hu. unfold modulo_selected, simulated_fallback.
  assert (Ht : exists table, simulatedTranscriptions urduType = Some table
                             /\ length table = 15%nat).
  { destruct Hu as [-> | ->]; eexists; (split; [vm_compute; reflexivity|reflexivity]). }
  destruct Ht as (table & -> & Hlen).
  assert (Hlt : (length buffer mod length table < length table)%nat)
    by (rewrite Hlen; apply Nat.mod_upper_bound; discriminate).
  destruct (lookup_lt_is_Some_2 table _ Hlt) as [t Hlook].
  exists t. rewrite Hlook. split; reflexivity.
Qed.

(** C1 (amended): the transcript of a request that carries an audio file is
    the phrase selected by the duration class of the buffer length; the
    buffer-length-modulo selection is what the code after the primary
    attempt computes, for the urduType values 'roman' and 'pure'. *)
Theorem stt_transcript_selection file field rnd buffer urduType :
  urduType = js "roman" \/ urduType = js "pure" ->
  let formData := {| audio := Some file; urduType_field := field |} in
  (exists confidence,
     POST formData rnd =
       Ok (json (SuccessBody
                   (threshold_phrase (length (content file)) (urduType_of formData))
                   (urduType_of formData) confidence (js "web_speech_api")) 200))
  /\ (exists t confidence,
        modulo_selected buffer urduType = Some t
        /\ simulated_fallback buffer urduType rnd =
             Ok (json (SuccessBody t urduType confidence (js "simulated")) 200)).
Proof.
  intros Hu formData. split.
  - eexists. apply POST_with_audio.
  - destruct (simulated_fallback_modulo buffer rnd urduType Hu) as (t & H1 & H2).
    exists t. eexists. split; [exact H1|exact H2].
Qed.

Lemma stt_transcript_selection_witness :
  (js "roman" = js "roman" \/ js "roman" = js "pure")
  /\ let formData := {| audio := Some {| name := js "recording.wav"; content := [] |};
                        urduType_field := Some (js "roman") |} in
     (exists confidence,
        POST formData (of_Z 0) =
          Ok (json (SuccessBody
                      (threshold_phrase (length (@nil N)) (urduType_of formData))
                      (urduType_of formData) confidence (js "web_speech_api")) 200))
     /\ (exists t confidence,
           modulo_selected [1%N; 2%N] (js "roman") = Some t
           /\ simulated_fallback [1%N; 2%N] (js "roman") (of_Z 0) =
                Ok (json (SuccessBody t (js "roman") confidence (js "simulated")) 200)).
Proof.
  split; [left; reflexivity|].
  apply (stt_transcript_selection
           {| name := js "recording.wav"; content := [] |}
           (Some (js "roman")) (of_Z 0) [1%N; 2%N] (js "roman")).
  left; reflexivity.
Defined.

(** C1 fails as stated: for an empty roman recording the handler answers
    'Hello', while the entry selected by buffer-length modulo is
    'Aap kaise hain?'. *)
Lemma stt_modulo_counterexample :
  let formData := {| audio := Some {| name := js "recording.wav"; content := [] |};
                     urduType_field := Some (js "roman") |} in
  exists t confidence,
    POST formData (of_Z 0) =
      Ok (json (SuccessBody t (js "roman") confidence (js "web_speech_api")) 200)
    /\ t = js "Hello"
    /\ modulo_selected [] (js "roman") = Some (js "Aap kaise hain?")
    /\ modulo_selected [] (js "roman") <> Some t.
Proof.
  intros formData. eexists. eexists.
  split; [vm_compute; reflexivity|].
  split; [vm_compute; reflexivity|].
  split; [vm_compute; reflexivity|].
  vm_compute. discriminate.
Qed.

End SpeechToTextFacts.

(* --------------------------------------------------------------------- *)
(** ** LanguageModel *)
(* --------------------------------------------------------------------- *)

Section LanguageModelFacts.
Import LanguageModel.

Variable toLowerCase : jsstring -> jsstring.

Lemma slice_last_length {A} k (l : list A) :
  length (slice_last k l) = Nat.min k (length l).
Proof. unfold slice_last. rewrite length_drop. lia. Qed.

Lemma slice_last_suffix {A} k (l : list A) : slice_last k l `suffix_of` l.
Proof. unfold slice_last. apply suffix_drop. Qed.

Lemma slice_last_short {A} k (l : list A) :
  (length l <= k)%nat -> slice_last k l = l.
Proof.
  intros H. unfold slice_last.
  replace (length l - k)%nat with 0%nat by lia. reflexivity.
Qed.

Lemma slice_last_app {A} k (l : list A) :
  take (length l - k) l ++ slice_last k l = l.
Proof. unfold slice_last. apply take_drop. Qed.

Lemma callChatAPI_request srv this msg :
  fst (callChatAPI srv this msg)
  = {| message := msg; conversationHistory := slice_last 6 (history this) |}.
Proof. reflexivity. Qed.

Lemma callChatAPI_reply srv this msg :
  let request := fst (callChatAPI srv this msg) in
  match snd (callChatAPI srv this msg) with
  | Ok r => api_failed (srv request) = false
            /\ exists data, srv request = FetchResolved true (Ok data)
                            /\ success data = true /\ response data = r
  | Throw _ => api_failed (srv request) = true
  end.
Proof.
  cbn [callChatAPI fst snd].
  destruct (srv _) as [e|ok payload]; cbn [try_catch api_failed]; [reflexivity|].
  destruct ok; cbn [negb orb try_catch]; [|reflexivity].
  destruct payload as [data|e]; cbn [bind try_catch]; [|reflexivity].
  destruct data as [sc er rs]. cbn [success error response].
  destruct sc; cbn [negb try_catch]; [|reflexivity].
  split; [reflexivity|]. eexists. split; [reflexivity|]. split; reflexivity.
Qed.

Lemma processUrduText_state env this input :
  let this1 := {| history := history this ++
                     [{| role := user; content := input;
                         timestamp := now_user env |}] |} in
  let o := processUrduText toLowerCase env this input in
  request_sent o = fst (callChatAPI (server env) this1 input)
  /\ match snd (callChatAPI (server env) this1 input) with
     | Ok r =>
         result o = Ok (Some r)
         /\ history (state_after o) =
              history this
              ++ [{| role := user; content := input; timestamp := now_user env |};
                  {| role := assistant; content := r;
                     timestamp := now_assistant env |}]
     | Throw _ =>
         result o = Ok (generateFallbackResponse toLowerCase input (random env))
         /\ history (state_after o) =
              history this
              ++ [{| role := user; content := input; timestamp := now_user env |}]
     end.
Proof.
  intros this1 o. unfold o, processUrduText. fold this1.
  destruct (callChatAPI (server env) this1 input) as [request reply].
  cbn [fst snd]. destruct reply as [r|e]; cbn [request_sent result state_after history].
  - split; [reflexivity|]. split; [reflexivity|].
    unfold this1. cbn [history]. rewrite <- app_assoc. reflexivity.
  - split; [reflexivity|]. split; reflexivity.
Qed.

Lemma processUrduText_appends env this input :
  exists added,
    history (state_after (processUrduText toLowerCase env this input))
    = history this ++ added
    /\ (length added = 1 \/ length added = 2)%nat.
Proof.
  pose proof (processUrduText_state env this input) as [_ H]. cbv zeta in H.
  destruct (snd (callChatAPI _ _ _)); destruct H as [_ ->]; eexists;
    (split; [reflexivity|]); cbn [length]; [right|left]; reflexivity.
Qed.

Lemma run_appends calls : forall this,
  exists added,
    history (run toLowerCase calls this) = history this ++ added
    /\ (length calls <= length added <= 2 * length calls)%nat.
Proof.
  induction calls as [|[env input] calls IH]; intros this; cbn [run].
  - exists []. rewrite app_nil_r. split; [reflexivity|]. cbn [length]. lia.
  - destruct (processUrduText_appends env this input) as (a1 & H1 & L1).
    destruct (IH (state_after (processUrduText toLowerCase env this input)))
      as (a2 & H2 & L2).
    exists (a1 ++ a2). rewrite H2, H1, app_assoc. split; [reflexivity|].
    rewrite length_app. cbn [length]. lia.
Qed.

Lemma random_element_in_range rnd arr :
  random_in_range rnd -> length arr = 3%nat ->
  exists s, random_element rnd arr = Some s /\ s ∈ arr.
Proof.
  intros (k & Hk & Hr) Hlen. unfold random_element. rewrite Hlen.
  change (of_nat 3) with (of_Z 3). rewrite Hk.
  destruct (Z.ltb_spec k 0) as [|_]; [lia|].
  assert (Hlt : (Z.to_nat k < length arr)%nat) by lia.
  destruct (lookup_lt_is_Some_2 arr _ Hlt) as [s Hs].
  exists s. split; [exact Hs|]. apply (list_elem_of_lookup_2 _ _ _ Hs).
Qed.


(** C3: the request [callChatAPI] issues carries the message and the last
    six stored messages (all of them when there are fewer), in stored
    order. *)
Theorem chat_request_trimmed_history srv this msg :
  let request := fst (callChatAPI srv this msg) in
  message request = msg
  /\ conversationHistory request = drop (length (history this) - 6) (history this)
  /\ length (conversationHistory request) = Nat.min 6 (length (history this))
  /\ take (length (history this) - 6) (history this) ++ conversationHistory request
     = history this
  /\ ((length (history this) <= 6)%nat ->
      conversationHistory request = history this).
Proof.
  cbn [callChatAPI fst message conversationHistory].
  split; [reflexivity|]. split; [reflexivity|].
  split; [apply slice_last_length|].
  split; [apply slice_last_app|]. apply slice_last_short.
Qed.

(** C2 (amended): what is bounded is the history sent with a request, at
    most six records.  The stored history is not: a call whose API request
    fails stores exactly the user's record, a call that is answered stores
    the user's record and then the assistant's, and nothing removes a
    record but [clearHistory]: every run of calls keeps what was stored as
    a prefix and adds at least one record per call, and
    [getConversationHistory] leaves the object as it is. *)
Theorem history_sent_bounded_stored_grows env this input :
  let o := processUrduText toLowerCase env this input in
  let user_record :=
    {| role := user; content := input; timestamp := now_user env |} in
  (length (conversationHistory (request_sent o)) <= 6)%nat
  /\ (api_failed (server env (request_sent o)) = true ->
      history (state_after o) = history this ++ [user_record]
      /\ length (history (state_after o)) = (length (history this) + 1)%nat)
  /\ (api_failed (server env (request_sent o)) = false ->
      exists data,
        server env (request_sent o) = FetchResolved true (Ok data)
        /\ history (state_after o)
           = history this
             ++ [user_record;
                 {| role := assistant; content := response data;
                    timestamp := now_assistant env |}]
        /\ length (history (state_after o)) = (length (history this) + 2)%nat)
  /\ (forall calls start,
        history start `prefix_of` history (run toLowerCase calls start)
        /\ (length (history start) + length calls
            <= length (history (run toLowerCase calls start)))%nat)
  /\ (forall start, snd (getConversationHistory start) = start)
  /\ (forall start, history (clearHistory start) = []).
Proof.
  intros o user_record. unfold o, user_record.
  pose proof (processUrduText_state env this input) as [Hreq H]. cbv zeta in H.
  pose proof (callChatAPI_reply (server env)
                {| history := history this ++
                     [{| role := user; content := input;
                         timestamp := now_user env |}] |} input) as Hreply.
  cbv zeta in Hreply. rewrite <- Hreq in Hreply.
  split; [|split; [|split; [|split; [|split]]]].
  - rewrite Hreq, callChatAPI_request. cbn [conversationHistory].
    rewrite slice_last_length. lia.
  - intros Hf. destruct (snd (callChatAPI _ _ _)) as [r|e].
    + destruct Hreply as [Hok _]. rewrite Hok in Hf. discriminate Hf.
    + destruct H as [_ ->]. split; [reflexivity|].
      rewrite length_app. reflexivity.
  - intros Hf. destruct (snd (callChatAPI _ _ _)) as [r|e].
    + destruct Hreply as (_ & data & Hsrv & _ & Hresp). destruct H as [_ ->].
      exists data. split; [exact Hsrv|]. rewrite Hresp.
      split; [reflexivity|]. rewrite length_app. reflexivity.
    + rewrite Hreply in Hf. discriminate Hf.
  - intros calls start.
    destruct (run_appends calls start) as (added & -> & Hlen).
    split; [apply prefix_app_r; reflexivity|]. rewrite length_app. lia.
  - reflexivity.
  - reflexivity.
Qed.

(** C6: every operation other than [clearHistory] only appends to the
    stored history, leaving the entries already stored at their positions,
    and [clearHistory] resets it to the empty array. *)
Theorem history_append_only :
  (forall env this input,
      history this `prefix_of`
        history (state_after (processUrduText toLowerCase env this input))
      /\ forall i m, history this !! i = Some m ->
           history (state_after (processUrduText toLowerCase env this input)) !! i
           = Some m)
  /\ (forall calls this,
        history this `prefix_of` history (run toLowerCase calls this))
  /\ (forall this,
        getConversationHistory this = (history this, this))
  /\ (forall this, history (clearHistory this) = []).
Proof.
  split; [|split; [|split]].
  - intros env this input.
    destruct (processUrduText_appends env this input) as (added & -> & _).
    split; [apply prefix_app_r; reflexivity|].
    intros i m Hi. apply lookup_app_l_Some. exact Hi.
  - intros calls this.
    destruct (run_appends calls this) as (added & -> & _).
    apply prefix_app_r. reflexivity.
  - reflexivity.
  - reflexivity.
Qed.



End LanguageModelFacts.

Section LanguageModelClaims.
Import LanguageModel.

(** C2 fails as stated: no bound holds for the stored history.  Every call
    adds at least one record, so [B + 1] calls exceed any bound [B]; four
    answered calls already store eight records. *)
Lemma history_unbounded_counterexample :
  (forall B : nat, exists calls,
      (B < length (history (run ascii_toLowerCase calls initial)))%nat)
  /\ length (history (run ascii_toLowerCase
                        (replicate 4 ({| server := echo_server (js "ok");
                                         now_user := 0; now_assistant := 1;
                                         random := of_Z 0 |}, js "hi"))
                        initial)) = 8%nat.
Proof.
  split.
  - intros B.
    exists (replicate (S B) ({| server := unreachable_server; now_user := 0;
                                now_assistant := 0; random := of_Z 0 |}, js "hi")).
    destruct (run_appends ascii_toLowerCase
                (replicate (S B) ({| server := unreachable_server; now_user := 0;
                                     now_assistant := 0; random := of_Z 0 |}, js "hi"))
                initial) as (added & -> & Hlen).
    rewrite length_replicate in Hlen. rewrite length_app. lia.
  - vm_compute. reflexivity.
Qed.


End LanguageModelClaims.

(* --------------------------------------------------------------------- *)
(** ** POST /api/chat *)
(* --------------------------------------------------------------------- *)

Section ChatFacts.
Import Chat.

Lemma trimStart_head s :
  match trimStart s with
  | c :: _ => is_whitespace c = false
  | [] => True
  end.
Proof.
  induction s as [|c s IH]; cbn [trimStart]; [exact I|].
  destruct (is_whitespace c) eqn:Hc; [exact IH|exact Hc].
Qed.

Lemma trimStart_suffix s : trimStart s `suffix_of` s.
Proof.
  induction s as [|c s IH]; cbn [trimStart]; [reflexivity|].
  destruct (is_whitespace c); [|reflexivity].
  apply suffix_cons_r. exact IH.
Qed.

Lemma trimStart_nil_iff s : trimStart s = [] <-> forallb is_whitespace s = true.
Proof.
  induction s as [|c s IH]; cbn [trimStart forallb]; [tauto|].
  destruct (is_whitespace c); cbn [andb]; [exact IH|].
  split; discriminate.
Qed.

Lemma trimStart_snoc l c :
  is_whitespace c = false -> exists l', trimStart (l ++ [c]) = l' ++ [c].
Proof.
  intros Hc. induction l as [|d l IH]; cbn [app trimStart].
  - rewrite Hc. exists []. reflexivity.
  - destruct (is_whitespace d).
    + exact IH.
    + exists (d :: l). reflexivity.
Qed.

Lemma trimEnd_cons c rest :
  is_whitespace c = false -> exists rest', trimEnd (c :: rest) = c :: rest'.
Proof.
  intros Hc. unfold trimEnd. cbn [rev].
  destruct (trimStart_snoc (rev rest) c Hc) as (l' & ->).
  exists (rev l'). rewrite rev_app_distr. reflexivity.
Qed.

Lemma forallb_rev {A} (f : A -> bool) l : forallb f (rev l) = forallb f l.
Proof.
  induction l as [|a l IH]; [reflexivity|].
  cbn [rev forallb]. rewrite forallb_app, IH. cbn [forallb].
  rewrite andb_true_r. apply andb_comm.
Qed.

Lemma trimEnd_nil_iff s : trimEnd s = [] <-> forallb is_whitespace s = true.
Proof.
  unfold trimEnd. rewrite <- (forallb_rev is_whitespace s), <- trimStart_nil_iff.
  split.
  - intros H. apply (f_equal (@rev N)) in H. rewrite rev_involutive in H. exact H.
  - intros ->. reflexivity.
Qed.

Lemma last_rev_head {A} (l : list A) : last (rev l) = head l.
Proof. destruct l as [|a l]; [reflexivity|]. cbn [rev]. apply last_snoc. Qed.

(** [trim] leaves no white space at either end. *)
Lemma trim_ends s :
  match head (trim s) with Some c => is_whitespace c = false | None => True end
  /\ match last (trim s) with Some c => is_whitespace c = false | None => True end.
Proof.
  unfold trim. split.
  - pose proof (trimStart_head s) as H.
    destruct (trimStart s) as [|c rest]; [exact I|].
    destruct (trimEnd_cons c rest H) as (rest' & ->). exact H.
  - unfold trimEnd. rewrite last_rev_head.
    pose proof (trimStart_head (rev (trimStart s))) as H.
    destruct (trimStart (rev (trimStart s))); [exact I|exact H].
Qed.

(** [trim] yields the empty string exactly on strings of white space. *)
Lemma trim_nil_iff s : trim s = [] <-> forallb is_whitespace s = true.
Proof.
  unfold trim. rewrite trimEnd_nil_iff. split.
  - intros H. induction s as [|c s IH]; [reflexivity|].
    cbn [trimStart forallb] in *. destruct (is_whitespace c) eqn:Hc; cbn [andb].
    + apply IH. exact H.
    + cbn [forallb] in H. rewrite Hc in H. discriminate H.
  - intros H. apply trimStart_nil_iff in H. rewrite H. reflexivity.
Qed.

Lemma trim_apology : trim apology = apology.
Proof. vm_compute. reflexivity. Qed.

(** C10: the handler falls back to the apology only when the content is
    missing or empty, and trims afterwards: a completion whose content is a
    single space yields a success response whose [response] is the empty
    string. *)
Theorem chat_blank_completion_gives_empty_response :
  let req := {| message := Some (js "hi"); conversationHistory := None |} in
  POST (sdk_answering (Some (js " "))) req = Ok (json (Success []) 200)
  /\ POST (sdk_answering (Some [])) req = Ok (json (Success apology) 200)
  /\ POST (sdk_answering None) req = Ok (json (Success apology) 200).
Proof.
  split; [|split]; vm_compute; reflexivity.
Qed.

End ChatFacts.

(* --------------------------------------------------------------------- *)
(** ** Recognition restarts and teardown *)
(* --------------------------------------------------------------------- *)

Section RestartFacts.







End RestartFacts.

Section CleanupFacts.

(** C8 (amended): after [cleanup] the media stream, audio context, analyser
    and recognition (or processor and socket) references are null, the
    listening or recording flag is false, and a held animation frame or
    processing interval has been cancelled.  A pending restart timer of
    AudioProcessor is not cancelled; when it fires after [cleanup] it does
    not start recognition. *)
Theorem cleanup_tears_down (ap : AudioProcessor.State) (rt : RealTimeAudio.State) :
  let ap' := fst (AudioProcessor.cleanup ap) in
  let out := snd (AudioProcessor.cleanup ap) in
  let rt' := fst (RealTimeAudio.cleanup rt) in
  let out' := snd (RealTimeAudio.cleanup rt) in
  (AudioProcessor.mediaStream ap' = None
   /\ AudioProcessor.audioContext ap' = None
   /\ AudioProcessor.analyser ap' = None
   /\ AudioProcessor.recognition ap' = None
   /\ AudioProcessor.isListening ap' = false
   /\ AudioProcessor.currentUtterance ap' = None)
  /\ (forall id, AudioProcessor.animationId ap = Some id -> id <> 0 ->
        AudioProcessor.animationId ap' = None /\ In (CancelAnimationFrame id) out)
  /\ (AudioProcessor.pendingRestarts ap' = AudioProcessor.pendingRestarts ap
      /\ existsb is_clear_timeout out = false
      /\ snd (AudioProcessor.restart_callback ap') = [])
  /\ (RealTimeAudio.mediaStream rt' = None
      /\ RealTimeAudio.audioContext rt' = None
      /\ RealTimeAudio.processor rt' = None
      /\ RealTimeAudio.ws rt' = None
      /\ RealTimeAudio.isRecording rt' = false)
  /\ (forall id, RealTimeAudio.processingInterval rt = Some id -> id <> 0 ->
        RealTimeAudio.processingInterval rt' = None /\ In (ClearInterval id) out').
Proof.
  destruct ap as [ac ms an ai il rc hs ss cu pr].
  destruct rt as [w ac' ms' pc ir pi].
  cbv zeta.
  split; [|split; [|split; [|split]]].
  - unfold AudioProcessor.cleanup, AudioProcessor.stopListening,
      AudioProcessor.stopAudioMonitoring, AudioProcessor.stopSpeaking.
    cbn. destruct ai as [id|]; [destruct (id =? 0)|]; cbn; repeat split; reflexivity.
  - intros id Hid Hne. cbn [AudioProcessor.animationId] in Hid. subst ai.
    unfold AudioProcessor.cleanup, AudioProcessor.stopListening,
      AudioProcessor.stopAudioMonitoring, AudioProcessor.stopSpeaking.
    cbn. destruct (Z.eqb_spec id 0) as [|_]; [contradiction|]. cbn.
    split; [reflexivity|]. apply in_or_app. left. apply in_or_app. right.
    left. reflexivity.
  - unfold AudioProcessor.cleanup, AudioProcessor.stopListening,
      AudioProcessor.stopAudioMonitoring, AudioProcessor.stopSpeaking,
      AudioProcessor.restart_callback.
    cbn. destruct ai as [id|]; [destruct (id =? 0)|]; cbn;
      destruct rc, hs, ss, ms, ac; cbn; repeat split; reflexivity.
  - cbn. repeat split; reflexivity.
  - intros id Hid Hne. cbn [RealTimeAudio.processingInterval] in Hid. subst pi.
    unfold RealTimeAudio.cleanup, RealTimeAudio.truthy_handle. cbn.
    destruct (Z.eqb_spec id 0) as [|_]; [contradiction|]. cbn.
    split; [reflexivity|]. left. reflexivity.
Qed.

(** C8 fails as stated: a restart timer scheduled by a no-speech error is
    still pending after [cleanup], which cancels no timeout. *)
Lemma cleanup_leaves_restart_timer_counterexample :
  let st1 := fst (AudioProcessor.onerror AudioProcessor.listening (js "no-speech")) in
  let st2 := fst (AudioProcessor.cleanup st1) in
  let out := snd (AudioProcessor.cleanup st1) in
  AudioProcessor.pendingRestarts st1 = 1%nat
  /\ AudioProcessor.pendingRestarts st2 = 1%nat
  /\ existsb is_clear_timeout out = false
  /\ out = [RecognitionStop; CancelAnimationFrame 7; ReportAudioLevel 0;
            StopTracks; CloseAudioContext].
Proof.
  split; [|split; [|split]]; vm_compute; reflexivity.
Qed.

End CleanupFacts.

(* --------------------------------------------------------------------- *)
(** ** Base64 *)
(* --------------------------------------------------------------------- *)

Section Base64Facts.
Import Base64.

Lemma below_64_cases (p : N -> bool) :
  forallb p (map N.of_nat (seq 0 64)) = true ->
  forall i, (i < 64)%N -> p i = true.
Proof.
  intros H i Hi. rewrite forallb_forall in H. apply H.
  apply in_map_iff. exists (N.to_nat i). split; [apply N2Nat.id|].
  apply in_seq. lia.
Qed.

Lemma index_of_char_of i :
  (i < 64)%N -> index_of (char_of i) = Some i /\ (char_of i =? pad)%N = false.
Proof.
  intros Hi.
  pose proof (below_64_cases
                (fun i => match index_of (char_of i) with
                          | Some j => (j =? i)%N
                          | None => false
                          end && negb (char_of i =? pad)%N)
                ltac:(vm_compute; reflexivity) i Hi) as H.
  cbv beta in H. apply andb_true_iff in H as [H1 H2].
  destruct (index_of (char_of i)) as [j|]; [|discriminate H1].
  apply N.eqb_eq in H1. subst j. split; [reflexivity|].
  apply negb_true_iff. exact H2.
Qed.

Lemma char_of_byte i : (i < 64)%N -> (char_of i < 256)%N.
Proof.
  intros Hi. apply N.ltb_lt.
  exact (below_64_cases (fun i => (char_of i <? 256)%N)
           ltac:(vm_compute; reflexivity) i Hi).
Qed.

(** Linear arithmetic with quotients and remainders by constants. *)
Ltac divlia := zify; Z.to_euclidean_division_equations; lia.

Lemma decode_encode_1 a :
  (a < 256)%N -> decode (encode [a]) = Some [a].
Proof.
  intros Ha. cbn [encode decode].
  destruct (index_of_char_of (a / 4)) as [-> _]; [divlia|].
  destruct (index_of_char_of ((a mod 4) * 16)) as [-> _]; [divlia|].
  change ((pad =? pad)%N) with true. cbn [andb].
  do 2 f_equal. divlia.
Qed.

Lemma decode_encode_2 a b :
  (a < 256)%N -> (b < 256)%N -> decode (encode [a; b]) = Some [a; b].
Proof.
  intros Ha Hb. cbn [encode decode].
  destruct (index_of_char_of (a / 4)) as [-> _]; [divlia|].
  destruct (index_of_char_of ((a mod 4) * 16 + b / 16)) as [-> _]; [divlia|].
  destruct (index_of_char_of ((b mod 16) * 4)) as [-> ->]; [divlia|].
  cbn [andb]. change ((pad =? pad)%N) with true. cbv iota.
  f_equal. f_equal; [divlia|]. f_equal. divlia.
Qed.

Lemma decode_encode_3 a b c rest :
  (a < 256)%N -> (b < 256)%N -> (c < 256)%N ->
  decode (encode (a :: b :: c :: rest)) =
    match decode (encode rest) with
    | Some tail => Some (a :: b :: c :: tail)
    | None => None
    end.
Proof.
  intros Ha Hb Hc. cbn [encode decode app].
  destruct (index_of_char_of (a / 4)) as [-> _]; [divlia|].
  destruct (index_of_char_of ((a mod 4) * 16 + b / 16)) as [-> _]; [divlia|].
  destruct (index_of_char_of ((b mod 16) * 4 + c / 64)) as [-> ->]; [divlia|].
  destruct (index_of_char_of (c mod 64)) as [-> ->]; [divlia|].
  cbn [andb]. destruct (decode (encode rest)); [|reflexivity].
  f_equal. f_equal; [divlia|]. f_equal; [divlia|]. f_equal. divlia.
Qed.

(** Decoding undoes encoding on byte strings. *)
Lemma decode_encode_fuel n : forall bytes,
  (length bytes <= n)%nat ->
  Forall (fun b => (b < 256)%N) bytes ->
  decode (encode bytes) = Some bytes.
Proof.
  induction n as [n IH] using lt_wf_ind. intros bytes Hn Hb.
  destruct bytes as [|a [|b [|c rest]]].
  - reflexivity.
  - apply decode_encode_1. inversion Hb; assumption.
  - inversion Hb as [|? ? Ha Hb']. inversion Hb'. subst.
    apply decode_encode_2; assumption.
  - inversion Hb as [|? ? Ha Hb1]. inversion Hb1 as [|? ? Hb2 Hb3].
    inversion Hb3 as [|? ? Hc Hrest]. subst.
    rewrite decode_encode_3 by assumption.
    rewrite (IH (length rest)); [reflexivity| |lia|assumption].
    cbn [length] in Hn. lia.
Qed.

Lemma decode_encode bytes :
  Forall (fun b => (b < 256)%N) bytes -> decode (encode bytes) = Some bytes.
Proof. apply (decode_encode_fuel (length bytes)). lia. Qed.

Lemma btoa_bytes bytes :
  Forall (fun b => (b < 256)%N) bytes -> btoa bytes = Ok (encode bytes).
Proof.
  intros H. unfold btoa.
  replace (forallb (fun c => (c <? 256)%N) bytes) with true; [reflexivity|].
  symmetry. apply forallb_forall. intros x Hx.
  rewrite Forall_forall in H. apply N.ltb_lt. apply H. apply list_elem_of_In. exact Hx.
Qed.

End Base64Facts.

(* --------------------------------------------------------------------- *)
(** ** POST /api/text-to-speech *)
(* --------------------------------------------------------------------- *)

Section DataViewFacts.
Import TextToSpeech.

Lemma le_bytes_length n v : length (le_bytes n v) = n.
Proof. revert v. induction n as [|n IH]; intros v; cbn [le_bytes length]; [|rewrite IH]; reflexivity. Qed.

Lemma le_bytes_byte n v : Forall (fun b => (b < 256)%N) (le_bytes n v).
Proof.
  revert v. induction n as [|n IH]; intros v; cbn [le_bytes]; constructor; [|apply IH].
  pose proof (Z.mod_pos_bound v 256 ltac:(lia)). lia.
Qed.

(** Reading back the little-endian bytes gives the value modulo 256^n. *)
Lemma le_bytes_value n v :
  fold_right (fun b acc => Z.of_N b + 256 * acc) 0 (le_bytes n v)
  = v mod 256 ^ Z.of_nat n.
Proof.
  revert v. induction n as [|n IH]; intros v.
  - cbn. symmetry. apply Z.mod_1_r.
  - cbn [le_bytes fold_right]. rewrite IH.
    rewrite Z2N.id by (apply Z.mod_pos_bound; lia).
    rewrite Nat2Z.inj_succ, Z.pow_succ_r by lia.
    rewrite Z.rem_mul_r by lia. reflexivity.
Qed.

Lemma write_bytes_next pre vs rest offset :
  offset = length pre -> (length vs <= length rest)%nat ->
  write_bytes offset vs (pre ++ rest)
  = Ok ((pre ++ vs) ++ drop (length vs) rest).
Proof.
  intros -> Hlen. unfold write_bytes.
  rewrite length_app.
  destruct (Nat.leb_spec (length pre + length vs) (length pre + length rest)); [|lia].
  rewrite take_app_length, drop_app_add', <- app_assoc; reflexivity.
Qed.

Lemma writeString_next s : forall pre rest offset,
  offset = length pre -> (length s <= length rest)%nat ->
  writeString offset s (pre ++ rest)
  = Ok ((pre ++ map (fun c => Z.to_N (Z.of_N c mod 256)) s) ++ drop (length s) rest).
Proof.
  induction s as [|c s IH]; intros pre rest offset Ho Hlen.
  - cbn [writeString map length drop]. rewrite app_nil_r. reflexivity.
  - cbn [writeString length] in *. unfold setUint8.
    rewrite (write_bytes_next pre _ rest offset Ho) by (cbn [le_bytes length]; lia).
    cbn [bind le_bytes length].
    rewrite (IH (pre ++ [Z.to_N (Z.of_N c mod 256)]) (drop 1 rest) (S offset)).
    + rewrite drop_drop. cbn [map].
      replace (1 + length s)%nat with (S (length s)) by lia.
      rewrite <- !app_assoc. reflexivity.
    + rewrite length_app. cbn [length]. lia.
    + rewrite length_drop. lia.
Qed.

Lemma write_samples_next pcm count : forall i pre rest offset,
  offset = length pre -> (2 * count <= length rest)%nat ->
  write_samples pcm count i offset (pre ++ rest)
  = Ok ((pre ++ pcm_bytes pcm count i) ++ drop (2 * count) rest).
Proof.
  induction count as [|count IH]; intros i pre rest offset Ho Hlen.
  - cbn [write_samples]. unfold pcm_bytes. cbn [seq flat_map].
    rewrite app_nil_r. reflexivity.
  - cbn [write_samples]. unfold setInt16.
    rewrite (write_bytes_next pre _ rest offset Ho) by (rewrite le_bytes_length; lia).
    cbn [bind]. rewrite le_bytes_length.
    rewrite (IH (S i) (pre ++ le_bytes 2 (pcm i)) (drop 2 rest) (offset + 2)%nat).
    + rewrite drop_drop. unfold pcm_bytes. cbn [seq flat_map].
      replace (2 * S count)%nat with (2 + 2 * count)%nat by lia.
      rewrite <- !app_assoc. reflexivity.
    + rewrite length_app, le_bytes_length. lia.
    + rewrite length_drop. lia.
Qed.

Lemma pcm_bytes_length pcm count i : length (pcm_bytes pcm count i) = (2 * count)%nat.
Proof.
  unfold pcm_bytes. revert i. induction count as [|count IH]; intros i; [reflexivity|].
  cbn [seq flat_map]. rewrite length_app, le_bytes_length, IH. lia.
Qed.

Lemma pcm_bytes_byte pcm count i : Forall (fun b => (b < 256)%N) (pcm_bytes pcm count i).
Proof.
  unfold pcm_bytes. revert i. induction count as [|count IH]; intros i; [constructor|].
  cbn [seq flat_map]. apply Forall_app. split; [apply le_bytes_byte|apply IH].
Qed.

End DataViewFacts.
Section HeaderFacts.
Import TextToSpeech.

Lemma literal_bytes :
  map (fun c => Z.to_N (Z.of_N c mod 256)) (js "RIFF") = js "RIFF"
  /\ map (fun c => Z.to_N (Z.of_N c mod 256)) (js "WAVE") = js "WAVE"
  /\ map (fun c => Z.to_N (Z.of_N c mod 256)) (js "fmt ") = js "fmt "
  /\ map (fun c => Z.to_N (Z.of_N c mod 256)) (js "data") = js "data".
Proof. repeat split; vm_compute; reflexivity. Qed.

Lemma literal_lengths :
  length (js "RIFF") = 4%nat /\ length (js "WAVE") = 4%nat
  /\ length (js "fmt ") = 4%nat /\ length (js "data") = 4%nat.
Proof. repeat split; vm_compute; reflexivity. Qed.

Ltac lit_len :=
  repeat match goal with H : length (js _) = _ |- _ => rewrite H end.

Ltac header_step :=
  first [ rewrite writeString_next | rewrite write_bytes_next ];
  [ | rewrite ?length_app, ?le_bytes_length, ?length_map; lit_len; reflexivity
    | rewrite ?length_drop, ?le_bytes_length; lit_len; lia ];
  cbn [bind]; rewrite ?le_bytes_length, ?drop_drop; lit_len; cbn [Nat.add].

Lemma write_header_ok samples buf :
  (44 <= length buf)%nat ->
  write_header samples buf = Ok (header_bytes samples ++ drop 44 buf).
Proof.
  intros Hlen. unfold write_header, setUint32, setUint16.
  destruct literal_lengths as (L1 & L2 & L3 & L4).
  change buf with ([] ++ buf) at 1.
  do 13 header_step.
  destruct literal_bytes as (-> & -> & -> & ->).
  unfold header_bytes. rewrite <- !app_assoc. reflexivity.
Qed.
Lemma header_bytes_explicit samples :
  header_bytes samples =
    [82; 73; 70; 70]%N ++ le_bytes 4 (36 + samples * 2)
    ++ [87; 65; 86; 69; 102; 109; 116; 32; 16; 0; 0; 0; 1; 0; 1; 0;
        34; 86; 0; 0; 68; 172; 0; 0; 2; 0; 16; 0; 100; 97; 116; 97]%N
    ++ le_bytes 4 (samples * 2).
Proof.
  unfold header_bytes.
  change (js "RIFF") with [82; 73; 70; 70]%N.
  change (js "WAVE") with [87; 65; 86; 69]%N.
  change (js "fmt ") with [102; 109; 116; 32]%N.
  change (js "data") with [100; 97; 116; 97]%N.
  change (le_bytes 4 16) with [16; 0; 0; 0]%N.
  change (le_bytes 2 1) with [1; 0]%N.
  change (le_bytes 4 sampleRate) with [34; 86; 0; 0]%N.
  change (le_bytes 4 (sampleRate * 2)) with [68; 172; 0; 0]%N.
  change (le_bytes 2 2) with [2; 0]%N.
  change (le_bytes 2 16) with [16; 0]%N.
  reflexivity.
Qed.

Lemma header_bytes_length samples : length (header_bytes samples) = 44%nat.
Proof.
  rewrite header_bytes_explicit, !length_app, !le_bytes_length. reflexivity.
Qed.

Lemma header_bytes_byte samples :
  Forall (fun b => (b < 256)%N) (header_bytes samples).
Proof.
  rewrite header_bytes_explicit.
  repeat (apply Forall_app; split); try apply le_bytes_byte;
    repeat constructor.
Qed.

Lemma getUint_le_bytes n v pre rest offset :
  offset = length pre ->
  getUint n offset (pre ++ le_bytes n v ++ rest) = v mod 256 ^ Z.of_nat n.
Proof.
  intros ->. unfold getUint.
  rewrite drop_app_length.
  rewrite take_app_length' by (symmetry; apply le_bytes_length).
  apply le_bytes_value.
Qed.

(** What a reader of the 44-byte header finds. *)
Lemma header_fields samples rest :
  0 <= samples -> 36 + samples * 2 < 2 ^ 32 ->
  let wav := header_bytes samples ++ rest in
  take 4 wav = js "RIFF"
  /\ getUint32 4 wav = 36 + samples * 2
  /\ take 4 (drop 8 wav) = js "WAVE"
  /\ getUint16 20 wav = 1
  /\ getUint16 22 wav = 1
  /\ getUint32 24 wav = 22050
  /\ getUint16 34 wav = 16
  /\ getUint32 40 wav = samples * 2.
Proof.
  intros H0 H1 wav. unfold wav. rewrite header_bytes_explicit.
  assert (Hl : length (le_bytes 4 (36 + samples * 2)) = 4%nat) by apply le_bytes_length.
  destruct (le_bytes 4 (36 + samples * 2)) as [|b0 [|b1 [|b2 [|b3 [|]]]]] eqn:Hb;
    try discriminate Hl.
  assert (Hv := le_bytes_value 4 (36 + samples * 2)). rewrite Hb in Hv.
  change (256 ^ Z.of_nat 4) with (2 ^ 32) in Hv.
  rewrite Z.mod_small in Hv by lia.
  assert (Hf := getUint_le_bytes 4 (samples * 2)
             ([82; 73; 70; 70; b0; b1; b2; b3; 87; 65; 86; 69; 102; 109; 116; 32;
               16; 0; 0; 0; 1; 0; 1; 0; 34; 86; 0; 0; 68; 172; 0; 0; 2; 0;
               16; 0; 100; 97; 116; 97]%N) rest 40 eq_refl).
  change (256 ^ Z.of_nat 4) with (2 ^ 32) in Hf.
  rewrite Z.mod_small in Hf by lia.
  rewrite <- !app_assoc. cbn [app] in Hf |- *.
  split; [vm_compute; reflexivity|].
  split; [exact Hv|].
  split; [vm_compute; reflexivity|].
  split; [reflexivity|]. split; [reflexivity|]. split; [reflexivity|].
  split; [reflexivity|].
  exact Hf.
Qed.

Lemma synthesize_ok perChar maxDuration pcm text samples :
  sample_count perChar maxDuration (length text) = Some samples ->
  0 <= samples ->
  synthesize perChar maxDuration pcm text
  = Ok (Base64.encode (header_bytes samples ++ pcm_bytes pcm (Z.to_nat samples) 0)).
Proof.
  intros Hs H0. unfold synthesize. rewrite Hs.
  destruct (Z.ltb_spec samples 0) as [|_]; [lia|].
  set (buffer := replicate (Z.to_nat (44 + samples * 2)) 0%N).
  assert (Hlen : length buffer = (44 + 2 * Z.to_nat samples)%nat).
  { unfold buffer. rewrite length_replicate. lia. }
  rewrite write_header_ok by lia. cbn [bind].
  rewrite (write_samples_next pcm (Z.to_nat samples) 0 (header_bytes samples)
             (drop 44 buffer) 44)
    by (rewrite ?header_bytes_length, ?length_drop; lia).
  cbn [bind].
  rewrite (drop_ge (drop 44 buffer)) by (rewrite length_drop; lia).
  rewrite app_nil_r.
  apply btoa_bytes. apply Forall_app. split.
  - apply header_bytes_byte.
  - apply pcm_bytes_byte.
Qed.

End HeaderFacts.

Section SampleCountFacts.
Import TextToSpeech.

Lemma Math_min_at_least x c mc ec :
  at_least x c ->
  Z.pos (digits2_pos mc) = 53 -> ec <= 0 -> Z.pos mc = c * 2 ^ (- ec) ->
  Math_min x (S754_finite false mc ec) = S754_finite false mc ec.
Proof.
  intros Hx Hd He Hm.
  destruct (at_least_compare x c mc ec Hx Hd He Hm) as [Hgt| ->]; unfold Math_min.
  - rewrite Hgt. reflexivity.
  - cbn [SFcompare]. rewrite Z.compare_refl, Pos.compare_cont_refl. reflexivity.
Qed.

Lemma stated_samples_long len : (43 <= len)%nat -> stated_samples len = 66150.
Proof.
  intros H. unfold stated_samples.
  replace (Qle_bool ((7 # 100) * inject_Z (Z.of_nat len)) 3) with false; [reflexivity|].
  symmetry. unfold Qle_bool, Qmult, inject_Z. cbn [Qnum Qden].
  apply Z.leb_gt. lia.
Qed.

Lemma sample_count_short_cases :
  forallb (fun n =>
             match sample_count (decimal 7 100) 3 n with
             | Some z => (z =? stated_samples n) && (0 <=? z) && (z <=? 66150)
             | None => false
             end) (seq 0 43) = true.
Proof. vm_compute. reflexivity. Qed.

(** The number of samples, computed on doubles, is the stated
    floor (22050 * min (0.07 * length, 3)), and at most 66150. *)
Lemma sample_count_primary len :
  sample_count (decimal 7 100) 3 len = Some (stated_samples len)
  /\ 0 <= stated_samples len <= 66150.
Proof.
  destruct (Nat.lt_ge_cases len 43) as [Hlt|Hge].
  - pose proof sample_count_short_cases as H. rewrite forallb_forall in H.
    specialize (H len ltac:(apply in_seq; lia)).
    destruct (sample_count (decimal 7 100) 3 len) as [z|]; [|discriminate H].
    apply andb_true_iff in H as [H H3]. apply andb_true_iff in H as [H1 H2].
    apply Z.eqb_eq in H1. subst z. split; [reflexivity|]. lia.
  - rewrite (stated_samples_long len Hge). split; [|lia].
    unfold sample_count.
    assert (Hx : at_least (of_nat len) 43).
    { apply of_Z_at_least; [change (2 ^ 53) with 9007199254740992; lia | lia]. }
    assert (Hm : at_least (mul (of_nat len) (decimal 7 100)) 3).
    { change (decimal 7 100) with (S754_finite false 5044031582654956 (-56)).
      apply (mul_at_least _ 43); try assumption; try reflexivity;
        change (2 ^ 53) with 9007199254740992;
        change (2 ^ (- -56)) with 72057594037927936; lia. }
    change (of_Z 3) with (S754_finite false 6755399441055744 (-51)).
    rewrite (Math_min_at_least _ 3 _ _ Hm); [|reflexivity|lia|reflexivity].
    vm_compute. reflexivity.
Qed.

End SampleCountFacts.

Section TextToSpeechFacts.
Import TextToSpeech.

Lemma generateAudio_ok pcm txt urduText :
  generateAudioWithWebSpeechAPI pcm txt urduText
  = Ok (Base64.encode
          (header_bytes (stated_samples (length txt))
           ++ pcm_bytes pcm (Z.to_nat (stated_samples (length txt))) 0)).
Proof.
  unfold generateAudioWithWebSpeechAPI.
  destruct (sample_count_primary (length txt)) as [Hs Hb].
  rewrite (synthesize_ok _ _ pcm txt _ Hs) by lia. reflexivity.
Qed.

Lemma POST_nonempty_text env txt ut :
  txt <> [] ->
  POST env {| text := Some txt; urduType := ut |} =
    Ok (json (SuccessBody (audioUrl_of env)
                (Base64.encode
                   (header_bytes (stated_samples (length txt))
                    ++ pcm_bytes (pcm_primary env)
                         (Z.to_nat (stated_samples (length txt))) 0))
                txt
                (if jsstring_eqb (match ut with Some u => u | None => js "roman" end)
                      (js "roman")
                 then convertRomanToUrdu txt else txt)
                (js "web_speech_api")) 200).
Proof.
  intros Hne. unfold POST. cbn [text urduType].
  destruct txt as [|c txt]; [contradiction|]. cbn [truthy negb].
  rewrite generateAudio_ok. reflexivity.
Qed.

(** C4: for a non-empty text the response is a success whose audioBase64
    decodes to 44 + 2n bytes, n = floor (22050 * min (0.07 * length, 3)),
    beginning with a header that declares RIFF/WAVE, PCM format 1, one
    channel, 22050 Hz, 16 bits per sample, RIFF size 36 + 2n and data size
    2n. *)
Theorem tts_wav_response env txt ut :
  txt <> [] ->
  exists audioBase64 urduText wav,
    POST env {| text := Some txt; urduType := ut |} =
      Ok (json (SuccessBody (audioUrl_of env) audioBase64 txt urduText
                  (js "web_speech_api")) 200)
    /\ Base64.decode audioBase64 = Some wav
    /\ let n := stated_samples (length txt) in
       Z.of_nat (length wav) = 44 + 2 * n
       /\ take 4 wav = js "RIFF"
       /\ take 4 (drop 8 wav) = js "WAVE"
       /\ getUint16 20 wav = 1
       /\ getUint16 22 wav = 1
       /\ getUint32 24 wav = 22050
       /\ getUint16 34 wav = 16
       /\ getUint32 4 wav = 36 + 2 * n
       /\ getUint32 40 wav = 2 * n.
Proof.
  intros Hne.
  destruct (sample_count_primary (length txt)) as [_ Hb].
  set (n := stated_samples (length txt)) in *.
  exists (Base64.encode (header_bytes n ++ pcm_bytes (pcm_primary env) (Z.to_nat n) 0)).
  eexists. exists (header_bytes n ++ pcm_bytes (pcm_primary env) (Z.to_nat n) 0).
  split; [apply (POST_nonempty_text env txt ut Hne)|].
  split.
  { apply decode_encode. apply Forall_app. split;
      [apply header_bytes_byte|apply pcm_bytes_byte]. }
  cbv zeta.
  destruct (header_fields n (pcm_bytes (pcm_primary env) (Z.to_nat n) 0))
    as (F1 & F2 & F3 & F4 & F5 & F6 & F7 & F8);
    [lia | change (2 ^ 32) with 4294967296; lia |].
  split.
  { rewrite length_app, header_bytes_length, pcm_bytes_length. lia. }
  split; [exact F1|]. split; [exact F3|]. split; [exact F4|].
  split; [exact F5|]. split; [exact F6|]. split; [exact F7|].
  split; [rewrite F2; lia|rewrite F8; lia].
Qed.

End TextToSpeechFacts.

Section TextToSpeechWitness.
Import TextToSpeech.

Lemma tts_wav_response_witness :
  let env := {| now := js "1700000000000"; pcm_primary := fun i => Z.of_nat i - 70000;
                pcm_fallback := fun _ => 0 |} in
  js "a" <> []
  /\ exists audioBase64 urduText wav,
       POST env {| text := Some (js "a"); urduType := None |} =
         Ok (json (SuccessBody (audioUrl_of env) audioBase64 (js "a") urduText
                     (js "web_speech_api")) 200)
       /\ Base64.decode audioBase64 = Some wav
       /\ let n := stated_samples (length (js "a")) in
          Z.of_nat (length wav) = 44 + 2 * n
          /\ take 4 wav = js "RIFF"
          /\ take 4 (drop 8 wav) = js "WAVE"
          /\ getUint16 20 wav = 1
          /\ getUint16 22 wav = 1
          /\ getUint32 24 wav = 22050
          /\ getUint16 34 wav = 16
          /\ getUint32 4 wav = 36 + 2 * n
          /\ getUint32 40 wav = 2 * n.
Proof.
  intros env.
  assert (Hne : js "a" <> []) by (vm_compute; discriminate).
  split; [exact Hne|].
  exact (tts_wav_response env (js "a") None Hne).
Defined.

End TextToSpeechWitness.

(* ===================================================================== *)
(** * Further properties *)
(* ===================================================================== *)

(* --------------------------------------------------------------------- *)
(** ** POST /api/speech-to-text: validation, defaults, thresholds *)
(* --------------------------------------------------------------------- *)

Section SpeechToTextMore.
Import SpeechToText.

Lemma stt_route_on_form file field rnd :
  SpeechToTextRoute.POST (SpeechToTextRoute.Form (SpeechToTextRoute.AudioFile file) field) rnd
  = POST {| audio := Some file; urduType_field := field |} rnd.
Proof.
  unfold SpeechToTextRoute.POST. rewrite POST_with_audio. reflexivity.
Qed.

(** X1: The route always answers, and the status is decided by the audio
    field alone.  It is 400 with 'No audio file provided' exactly when the
    field is missing or an empty text value; 500 with 'Failed to process
    speech-to-text' exactly when the form data cannot be read or the field
    is a non-empty text value (which has no [arrayBuffer]); and 200 with a
    transcript and method 'web_speech_api' exactly when it is a file. *)
Theorem stt_status_by_audio_presence (request : SpeechToTextRoute.Request) rnd :
  exists response,
    SpeechToTextRoute.POST request rnd = Ok response
    /\ (status response = 400 <->
        exists field,
          request = SpeechToTextRoute.Form SpeechToTextRoute.AudioMissing field
          \/ request = SpeechToTextRoute.Form (SpeechToTextRoute.AudioText []) field)
    /\ (status response = 500 <->
        (exists e, request = SpeechToTextRoute.FormDataRejected e)
        \/ exists value field,
             value <> []
             /\ request = SpeechToTextRoute.Form (SpeechToTextRoute.AudioText value) field)
    /\ (status response = 200 <->
        exists file field,
          request = SpeechToTextRoute.Form (SpeechToTextRoute.AudioFile file) field)
    /\ (status response = 400 ->
        body response = ErrorBody (js "No audio file provided"))
    /\ (status response = 500 ->
        body response = ErrorBody (js "Failed to process speech-to-text"))
    /\ (status response = 200 ->
        exists text urduType confidence,
          body response = SuccessBody text urduType confidence (js "web_speech_api")).
Proof.
  destruct request as [e|[|value|file] field].
  - (* the form data cannot be read *)
    eexists. split; [reflexivity|]. cbn [status body json].
    split; [split; [discriminate|intros [f [H|H]]; discriminate H]|].
    split; [split; [intros _; left; exists e; reflexivity|reflexivity]|].
    split; [split; [discriminate|intros (f & g & H); discriminate H]|].
    split; [discriminate|]. split; [reflexivity|discriminate].
  - (* no audio field *)
    eexists. split; [reflexivity|]. cbn [status body json].
    split; [split; [intros _; exists field; left; reflexivity|reflexivity]|].
    split; [split; [discriminate|
                    intros [[e H]|(v & f & _ & H)]; discriminate H]|].
    split; [split; [discriminate|intros (f & g & H); discriminate H]|].
    split; [reflexivity|]. split; discriminate.
  - destruct value as [|c value].
    + (* an empty text value *)
      eexists. split; [reflexivity|]. cbn [status body json].
      split; [split; [intros _; exists field; right; reflexivity|reflexivity]|].
      split; [split; [discriminate|
                      intros [[e H]|(v & f & Hv & H)];
                      [discriminate H|injection H as <- _; contradiction]]|].
      split; [split; [discriminate|intros (f & g & H); discriminate H]|].
      split; [reflexivity|]. split; discriminate.
    + (* a non-empty text value *)
      eexists. split; [reflexivity|]. cbn [status body json].
      split; [split; [discriminate|intros [f [H|H]]; discriminate H]|].
      split; [split; [intros _; right; exists (c :: value), field;
                      split; [discriminate|reflexivity]|reflexivity]|].
      split; [split; [discriminate|intros (f & g & H); discriminate H]|].
      split; [discriminate|]. split; [reflexivity|discriminate].
  - (* a file *)
    eexists. split; [rewrite stt_route_on_form; apply POST_with_audio|].
    cbn [status body json].
    split; [split; [discriminate|intros [f [H|H]]; discriminate H]|].
    split; [split; [discriminate|
                    intros [[e H]|(v & f & _ & H)]; discriminate H]|].
    split; [split; [intros _; exists file, field; reflexivity|reflexivity]|].
    split; [discriminate|]. split; [discriminate|].
    intros _. do 3 eexists. reflexivity.
Qed.

(** X2: A missing or empty urduType field is treated as 'roman'. *)
Theorem stt_default_type_is_roman file rnd :
  POST {| audio := Some file; urduType_field := None |} rnd
  = POST {| audio := Some file; urduType_field := Some (js "roman") |} rnd
  /\ POST {| audio := Some file; urduType_field := Some [] |} rnd
     = POST {| audio := Some file; urduType_field := Some (js "roman") |} rnd.
Proof.
  rewrite !POST_with_audio. split; reflexivity.
Qed.

(** X3: Every non-empty urduType other than 'roman', known or not, is answered
    with the Urdu-script phrase and echoed back in the response. *)
Theorem stt_other_types_answer_in_urdu_script file urduType rnd :
  urduType <> [] -> urduType <> js "roman" ->
  exists confidence,
    POST {| audio := Some file; urduType_field := Some urduType |} rnd
    = Ok (json (SuccessBody (threshold_phrase (length (content file)) (js "pure"))
                  urduType confidence (js "web_speech_api")) 200).
Proof.
  intros Hne Hnr. eexists. rewrite POST_with_audio.
  unfold urduType_of. cbn [urduType_field].
  destruct urduType as [|c u]; [contradiction|]. cbn [truthy].
  unfold threshold_phrase, jsstring_eqb.
  rewrite (bool_decide_eq_false_2 (c :: u = js "roman") Hnr).
  replace (bool_decide (js "pure" = js "roman")) with false
    by (symmetry; apply bool_decide_eq_false_2; vm_compute; discriminate).
  reflexivity.
Qed.

Lemma stt_other_types_answer_in_urdu_script_witness :
  js "english" <> [] /\ js "english" <> js "roman"
  /\ exists confidence,
       POST {| audio := Some {| name := js "a.wav"; content := [1; 2; 3]%N |};
               urduType_field := Some (js "english") |} (of_Z 0)
       = Ok (json (SuccessBody (threshold_phrase 3 (js "pure"))
                     (js "english") confidence (js "web_speech_api")) 200).
Proof.
  assert (H1 : js "english" <> []) by (vm_compute; discriminate).
  assert (H2 : js "english" <> js "roman") by (vm_compute; discriminate).
  split; [exact H1|]. split; [exact H2|].
  exact (stt_other_types_answer_in_urdu_script
           {| name := js "a.wav"; content := [1; 2; 3]%N |}
           (js "english") (of_Z 0) H1 H2).
Defined.

(** X4: The duration tests of [processAudioWithWebSpeechAPI], evaluated on
    doubles, agree with the integer thresholds for every buffer length:
    [len / 32000 < c] holds exactly when [len < 32000 * c]. *)
Theorem duration_tests_decide_integer_thresholds (len : nat) :
  lt (div (of_nat len) (of_Z 32000)) (of_Z 1) = (Z.of_nat len <? 32000)
  /\ lt (div (of_nat len) (of_Z 32000)) (of_Z 2) = (Z.of_nat len <? 64000)
  /\ lt (div (of_nat len) (of_Z 32000)) (of_Z 3) = (Z.of_nat len <? 96000).
Proof.
  unfold of_nat. repeat split.
  - destruct (Z.ltb_spec (Z.of_nat len) 32000);
      [apply duration_below; lia|apply duration_ge; lia].
  - destruct (Z.ltb_spec (Z.of_nat len) 64000);
      [apply duration_below; lia|apply duration_ge; lia].
  - destruct (Z.ltb_spec (Z.of_nat len) 96000);
      [apply duration_below; lia|apply duration_ge; lia].
Qed.

End SpeechToTextMore.

(* --------------------------------------------------------------------- *)
(** ** LanguageModel: what is stored, what is sent, what is matched *)
(* --------------------------------------------------------------------- *)

Section LanguageModelMore.
Import LanguageModel.

Variable toLowerCase : jsstring -> jsstring.

Lemma starts_with_spec text pat :
  starts_with text pat = true <-> exists post, text = pat ++ post.
Proof.
  revert text. induction pat as [|p pat IH]; intros text.
  - split; [intros _; exists text; reflexivity|].
    intros _. destruct text; reflexivity.
  - destruct text as [|c text]; cbn [starts_with].
    + split; [discriminate|]. intros [post H]. discriminate H.
    + rewrite andb_true_iff, N.eqb_eq, IH. split.
      * intros [-> [post ->]]. exists post. reflexivity.
      * intros [post H]. injection H as -> ->. split; [reflexivity|].
        exists post. reflexivity.
Qed.

Lemma includes_spec text pat :
  includes text pat = true <-> exists pre post, text = pre ++ pat ++ post.
Proof.
  induction text as [|c text IH].
  - cbn [includes]. rewrite orb_false_r, starts_with_spec. split.
    + intros [post H]. exists [], post. exact H.
    + intros (pre & post & H). destruct pre as [|a pre]; [|discriminate H].
      exists post. exact H.
  - cbn [includes]. rewrite orb_true_iff, starts_with_spec, IH. split.
    + intros [[post H]|(pre & post & H)].
      * exists [], post. exact H.
      * exists (c :: pre), post. rewrite H. reflexivity.
    + intros (pre & post & H). destruct pre as [|a pre].
      * left. exists post. exact H.
      * right. injection H as -> H. exists pre, post. exact H.
Qed.

(** X5: [containsAny] holds exactly when one of the keywords occurs in the text
    as a contiguous substring. *)
Theorem containsAny_spec text keywords :
  containsAny text keywords = true
  <-> exists keyword pre post,
        In keyword keywords /\ text = pre ++ keyword ++ post.
Proof.
  unfold containsAny. rewrite existsb_exists. split.
  - intros (kw & Hin & Hinc). apply includes_spec in Hinc as (pre & post & H).
    exists kw, pre, post. split; assumption.
  - intros (kw & pre & post & Hin & H). exists kw. split; [assumption|].
    apply includes_spec. exists pre, post. exact H.
Qed.

(** X6: When the API call fails, the fallback sentence is returned but not
    stored: the history gains the user's record only. *)
Theorem failed_call_stores_user_record_only env this input :
  api_failed (server env
                {| message := input;
                   conversationHistory :=
                     slice_last 6
                       (history this ++
                        [{| role := user; content := input;
                            timestamp := now_user env |}]) |}) = true ->
  let o := processUrduText toLowerCase env this input in
  result o = Ok (generateFallbackResponse toLowerCase input (random env))
  /\ history (state_after o)
     = history this
       ++ [{| role := user; content := input; timestamp := now_user env |}].
Proof.
  intros Hf o. unfold o.
  pose proof (processUrduText_state toLowerCase env this input) as [_ H].
  cbv zeta in H.
  pose proof (callChatAPI_reply (server env)
                {| history := history this ++
                     [{| role := user; content := input;
                         timestamp := now_user env |}] |} input) as Hreply.
  cbv zeta in Hreply. rewrite callChatAPI_request in Hreply. cbn [history] in Hreply.
  destruct (snd (callChatAPI _ _ _)) as [r|e].
  - destruct Hreply as [Hok _]. rewrite Hok in Hf. discriminate Hf.
  - exact H.
Qed.

(** X7: When the API call is answered, the user's record and the assistant's
    reply are stored, in this order, and the reply is returned. *)
Theorem answered_call_stores_exchange env this input data :
  server env
    {| message := input;
       conversationHistory :=
         slice_last 6
           (history this ++
            [{| role := user; content := input; timestamp := now_user env |}]) |}
  = FetchResolved true (Ok data) ->
  success data = true ->
  let o := processUrduText toLowerCase env this input in
  result o = Ok (Some (response data))
  /\ history (state_after o)
     = history this
       ++ [{| role := user; content := input; timestamp := now_user env |};
           {| role := assistant; content := response data;
              timestamp := now_assistant env |}].
Proof.
  intros Hsrv Hsucc o. unfold o.
  pose proof (processUrduText_state toLowerCase env this input) as [_ H].
  cbv zeta in H.
  pose proof (callChatAPI_reply (server env)
                {| history := history this ++
                     [{| role := user; content := input;
                         timestamp := now_user env |}] |} input) as Hreply.
  cbv zeta in Hreply. rewrite callChatAPI_request in Hreply. cbn [history] in Hreply.
  destruct (snd (callChatAPI _ _ _)) as [r|e].
  - destruct Hreply as (_ & data' & Hsrv' & _ & Hresp).
    rewrite Hsrv in Hsrv'. injection Hsrv' as <-. subst r. exact H.
  - rewrite Hsrv in Hreply. cbn [api_failed negb orb] in Hreply.
    rewrite Hsucc in Hreply. discriminate Hreply.
Qed.

(** X8: The request of a call carries the new message twice: as [message] and
    as the last record of the history it sends. *)
Theorem request_ends_with_current_message env this input :
  let o := processUrduText toLowerCase env this input in
  message (request_sent o) = input
  /\ last (conversationHistory (request_sent o))
     = Some {| role := user; content := input; timestamp := now_user env |}.
Proof.
  intros o. unfold o.
  pose proof (processUrduText_state toLowerCase env this input) as [-> _].
  rewrite callChatAPI_request. cbn [message conversationHistory history].
  split; [reflexivity|].
  unfold slice_last. rewrite length_app. cbn [length].
  rewrite drop_app_le by lia. apply last_snoc.
Qed.

(** X9: After [clearHistory] the next request sends exactly one record, the
    new user message. *)
Theorem request_after_clearHistory env this input :
  request_sent (processUrduText toLowerCase env (clearHistory this) input)
  = {| message := input;
       conversationHistory :=
         [{| role := user; content := input; timestamp := now_user env |}] |}.
Proof.
  pose proof (processUrduText_state toLowerCase env (clearHistory this) input)
    as [-> _].
  reflexivity.
Qed.

(** X10: Keyword priority with substring matching: an input whose lower-cased
    text contains "hi" anywhere, even inside another word, is answered with
    a greeting, whatever else it says. *)
Theorem greeting_keywords_win input rnd :
  includes (toLowerCase input) (js "hi") = true ->
  random_in_range rnd ->
  exists s, generateFallbackResponse toLowerCase input rnd = Some s
            /\ s ∈ greetings.
Proof.
  intros Hhi Hr. unfold generateFallbackResponse.
  replace (containsAny (toLowerCase input)
             [js "hello"; js "hi"; js "hey"; js "good morning";
              js "good afternoon"; js "good evening"]) with true.
  - apply (random_element_in_range rnd greetings Hr eq_refl).
  - symmetry. unfold containsAny. cbn [existsb]. rewrite Hhi.
    apply orb_true_iff. right. reflexivity.
Qed.

End LanguageModelMore.

Section LanguageModelMoreWitnesses.
Import LanguageModel.

Lemma failed_call_stores_user_record_only_witness :
  let env := {| server := unreachable_server; now_user := 5; now_assistant := 6;
                random := decimal 1 2 |} in
  api_failed (server env
                {| message := js "bye";
                   conversationHistory :=
                     slice_last 6
                       (history initial ++
                        [{| role := user; content := js "bye";
                            timestamp := now_user env |}]) |}) = true
  /\ let o := processUrduText ascii_toLowerCase env initial (js "bye") in
     result o = Ok (generateFallbackResponse ascii_toLowerCase (js "bye") (random env))
     /\ history (state_after o)
        = history initial
          ++ [{| role := user; content := js "bye"; timestamp := now_user env |}].
Proof.
  intros env. split; [reflexivity|].
  exact (failed_call_stores_user_record_only ascii_toLowerCase env initial
           (js "bye") eq_refl).
Defined.

Lemma answered_call_stores_exchange_witness :
  let env := {| server := echo_server (js "Hi!"); now_user := 5; now_assistant := 6;
                random := decimal 1 2 |} in
  let data := {| success := true; error := None; response := js "Hi!" |} in
  server env
    {| message := js "hello";
       conversationHistory :=
         slice_last 6
           (history initial ++
            [{| role := user; content := js "hello"; timestamp := now_user env |}]) |}
  = FetchResolved true (Ok data)
  /\ success data = true
  /\ let o := processUrduText ascii_toLowerCase env initial (js "hello") in
     result o = Ok (Some (response data))
     /\ history (state_after o)
        = history initial
          ++ [{| role := user; content := js "hello"; timestamp := now_user env |};
              {| role := assistant; content := response data;
                 timestamp := now_assistant env |}].
Proof.
  intros env data. split; [reflexivity|]. split; [reflexivity|].
  exact (answered_call_stores_exchange ascii_toLowerCase env initial
           (js "hello") data eq_refl eq_refl).
Defined.

Lemma greeting_keywords_win_witness :
  includes (ascii_toLowerCase (js "Thanks for this")) (js "hi") = true
  /\ random_in_range (decimal 1 2)
  /\ exists s, generateFallbackResponse ascii_toLowerCase (js "Thanks for this")
                 (decimal 1 2) = Some s
               /\ s ∈ greetings.
Proof.
  assert (H1 : includes (ascii_toLowerCase (js "Thanks for this")) (js "hi") = true)
    by (vm_compute; reflexivity).
  assert (H2 : random_in_range (decimal 1 2))
    by (exists 1; split; [vm_compute; reflexivity|lia]).
  split; [exact H1|]. split; [exact H2|].
  exact (greeting_keywords_win ascii_toLowerCase (js "Thanks for this")
           (decimal 1 2) H1 H2).
Defined.

End LanguageModelMoreWitnesses.

(* --------------------------------------------------------------------- *)
(** ** [Math.random()] and the pick of a fallback sentence *)
(* --------------------------------------------------------------------- *)

Section RandomPick.
Import LanguageModel.

(** X11: For +0 and for every positive normal double below 1, which are the
    values [Math.random()] returns, [Math.floor(r * 3)] is 0, 1 or 2: the
    pick [responses[Math.floor(Math.random() * responses.length)]] never
    reads past a three-element array. *)
Theorem random_pick_in_range m e :
  Z.pos (digits2_pos m) = 53 -> -1074 <= e <= -53 ->
  random_in_range (S754_zero false)
  /\ random_in_range (S754_finite false m e).
Proof.
  intros Hd He. split.
  { exists 0. split; [vm_compute; reflexivity|lia]. }
  assert (Hcorner : e = -53 /\ m = 9007199254740991%positive
                   \/ (e = -53 -> Z.pos m <= 9007199254740990)).
  { destruct (Pos.eq_dec m 9007199254740991%positive) as [->|Hmax];
      destruct (Z.eq_dec e (-53)) as [->|Hne].
    - left. split; reflexivity.
    - right. intros H. lia.
    - right. intros _.
      pose proof (digits2_bounds m) as [_ Xhi]. rewrite Hd in Xhi.
      change (2 ^ 53) with 9007199254740992 in Xhi.
      assert (Z.pos m <> 9007199254740991)
        by (intros H; apply Hmax; apply Pos2Z.inj; exact H).
      lia.
    - right. intros H. lia. }
  destruct Hcorner as [[-> ->]|Hm2].
  { (* the largest double below 1 *)
    exists 2. split; [vm_compute; reflexivity|lia]. }
  unfold random_in_range.
  change (of_Z 3) with (S754_finite false 6755399441055744 (-51)).
  unfold mul, SFmul. cbn [xorb].
  pose proof (digits2_bounds m) as [Xlo Xhi]. rewrite Hd in Xlo, Xhi.
  change (53 - 1) with 52 in *.
  change (2 ^ 52) with 4503599627370496 in Xlo.
  change (2 ^ 53) with 9007199254740992 in Xhi.
  pose proof (digits2_bounds (m * 6755399441055744)) as [Plo Phi].
  set (d := Z.pos (digits2_pos (m * 6755399441055744))) in *.
  rewrite Pos2Z.inj_mul in Plo, Phi.
  assert (Hdd : 105 <= d <= 106).
  { split.
    - assert (104 < d); [|lia]. apply (Z.pow_lt_mono_r_iff 2); [lia|lia|].
      change (2 ^ 104) with 20282409603651670423947251286016. lia.
    - assert (d - 1 < 106); [|lia]. apply (Z.pow_lt_mono_r_iff 2); [lia|lia|].
      change (2 ^ 106) with 81129638414606681695789005144064. lia. }
  destruct (binary_round_aux_shape (Z.pos (m * 6755399441055744)) (e + -51) loc_Exact)
    as (HT & m' & e' & Hr & Hdm & Hcases & _); cbn [Zdigits2]; fold d; try lia.
  cbn [Zdigits2] in HT, Hcases. fold d in HT, Hcases.
  rewrite Pos2Z.inj_mul in HT, Hcases.
  set (T := (Z.pos m * 6755399441055744) / 2 ^ (d - 53)) in *.
  pose proof (digits2_bounds m') as [Mlo Mhi]. rewrite Hdm in Mlo, Mhi.
  change (53 - 1) with 52 in *.
  change (2 ^ 52) with 4503599627370496 in *.
  change (2 ^ 53) with 9007199254740992 in *.
  (* at exponent -51 the truncated product stays below 3 * 2^51 - 1 *)
  assert (HT2 : e + -51 + (d - 53) = -51 -> T < 6755399441055743).
  { intros HE. assert (Hk : d - 53 = 53) by lia.
    unfold T. rewrite Hk. apply Z.div_lt_upper_bound;
      [apply Z.pow_pos_nonneg; lia|].
    change (2 ^ 53) with 9007199254740992. lia. }
  assert (He0 : e' <= -51 /\ Z.pos m' < 3 * 2 ^ (- e')).
  { destruct Hcases as [[-> Hm']|(-> & Hm' & HTmax)].
    - split; [lia|].
      destruct (Z.eq_dec (e + -51 + (d - 53)) (-51)) as [HE|HE].
      + specialize (HT2 HE). rewrite HE.
        change (2 ^ (- -51)) with 2251799813685248. lia.
      + assert (2 ^ 52 <= 2 ^ (- (e + -51 + (d - 53))))
          by (apply Z.pow_le_mono_r; lia).
        change (2 ^ 52) with 4503599627370496 in *. lia.
    - assert (HE : e + -51 + (d - 53) <> -51) by (intros HE; specialize (HT2 HE); lia).
      split; [lia|].
      assert (2 ^ 51 <= 2 ^ (- (e + -51 + (d - 53) + 1)))
        by (apply Z.pow_le_mono_r; lia).
      change (2 ^ 51) with 2251799813685248 in *. lia. }
  destruct He0 as [He0 Hbelow].
  rewrite Hr.
  replace (e' <=? emax - prec) with true
    by (symmetry; apply Z.leb_le; unfold emax, prec; lia).
  cbn [Math_floor]. destruct (Z.leb_spec 0 e') as [|_]; [lia|].
  eexists. split; [reflexivity|].
  assert (Hp : 0 < 2 ^ (- e')) by (apply Z.pow_pos_nonneg; lia).
  split; [apply Z.div_pos; lia|].
  apply Z.div_lt_upper_bound; [lia|]. lia.
Qed.

Lemma random_pick_in_range_witness :
  Z.pos (digits2_pos 4503599627370496) = 53 /\ -1074 <= -53 <= -53
  /\ random_in_range (S754_zero false)
  /\ random_in_range (S754_finite false 4503599627370496 (-53)).
Proof.
  split; [reflexivity|]. split; [lia|].
  apply (random_pick_in_range 4503599627370496 (-53)); [reflexivity|lia].
Defined.

End RandomPick.

(* --------------------------------------------------------------------- *)
(** ** POST /api/chat: every request is answered *)
(* --------------------------------------------------------------------- *)

Section ChatResponses.
Import Chat.

Lemma chat_route_on_parsed_body sdk m history :
  ChatRoute.POST sdk
    (ChatRoute.BodyFields m
       (match history with
        | Some entries => ChatRoute.HistoryArray entries
        | None => ChatRoute.HistoryFalsy
        end))
  = POST sdk {| message := m; conversationHistory := history |}.
Proof.
  unfold ChatRoute.POST, POST. cbn [message conversationHistory].
  destruct m as [msg|]; [|reflexivity].
  destruct (truthy msg); cbn [negb]; [|reflexivity].
  destruct sdk as [create|e]; [|reflexivity]. cbn [bind].
  destruct history; reflexivity.
Qed.

(** X12: The chat route always answers.  The status is 400 with 'Message is
    required' exactly when the body carries no message or an empty one; it
    is 200 exactly when a non-empty message is given, the SDK is created,
    the history is an array or falsy, and the completion call returns, and
    then the response has no white space at either end; and it is 500 with
    success false exactly in the remaining cases: the body cannot be read,
    or, for a non-empty message, the SDK cannot be created, the history is a
    truthy value that is not an array, or the completion call throws. *)
Theorem chat_post_always_responds (sdk : Sdk) (request : ChatRoute.Request) :
  exists r, ChatRoute.POST sdk request = Ok r
    /\ (status r = 400 <->
        exists history,
          request = ChatRoute.BodyFields None history
          \/ request = ChatRoute.BodyFields (Some []) history)
    /\ (status r = 200 <->
        exists msg history create context completion,
          request = ChatRoute.BodyFields (Some msg) history /\ msg <> []
          /\ sdk = Ok create
          /\ ChatRoute.context_of history = Ok context
          /\ create (completion_request context msg) = Ok completion)
    /\ (status r = 500 <->
        (exists e, request = ChatRoute.BodyUnreadable e)
        \/ exists msg history,
             request = ChatRoute.BodyFields (Some msg) history /\ msg <> []
             /\ ((exists e, sdk = Throw e)
                 \/ history = ChatRoute.HistoryNotArray
                 \/ exists create context e,
                      sdk = Ok create
                      /\ ChatRoute.context_of history = Ok context
                      /\ create (completion_request context msg) = Throw e))
    /\ (status r = 400 -> body r = ErrorOnly (js "Message is required"))
    /\ (status r = 500 -> body r = Failure (js "Failed to process your message"))
    /\ (status r = 200 ->
        exists resp, body r = Success resp
          /\ match head resp with
             | Some c => is_whitespace c = false | None => True end
          /\ match last resp with
             | Some c => is_whitespace c = false | None => True end).
Proof.
  destruct request as [e|[msg|] history]; unfold ChatRoute.POST.
  - (* the body cannot be read *)
    cbn [try_catch]. eexists. split; [reflexivity|]. cbn [status body json].
    split; [split; [discriminate|intros [h [H|H]]; discriminate H]|].
    split; [split; [discriminate|intros (m & h & c & x & y & H & _); discriminate H]|].
    split; [split; [intros _; left; exists e; reflexivity|reflexivity]|].
    split; [discriminate|]. split; [reflexivity|discriminate].
  - destruct msg as [|c0 msg]; cbn [truthy negb].
    + (* an empty message *)
      cbn [try_catch]. eexists. split; [reflexivity|]. cbn [status body json].
      split; [split; [intros _; exists history; right; reflexivity|reflexivity]|].
      split; [split; [discriminate|
                      intros (m & h & c & x & y & H & Hm & _);
                      injection H as <- _; contradiction]|].
      split; [split; [discriminate|
                      intros [[e H]|(m & h & H & Hm & _)];
                      [discriminate H|injection H as <- _; contradiction]]|].
      split; [reflexivity|]. split; discriminate.
    + destruct sdk as [create|e]; cbn [bind].
      * destruct history as [|entries|]; cbn [ChatRoute.context_of bind].
        -- (* falsy history *)
           destruct (create (completion_request [] (c0 :: msg)))
             as [completion|e] eqn:Hcall; cbn [bind try_catch].
           ++ eexists. split; [reflexivity|]. cbn [status body json].
              split; [split; [discriminate|intros [h [H|H]]; discriminate H]|].
              split; [split; [intros _|reflexivity]|].
              { exists (c0 :: msg), ChatRoute.HistoryFalsy, create, [], completion.
                split; [reflexivity|]. split; [discriminate|].
                split; [reflexivity|]. split; [reflexivity|exact Hcall]. }
              split; [split; [discriminate|]|].
              { intros [[e H]|(m & h & H & _ & [[e H']|[H'|(cr & cx & e & Hs & Hc & Ht)]])].
                - discriminate H.
                - discriminate H'.
                - injection H as _ <-. discriminate H'.
                - injection H as <- <-. injection Hs as <-. injection Hc as <-.
                  pose proof (eq_trans (eq_sym Ht) Hcall) as E. discriminate E. }
              split; [discriminate|]. split; [discriminate|].
              intros _. eexists. split; [reflexivity|]. apply trim_ends.
           ++ eexists. split; [reflexivity|]. cbn [status body json].
              split; [split; [discriminate|intros [h [H|H]]; discriminate H]|].
              split; [split; [discriminate|]|].
              { intros (m & h & cr & cx & cp & H & _ & Hs & Hc & Ht).
                injection H as <- <-. injection Hs as <-. injection Hc as <-.
                pose proof (eq_trans (eq_sym Ht) Hcall) as E. discriminate E. }
              split; [split; [intros _|reflexivity]|].
              { right. exists (c0 :: msg), ChatRoute.HistoryFalsy.
                split; [reflexivity|]. split; [discriminate|].
                right. right. exists create, [], e.
                split; [reflexivity|]. split; [reflexivity|exact Hcall]. }
              split; [discriminate|]. split; [reflexivity|discriminate].
        -- (* an array *)
           destruct (create (completion_request (context_of (Some entries)) (c0 :: msg)))
             as [completion|e] eqn:Hcall; cbn [bind try_catch].
           ++ eexists. split; [reflexivity|]. cbn [status body json].
              split; [split; [discriminate|intros [h [H|H]]; discriminate H]|].
              split; [split; [intros _|reflexivity]|].
              { exists (c0 :: msg), (ChatRoute.HistoryArray entries), create,
                  (context_of (Some entries)), completion.
                split; [reflexivity|]. split; [discriminate|].
                split; [reflexivity|]. split; [reflexivity|exact Hcall]. }
              split; [split; [discriminate|]|].
              { intros [[e H]|(m & h & H & _ & [[e H']|[H'|(cr & cx & e & Hs & Hc & Ht)]])].
                - discriminate H.
                - discriminate H'.
                - injection H as _ <-. discriminate H'.
                - injection H as <- <-. injection Hs as <-. injection Hc as <-.
                  pose proof (eq_trans (eq_sym Ht) Hcall) as E. discriminate E. }
              split; [discriminate|]. split; [discriminate|].
              intros _. eexists. split; [reflexivity|]. apply trim_ends.
           ++ eexists. split; [reflexivity|]. cbn [status body json].
              split; [split; [discriminate|intros [h [H|H]]; discriminate H]|].
              split; [split; [discriminate|]|].
              { intros (m & h & cr & cx & cp & H & _ & Hs & Hc & Ht).
                injection H as <- <-. injection Hs as <-. injection Hc as <-.
                pose proof (eq_trans (eq_sym Ht) Hcall) as E. discriminate E. }
              split; [split; [intros _|reflexivity]|].
              { right. exists (c0 :: msg), (ChatRoute.HistoryArray entries).
                split; [reflexivity|]. split; [discriminate|].
                right. right. exists create, (context_of (Some entries)), e.
                split; [reflexivity|]. split; [reflexivity|exact Hcall]. }
              split; [discriminate|]. split; [reflexivity|discriminate].
        -- (* a truthy value that is not an array *)
           cbn [try_catch]. eexists. split; [reflexivity|]. cbn [status body json].
           split; [split; [discriminate|intros [h [H|H]]; discriminate H]|].
           split; [split; [discriminate|]|].
           { intros (m & h & cr & cx & cp & H & _ & _ & Hc & _).
             injection H as _ <-. discriminate Hc. }
           split; [split; [intros _|reflexivity]|].
           { right. exists (c0 :: msg), ChatRoute.HistoryNotArray.
             split; [reflexivity|]. split; [discriminate|].
             right. left. reflexivity. }
           split; [discriminate|]. split; [reflexivity|discriminate].
      * (* the SDK cannot be created *)
        cbn [try_catch]. eexists. split; [reflexivity|]. cbn [status body json].
        split; [split; [discriminate|intros [h [H|H]]; discriminate H]|].
        split; [split; [discriminate|]|].
        { intros (m & h & cr & cx & cp & _ & _ & Hs & _). discriminate Hs. }
        split; [split; [intros _|reflexivity]|].
        { right. exists (c0 :: msg), history.
          split; [reflexivity|]. split; [discriminate|].
          left. exists e. reflexivity. }
        split; [discriminate|]. split; [reflexivity|discriminate].
  - (* no message *)
    cbn [try_catch]. eexists. split; [reflexivity|]. cbn [status body json].
    split; [split; [intros _; exists history; left; reflexivity|reflexivity]|].
    split; [split; [discriminate|
                    intros (m & h & c & x & y & H & _); discriminate H]|].
    split; [split; [discriminate|
                    intros [[e H]|(m & h & H & _)]; discriminate H]|].
    split; [reflexivity|]. split; discriminate.
Qed.

(** X13: When the model answers with a non-empty content, the response is that
    content trimmed, and it is the empty string exactly when the content
    consists of white space only: the apology is never substituted for it. *)
Theorem chat_response_empty_iff_blank_content msg hist c :
  msg <> [] -> c <> [] ->
  POST (sdk_answering (Some c))
       {| message := Some msg; conversationHistory := hist |}
    = Ok (json (Success (trim c)) 200)
  /\ (trim c = [] <-> forallb is_whitespace c = true).
Proof.
  intros Hm Hc. destruct msg as [|m0 msg]; [contradiction|].
  destruct c as [|c0 c]; [contradiction|].
  split; [reflexivity|]. apply trim_nil_iff.
Qed.

Lemma chat_response_empty_iff_blank_content_witness :
  js "hi" <> [] /\ js "  " <> []
  /\ POST (sdk_answering (Some (js "  ")))
          {| message := Some (js "hi"); conversationHistory := None |}
       = Ok (json (Success (trim (js "  "))) 200)
  /\ (trim (js "  ") = [] <-> forallb is_whitespace (js "  ") = true).
Proof.
  split; [vm_compute; discriminate|]. split; [vm_compute; discriminate|].
  apply (chat_response_empty_iff_blank_content (js "hi") None (js "  "));
    vm_compute; discriminate.
Defined.

End ChatResponses.

(* --------------------------------------------------------------------- *)
(** ** POST /api/text-to-speech: the fallback generator *)
(* --------------------------------------------------------------------- *)

Section TextToSpeechResponses.
Import TextToSpeech.

Lemma tts_route_on_parsed_body env fields :
  TextToSpeechRoute.POST env (TextToSpeechRoute.Body fields) = POST env fields.
Proof.
  unfold TextToSpeechRoute.POST. destruct fields as [[txt|] ut]; [|reflexivity].
  destruct txt as [|c txt]; [reflexivity|].
  pose proof (POST_nonempty_text env (c :: txt) ut ltac:(discriminate)) as HP.
  match goal with
  | |- try_catch ?p _ = _ =>
      match type of HP with _ = ?r => replace p with r by (symmetry; exact HP) end
  end.
  reflexivity.
Qed.

(** X14: The text-to-speech route always answers.  The status is 500 with
    'Failed to process text-to-speech' exactly when the body cannot be
    read, 400 with 'No text provided' exactly when the text is missing or
    empty, and 200 exactly for a non-empty text, then with method
    'web_speech_api': for a text that is a string the first generator does
    not fail, so the branch 'enhanced_simulated' is not taken. *)
Theorem tts_post_never_falls_back (env : Env) (request : TextToSpeechRoute.Request) :
  exists r, TextToSpeechRoute.POST env request = Ok r
    /\ (status r = 500 <-> exists e, request = TextToSpeechRoute.BodyUnreadable e)
    /\ (status r = 400 <->
        exists ut,
          request = TextToSpeechRoute.Body {| text := None; urduType := ut |}
          \/ request = TextToSpeechRoute.Body {| text := Some []; urduType := ut |})
    /\ (status r = 200 <->
        exists txt ut,
          txt <> []
          /\ request = TextToSpeechRoute.Body {| text := Some txt; urduType := ut |})
    /\ (status r = 500 -> body r = ErrorBody (js "Failed to process text-to-speech"))
    /\ (status r = 400 -> body r = ErrorBody (js "No text provided"))
    /\ (status r = 200 ->
        exists txt audioUrl audioBase64 urduText,
          body r = SuccessBody audioUrl audioBase64 txt urduText
                     (js "web_speech_api")).
Proof.
  destruct request as [e|[[txt|] ut]]; unfold TextToSpeechRoute.POST.
  - cbn [try_catch]. eexists. split; [reflexivity|]. cbn [status body json].
    split; [split; [intros _; exists e; reflexivity|reflexivity]|].
    split; [split; [discriminate|intros [u [H|H]]; discriminate H]|].
    split; [split; [discriminate|intros (t & u & _ & H); discriminate H]|].
    split; [reflexivity|]. split; discriminate.
  - destruct txt as [|c txt].
    + eexists. split; [reflexivity|]. cbn [status body json].
      split; [split; [discriminate|intros [e H]; discriminate H]|].
      split; [split; [intros _; exists ut; right; reflexivity|reflexivity]|].
      split; [split; [discriminate|
                      intros (t & u & Ht & H); injection H as <- _; contradiction]|].
      split; [discriminate|]. split; [reflexivity|discriminate].
    + pose proof (POST_nonempty_text env (c :: txt) ut ltac:(discriminate)) as HP.
      eexists. split.
      { match goal with
        | |- try_catch ?p _ = _ =>
            match type of HP with _ = ?r => replace p with r by (symmetry; exact HP) end
        end. reflexivity. }
      cbn [status body json].
      split; [split; [discriminate|intros [e H]; discriminate H]|].
      split; [split; [discriminate|
                      intros [u [H|H]]; [discriminate H|injection H as H _; discriminate H]]|].
      split; [split; [intros _; exists (c :: txt), ut;
                      split; [discriminate|reflexivity]|reflexivity]|].
      split; [discriminate|]. split; [discriminate|].
      intros _. exists (c :: txt). do 3 eexists. reflexivity.
  - eexists. split; [reflexivity|]. cbn [status body json].
    split; [split; [discriminate|intros [e H]; discriminate H]|].
    split; [split; [intros _; exists ut; left; reflexivity|reflexivity]|].
    split; [split; [discriminate|intros (t & u & _ & H); discriminate H]|].
    split; [discriminate|]. split; [reflexivity|discriminate].
Qed.

Lemma natural_sample_count_short_cases :
  forallb (fun n =>
             match sample_count (decimal 8 100) 4 n with
             | Some z => z =? 1764 * Z.of_nat n
             | None => false
             end) (seq 0 50) = true.
Proof. vm_compute. reflexivity. Qed.

Lemma natural_sample_count len :
  sample_count (decimal 8 100) 4 len = Some (1764 * Z.min (Z.of_nat len) 50).
Proof.
  destruct (Nat.lt_ge_cases len 50) as [Hlt|Hge].
  - pose proof natural_sample_count_short_cases as H.
    rewrite forallb_forall in H.
    specialize (H len ltac:(apply in_seq; lia)).
    destruct (sample_count (decimal 8 100) 4 len) as [z|]; [|discriminate H].
    apply Z.eqb_eq in H. subst z. f_equal. lia.
  - replace (Z.min (Z.of_nat len) 50) with 50 by lia.
    unfold sample_count.
    assert (Hx : at_least (of_nat len) 50).
    { apply of_Z_at_least; [change (2 ^ 53) with 9007199254740992; lia | lia]. }
    assert (Hm : at_least (mul (of_nat len) (decimal 8 100)) 4).
    { change (decimal 8 100) with (S754_finite false 5764607523034235 (-56)).
      apply (mul_at_least _ 50); try assumption; try reflexivity;
        change (2 ^ 53) with 9007199254740992;
        change (2 ^ (- -56)) with 72057594037927936; lia. }
    change (of_Z 4) with (S754_finite false 4503599627370496 (-50)).
    rewrite (Math_min_at_least _ 4 _ _ Hm); [|reflexivity|lia|reflexivity].
    vm_compute. reflexivity.
Qed.

(** X15: [generateNaturalSpeechAudio], computed on doubles: 1764 samples for
    each code unit of the text, up to 50 code units, after the same header
    as the first generator; it never throws. *)
Theorem natural_speech_audio_shape pcm txt urduText :
  let n := 1764 * Z.min (Z.of_nat (length txt)) 50 in
  sample_count (decimal 8 100) 4 (length txt) = Some n
  /\ generateNaturalSpeechAudio pcm txt urduText
     = Ok (Base64.encode (header_bytes n ++ pcm_bytes pcm (Z.to_nat n) 0)).
Proof.
  intros n. pose proof (natural_sample_count (length txt)) as Hs. fold n in Hs.
  split; [exact Hs|].
  unfold generateNaturalSpeechAudio.
  apply synthesize_ok; [exact Hs|]. unfold n. lia.
Qed.

End TextToSpeechResponses.

(* --------------------------------------------------------------------- *)
(** ** The client of the route and its WAV writer *)
(* --------------------------------------------------------------------- *)

Section WavClient.
Import TextToSpeech WavFile RealTTS.

Lemma copy_audio_writeString audio : forall offset buf,
  copy_audio offset audio buf = writeString offset audio buf.
Proof.
  induction audio as [|b audio IH]; intros offset buf; [reflexivity|].
  cbn [copy_audio writeString]. destruct (setUint8 offset (Z.of_N b) buf); [|reflexivity].
  cbn [bind]. apply IH.
Qed.

Lemma map_byte_id audio :
  Forall (fun b => (b < 256)%N) audio ->
  map (fun c => Z.to_N (Z.of_N c mod 256)) audio = audio.
Proof.
  induction 1 as [|b audio Hb _ IH]; [reflexivity|].
  cbn [map]. rewrite IH. f_equal. rewrite Z.mod_small by lia. apply N2Z.id.
Qed.

Ltac wav_len :=
  repeat match goal with H : length (js _) = _ |- _ => rewrite H end.

Ltac wav_step :=
  first [ rewrite writeString_next | rewrite write_bytes_next ];
  [ | rewrite ?length_app, ?le_bytes_length, ?length_map; wav_len; reflexivity
    | rewrite ?length_drop, ?le_bytes_length; wav_len; lia ];
  cbn [bind]; rewrite ?le_bytes_length, ?drop_drop; wav_len; cbn [Nat.add].

Lemma createWavFile_ok audio rate :
  Forall (fun b => (b < 256)%N) audio ->
  createWavFile audio rate
  = Ok (wav_header rate (Z.of_nat (length audio)) ++ audio).
Proof.
  intros Hb. unfold createWavFile, setUint32, setUint16.
  set (buffer := replicate (44 + length audio) 0%N).
  assert (Hlen : length buffer = (44 + length audio)%nat)
    by (unfold buffer; apply length_replicate).
  destruct literal_lengths as (L1 & L2 & L3 & L4).
  change buffer with ([] ++ buffer) at 1.
  do 13 wav_step.
  rewrite copy_audio_writeString.
  rewrite writeString_next;
    [ | rewrite ?length_app, ?le_bytes_length, ?length_map; wav_len; reflexivity
      | rewrite ?length_drop; lia ].
  rewrite drop_drop, (drop_ge buffer) by lia. rewrite app_nil_r.
  destruct literal_bytes as (-> & -> & -> & ->).
  rewrite (map_byte_id audio Hb).
  unfold wav_header. rewrite <- !app_assoc. reflexivity.
Qed.

(** X16: [createWavFile] never throws on a byte buffer: it returns the 44-byte
    header followed by the audio unchanged, and a reader of the result
    finds the audio length at offset 40, that length plus 36 at offset 4
    and the sample rate at offset 24. *)
Theorem createWavFile_layout audio rate :
  Forall (fun b => (b < 256)%N) audio ->
  0 <= rate < 2 ^ 32 ->
  36 + Z.of_nat (length audio) < 2 ^ 32 ->
  exists wav,
    createWavFile audio rate = Ok wav
    /\ length wav = (44 + length audio)%nat
    /\ drop 44 wav = audio
    /\ getUint32 4 wav = 36 + Z.of_nat (length audio)
    /\ getUint32 24 wav = rate
    /\ getUint32 40 wav = Z.of_nat (length audio).
Proof.
  intros Hb Hr Hl. eexists. split; [apply createWavFile_ok; exact Hb|].
  unfold wav_header.
  destruct literal_lengths as (L1 & L2 & L3 & L4).
  split; [|split; [|split; [|split]]].
  - rewrite !length_app, !le_bytes_length, L1, L2, L3, L4. reflexivity.
  - rewrite <- !app_assoc.
    repeat (rewrite drop_app_ge; [|rewrite ?le_bytes_length, ?L1, ?L2, ?L3, ?L4; lia];
            rewrite ?le_bytes_length, ?L1, ?L2, ?L3, ?L4; cbn [Nat.sub]).
    reflexivity.
  - rewrite <- !app_assoc.
    rewrite (getUint_le_bytes 4 _ (js "RIFF") _ 4) by (symmetry; exact L1).
    apply Z.mod_small. change (256 ^ Z.of_nat 4) with (2 ^ 32). lia.
  - rewrite <- !app_assoc.
    rewrite !(app_assoc (js "RIFF")), !(app_assoc _ (js "WAVE")),
      !(app_assoc _ (js "fmt ")), !(app_assoc _ (le_bytes 4 16)),
      !(app_assoc _ (le_bytes 2 1) (le_bytes 2 1 ++ _)),
      !(app_assoc _ (le_bytes 2 1) (le_bytes 4 rate ++ _)).
    rewrite (getUint_le_bytes 4 rate _ _ 24)
      by (rewrite !length_app, !le_bytes_length, L1, L2, L3; reflexivity).
    apply Z.mod_small. change (256 ^ Z.of_nat 4) with (2 ^ 32). lia.
  - rewrite !app_assoc. rewrite <- (app_assoc _ (le_bytes 4 _) audio).
    rewrite (getUint_le_bytes 4 (Z.of_nat (length audio)) _ audio 40)
      by (rewrite !length_app, !le_bytes_length, L1, L2, L3, L4; reflexivity).
    apply Z.mod_small. change (256 ^ Z.of_nat 4) with (2 ^ 32). lia.
Qed.

Lemma createWavFile_layout_witness :
  Forall (fun b => (b < 256)%N) [1; 2; 255]%N
  /\ 0 <= 16000 < 2 ^ 32
  /\ 36 + Z.of_nat (length [1; 2; 255]%N) < 2 ^ 32
  /\ exists wav,
       createWavFile [1; 2; 255]%N 16000 = Ok wav
       /\ length wav = (44 + length [1; 2; 255]%N)%nat
       /\ drop 44 wav = [1; 2; 255]%N
       /\ getUint32 4 wav = 36 + Z.of_nat (length [1; 2; 255]%N)
       /\ getUint32 24 wav = 16000
       /\ getUint32 40 wav = Z.of_nat (length [1; 2; 255]%N).
Proof.
  assert (Hb : Forall (fun b => (b < 256)%N) [1; 2; 255]%N)
    by (repeat constructor).
  split; [exact Hb|]. split; [vm_compute; split; [discriminate|reflexivity]|].
  split; [vm_compute; reflexivity|].
  apply (createWavFile_layout [1; 2; 255]%N 16000 Hb).
  - vm_compute. split; [discriminate|reflexivity].
  - vm_compute. reflexivity.
Defined.

(** X17: The two WAV writers agree.  What either generator of the route
    returns is what [createWavFile] builds from the route's samples at the
    route's sample rate, Base64-encoded: the header the route writes field
    by field is the header [createWavFile] writes. *)
Theorem createWavFile_matches_route_wav pcm txt urduText :
  let n := Z.to_nat (stated_samples (length txt)) in
  let m := Z.to_nat (1764 * Z.min (Z.of_nat (length txt)) 50) in
  generateAudioWithWebSpeechAPI pcm txt urduText
  = bind (createWavFile (pcm_bytes pcm n 0) sampleRate) Base64.btoa
  /\ generateNaturalSpeechAudio pcm txt urduText
     = bind (createWavFile (pcm_bytes pcm m 0) sampleRate) Base64.btoa
  /\ (forall samples buf, (44 <= length buf)%nat ->
        exists wav,
          createWavFile (replicate (2 * samples) 0%N) sampleRate = Ok wav
          /\ bind (write_header (Z.of_nat samples) buf) (fun b => Ok (take 44 b))
             = Ok (take 44 wav)).
Proof.
  assert (Hhdr : forall k : nat,
             wav_header sampleRate (Z.of_nat (2 * k)) = header_bytes (Z.of_nat k)).
  { intros k. unfold wav_header, header_bytes.
    replace (Z.of_nat (2 * k)) with (Z.of_nat k * 2) by lia. reflexivity. }
  assert (Hwav : forall k,
             bind (createWavFile (pcm_bytes pcm k 0) sampleRate) Base64.btoa
             = Ok (Base64.encode (header_bytes (Z.of_nat k) ++ pcm_bytes pcm k 0))).
  { intros k. rewrite createWavFile_ok by apply pcm_bytes_byte. cbn [bind].
    rewrite pcm_bytes_length, Hhdr. apply btoa_bytes.
    apply Forall_app. split; [apply header_bytes_byte|apply pcm_bytes_byte]. }
  intros n m. split; [|split].
  - rewrite generateAudio_ok, Hwav. unfold n.
    destruct (sample_count_primary (length txt)) as [_ Hb].
    rewrite Z2Nat.id by lia. reflexivity.
  - pose proof (natural_sample_count (length txt)) as Hs.
    unfold generateNaturalSpeechAudio.
    rewrite (synthesize_ok _ _ pcm txt _ Hs) by lia.
    rewrite Hwav. unfold m. rewrite Z2Nat.id by lia. reflexivity.
  - intros samples buf Hlen.
    rewrite createWavFile_ok by (apply Forall_replicate; reflexivity).
    eexists. split; [reflexivity|].
    rewrite write_header_ok by exact Hlen. cbn [bind].
    rewrite length_replicate, Hhdr.
    pose proof (header_bytes_length (Z.of_nat samples)) as HL.
    rewrite !(take_app_length' _ _ 44 (eq_sym HL)). reflexivity.
Qed.

(** X18: [getTTSAudio] against the route: for a non-empty text the client ends
    up with exactly the WAV bytes the route built (Base64 and back), and for
    the empty text, which the route rejects with 400, it returns null. *)
Theorem getTTSAudio_returns_route_wav env txt :
  getTTSAudio env txt =
    match txt with
    | [] => None
    | _ => let n := stated_samples (length txt) in
           Some (header_bytes n ++ pcm_bytes (pcm_primary env) (Z.to_nat n) 0)
    end.
Proof.
  destruct txt as [|c txt]; [vm_compute; reflexivity|].
  unfold getTTSAudio.
  pose proof (POST_nonempty_text env (c :: txt) (Some (js "roman"))
                ltac:(discriminate)) as HP.
  match goal with
  | |- context [reply_of ?p] =>
      match type of HP with _ = ?r => replace p with r by (symmetry; exact HP) end
  end.
  clear HP.
  set (n := stated_samples (length (c :: txt))).
  set (wav := header_bytes n ++ pcm_bytes (pcm_primary env) (Z.to_nat n) 0).
  assert (Hb : Forall (fun b => (b < 256)%N) wav)
    by (apply Forall_app; split; [apply header_bytes_byte|apply pcm_bytes_byte]).
  assert (Hne : truthy (Base64.encode wav) = true).
  { unfold wav. rewrite header_bytes_explicit. cbn [app Base64.encode truthy].
    reflexivity. }
  unfold reply_of, json. cbn [bind TextToSpeech.body TextToSpeech.status].
  change (200 =? 200) with true. cbn [negb andb].
  rewrite Hne. unfold atob. rewrite (decode_encode wav Hb).
  cbn [bind try_catch]. reflexivity.
Qed.

End WavClient.

(* --------------------------------------------------------------------- *)
(** ** Recognition handlers: what a run of events can and cannot do *)
(* --------------------------------------------------------------------- *)

Section WebSpeechRuns.
Import WebSpeech.

Lemma run_cons st ev evs :
  run st (ev :: evs) =
    (fst (run (fst (handle st ev)) evs),
     snd (handle st ev) ++ snd (run (fst (handle st ev)) evs)).
Proof.
  cbn [run]. destruct (handle st ev) as [st1 out1]. cbn [fst snd].
  destruct (run st1 evs) as [st2 out2]. reflexivity.
Qed.

(** The handlers never change the listening flag they were created with. *)
Lemma handle_isListening st ev :
  isListening (fst (handle st ev)) = isListening st.
Proof.
  destruct ev as [f i|e| | |]; cbn [handle].
  - unfold onresult. destruct (truthy f); [reflexivity|].
    destruct (truthy i); reflexivity.
  - unfold onerror.
    destruct (jsstring_eqb e (js "no-speech")).
    + destruct (isListening st && (retryCount st <? maxRetries)); [reflexivity|].
      destruct (maxRetries <=? retryCount st); reflexivity.
    + destruct (jsstring_eqb e (js "audio-capture")); [reflexivity|].
      destruct (jsstring_eqb e (js "not-allowed")); [reflexivity|].
      destruct (jsstring_eqb e (js "network")); reflexivity.
  - unfold onend. destruct (isListening st && hasPermission st); reflexivity.
  - reflexivity.
  - unfold restart_callback.
    destruct (isListening st && hasRecognition st); reflexivity.
Qed.

Lemma handle_idle st ev :
  isListening st = false ->
  existsb (fun e => match e with
                    | SetTimeout _ | RecognitionStart => true
                    | _ => false
                    end) (snd (handle st ev)) = false.
Proof.
  intros Hl. destruct ev as [f i|e| | |]; cbn [handle].
  - unfold onresult. destruct (truthy f); [reflexivity|].
    destruct (truthy i); reflexivity.
  - unfold onerror. rewrite Hl. cbn [andb].
    destruct (jsstring_eqb e (js "no-speech")).
    + destruct (maxRetries <=? retryCount st); reflexivity.
    + destruct (jsstring_eqb e (js "audio-capture")); [reflexivity|].
      destruct (jsstring_eqb e (js "not-allowed")); [reflexivity|].
      destruct (jsstring_eqb e (js "network")); reflexivity.
  - unfold onend. rewrite Hl. reflexivity.
  - reflexivity.
  - unfold restart_callback. rewrite Hl. reflexivity.
Qed.

(** X19: While the component is not listening, no event schedules a timer or
    starts recognition: errors are at most reported. *)
Theorem webspeech_idle_schedules_nothing st evs :
  isListening st = false ->
  existsb (fun e => match e with
                    | SetTimeout _ | RecognitionStart => true
                    | _ => false
                    end) (snd (run st evs)) = false
  /\ isListening (fst (run st evs)) = false.
Proof.
  revert st. induction evs as [|ev evs IH]; intros st Hl.
  - split; [reflexivity|exact Hl].
  - rewrite run_cons. cbn [fst snd].
    assert (Hl1 : isListening (fst (handle st ev)) = false)
      by (rewrite handle_isListening; exact Hl).
    destruct (IH _ Hl1) as [IH1 IH2].
    split; [|exact IH2].
    rewrite existsb_app, (handle_idle st ev Hl), IH1. reflexivity.
Qed.

Lemma webspeech_idle_schedules_nothing_witness :
  let st := {| isListening := false; hasPermission := true;
               hasRecognition := true; retryCount := 0 |} in
  let evs := [OnError (js "no-speech"); OnEnd; RestartTimerFires] in
  isListening st = false
  /\ existsb (fun e => match e with
                       | SetTimeout _ | RecognitionStart => true
                       | _ => false
                       end) (snd (run st evs)) = false
  /\ isListening (fst (run st evs)) = false.
Proof.
  split; [reflexivity|].
  apply (webspeech_idle_schedules_nothing
           {| isListening := false; hasPermission := true;
              hasRecognition := true; retryCount := 0 |}
           [OnError (js "no-speech"); OnEnd; RestartTimerFires]).
  reflexivity.
Defined.

Lemma handle_retryCount st ev :
  0 <= retryCount st <= maxRetries ->
  0 <= retryCount (fst (handle st ev)) <= maxRetries.
Proof.
  unfold maxRetries. intros Hc. destruct ev as [f i|e| | |]; cbn [handle].
  - unfold onresult. destruct (truthy f); [cbn; lia|].
    destruct (truthy i); exact Hc.
  - unfold onerror, maxRetries.
    destruct (jsstring_eqb e (js "no-speech")).
    + destruct (isListening st); cbn [andb].
      * destruct (Z.ltb_spec (retryCount st) 3); [cbn [fst retryCount]; lia|].
        destruct (3 <=? retryCount st); [cbn [fst retryCount]; lia|exact Hc].
      * destruct (3 <=? retryCount st); [cbn [fst retryCount]; lia|exact Hc].
    + destruct (jsstring_eqb e (js "audio-capture")); [exact Hc|].
      destruct (jsstring_eqb e (js "not-allowed")); [exact Hc|].
      destruct (jsstring_eqb e (js "network")); exact Hc.
  - unfold onend. destruct (isListening st && hasPermission st); exact Hc.
  - cbn. lia.
  - unfold restart_callback.
    destruct (isListening st && hasRecognition st); exact Hc.
Qed.

(** X20: The retry counter stays between 0 and [maxRetries] over every run of
    events. *)
Theorem webspeech_retry_counter_bounded st evs :
  0 <= retryCount st <= maxRetries ->
  0 <= retryCount (fst (run st evs)) <= maxRetries.
Proof.
  revert st. induction evs as [|ev evs IH]; intros st Hc; [exact Hc|].
  rewrite run_cons. cbn [fst]. apply IH. apply handle_retryCount. exact Hc.
Qed.

Lemma webspeech_retry_counter_bounded_witness :
  let evs := replicate 5 (OnError (js "no-speech")) in
  0 <= retryCount listening <= maxRetries
  /\ 0 <= retryCount (fst (run listening evs)) <= maxRetries.
Proof.
  split; [vm_compute; split; discriminate|].
  apply (webspeech_retry_counter_bounded listening
           (replicate 5 (OnError (js "no-speech")))).
  vm_compute. split; discriminate.
Defined.

(** One event that does not reset the counter: the restarts it schedules
    are paid for by the counter or by a surfaced error. *)
Lemma handle_restart_budget st ev :
  0 <= retryCount st <= 3 ->
  (match ev with OnStart => false | OnResult f _ => negb (truthy f) | _ => true end)
    = true ->
  let st1 := fst (handle st ev) in
  let out := snd (handle st ev) in
  0 <= retryCount st1 <= 3
  /\ Z.of_nat (no_speech_restarts out) + retryCount st
     <= retryCount st1 + 3 * Z.of_nat (surfaced_errors out).
Proof.
  intros Hc Hev. destruct ev as [f i|e| | |]; cbn [handle]; cbv zeta.
  - unfold onresult. destruct (truthy f); [discriminate Hev|].
    destruct (truthy i); cbn; lia.
  - unfold onerror, maxRetries.
    destruct (jsstring_eqb e (js "no-speech")).
    + destruct (isListening st); cbn [andb].
      * destruct (Z.ltb_spec (retryCount st) 3).
        -- cbn [fst snd retryCount]. split; [lia|].
           change (no_speech_restarts [SetTimeout 1000]) with 1%nat.
           change (surfaced_errors [SetTimeout 1000]) with 0%nat. lia.
        -- destruct (Z.leb_spec 3 (retryCount st)); [|lia].
           cbn [fst snd retryCount]. split; [lia|].
           unfold no_speech_restarts, surfaced_errors.
           cbn [List.filter is_restart is_report length]. lia.
      * destruct (Z.leb_spec 3 (retryCount st)).
        -- cbn [fst snd retryCount]. split; [lia|].
           unfold no_speech_restarts, surfaced_errors.
           cbn [List.filter is_restart is_report length]. lia.
        -- cbn [fst snd]. split; [lia|]. cbn. lia.
    + destruct (jsstring_eqb e (js "audio-capture"));
        [|destruct (jsstring_eqb e (js "not-allowed"));
          [|destruct (jsstring_eqb e (js "network"))]];
        cbn [fst snd]; (split; [lia|]);
        unfold no_speech_restarts, surfaced_errors;
        cbn [List.filter is_restart is_report length]; lia.
  - unfold onend. destruct (isListening st && hasPermission st);
      cbn [fst snd]; (split; [lia|]); cbn; lia.
  - discriminate Hev.
  - unfold restart_callback. destruct (isListening st && hasRecognition st);
      cbn [fst snd]; (split; [lia|]); cbn; lia.
Qed.

(** X21: Between two resets of the counter (a start of recognition or a final
    result) the one-second restarts are capped by the errors surfaced: a run
    with no reset schedules at most three restarts more than three times
    the number of errors it reports. *)
Theorem webspeech_restarts_capped_between_resets st evs :
  0 <= retryCount st <= 3 ->
  forallb (fun ev => match ev with
                     | OnStart => false
                     | OnResult f _ => negb (truthy f)
                     | _ => true
                     end) evs = true ->
  let out := snd (run st evs) in
  Z.of_nat (no_speech_restarts out) + retryCount st
  <= 3 + 3 * Z.of_nat (surfaced_errors out).
Proof.
  cbv zeta. revert st. induction evs as [|ev evs IH]; intros st Hc Hevs.
  - cbn. lia.
  - cbn [forallb] in Hevs. apply andb_true_iff in Hevs as [Hev Hevs].
    rewrite run_cons. cbn [snd].
    destruct (handle_restart_budget st ev Hc Hev) as [Hc1 Hstep].
    specialize (IH _ Hc1 Hevs).
    unfold no_speech_restarts, surfaced_errors in *.
    rewrite !List.filter_app, !length_app, !Nat2Z.inj_add. lia.
Qed.

Lemma webspeech_restarts_capped_between_resets_witness :
  let evs := [OnError (js "no-speech"); RestartTimerFires; OnEnd;
              OnError (js "no-speech"); OnError (js "no-speech");
              OnError (js "no-speech"); OnError (js "no-speech")] in
  0 <= retryCount listening <= 3
  /\ forallb (fun ev => match ev with
                        | OnStart => false
                        | OnResult f _ => negb (truthy f)
                        | _ => true
                        end) evs = true
  /\ Z.of_nat (no_speech_restarts (snd (run listening evs))) + retryCount listening
     <= 3 + 3 * Z.of_nat (surfaced_errors (snd (run listening evs))).
Proof.
  split; [vm_compute; split; discriminate|]. split; [reflexivity|].
  apply (webspeech_restarts_capped_between_resets listening
           [OnError (js "no-speech"); RestartTimerFires; OnEnd;
            OnError (js "no-speech"); OnError (js "no-speech");
            OnError (js "no-speech"); OnError (js "no-speech")]).
  - vm_compute. split; discriminate.
  - reflexivity.
Defined.

End WebSpeechRuns.

Section AudioProcessorRuns.
Import AudioProcessor.

Lemma ap_run_cons st ev evs :
  run st (ev :: evs) =
    (fst (run (fst (handle st ev)) evs),
     snd (handle st ev) ++ snd (run (fst (handle st ev)) evs)).
Proof.
  cbn [run]. destruct (handle st ev) as [st1 out1]. cbn [fst snd].
  destruct (run st1 evs) as [st2 out2]. reflexivity.
Qed.

Lemma ap_handle_stopped st ev :
  isListening st = false ->
  isListening (fst (handle st ev)) = false
  /\ existsb (fun e => is_recognition_start e || is_restart e)
       (snd (handle st ev)) = false.
Proof.
  intros Hl. destruct ev as [e| |]; cbn [handle].
  - unfold onerror. rewrite Hl, andb_false_r. cbn [fst snd]. split; [exact Hl|].
    reflexivity.
  - unfold onend. rewrite Hl. split; [exact Hl|reflexivity].
  - unfold restart_callback. rewrite Hl. cbn [fst snd]. split; [exact Hl|reflexivity].
Qed.

Lemma ap_run_stopped st evs :
  isListening st = false ->
  isListening (fst (run st evs)) = false
  /\ existsb (fun e => is_recognition_start e || is_restart e)
       (snd (run st evs)) = false.
Proof.
  revert st. induction evs as [|ev evs IH]; intros st Hl.
  - split; [exact Hl|reflexivity].
  - rewrite ap_run_cons. cbn [fst snd].
    destruct (ap_handle_stopped st ev Hl) as [Hl1 Hout].
    destruct (IH _ Hl1) as [IH1 IH2].
    split; [exact IH1|]. rewrite existsb_app, Hout, IH2. reflexivity.
Qed.

(** X22: After [stopListening] no recognition event and no restart timer that
    was still pending starts recognition again or schedules a new restart,
    whatever the state was and whatever events follow. *)
Theorem audioprocessor_stopped_stays_stopped st evs :
  let stopped := fst (stopListening st) in
  isListening stopped = false
  /\ isListening (fst (run stopped evs)) = false
  /\ existsb (fun e => is_recognition_start e || is_restart e)
       (snd (run stopped evs)) = false.
Proof.
  cbv zeta.
  assert (Hl : isListening (fst (stopListening st)) = false).
  { unfold stopListening, stopAudioMonitoring.
    destruct (animationId (set_isListening false st)) as [id|];
      [destruct (id =? 0)|]; reflexivity. }
  split; [exact Hl|]. apply ap_run_stopped. exact Hl.
Qed.

(** X23: [cleanup] is final: afterwards [startListening] throws, and a second
    [cleanup] changes nothing and calls nothing but the audio-level
    callback. *)
Theorem audioprocessor_cleanup_is_final st level frame :
  let cleaned := fst (cleanup st) in
  startListening cleaned level frame
    = Throw (PlainError (js "Speech recognition not available"))
  /\ cleanup cleaned = (cleaned, [ReportAudioLevel 0]).
Proof.
  cbv zeta. destruct st as [ac ms an aid l rec hs sp cu pr].
  destruct aid as [id|]; [destruct (Z.eq_dec id 0) as [->|Hid]|].
  - destruct rec, ms, ac, hs, sp; split; reflexivity.
  - apply Z.eqb_neq in Hid.
    unfold cleanup at 1 3 4, stopListening, stopAudioMonitoring, set_isListening.
    cbn [animationId]. rewrite Hid.
    destruct rec, ms, ac, hs, sp; split; reflexivity.
  - destruct rec, ms, ac, hs, sp; split; reflexivity.
Qed.

End AudioProcessorRuns.

Section RealTimeAudioTeardown.
Import RealTimeAudio.

(** X24: A held processing interval is cleared exactly once by [stopRecording]
    followed by [cleanup], and after [cleanup] a second [cleanup] or
    [stopRecording] has no effect at all and leaves the state as it is. *)
Theorem realtime_teardown_clears_once rt :
  let stopped := stopRecording rt in
  let cleaned := cleanup (fst stopped) in
  length (List.filter (fun e => match e with ClearInterval _ => true | _ => false end)
            (snd stopped ++ snd cleaned))
    = (if truthy_handle (processingInterval rt) then 1%nat else 0%nat)
  /\ cleanup (fst cleaned) = (fst cleaned, [])
  /\ stopRecording (fst cleaned) = (fst cleaned, []).
Proof.
  cbv zeta. destruct rt as [w ac ms p r [id|]].
  - unfold stopRecording, cleanup, truthy_handle. cbn [processingInterval].
    destruct (id =? 0) eqn:Hid;
      cbn [negb fst snd processingInterval ws audioContext mediaStream processor];
      rewrite ?Hid; cbn [negb fst snd processingInterval];
      rewrite ?Hid; cbn [negb];
      destruct w, ac, ms, p; (split; [reflexivity|split; reflexivity]).
  - destruct w, ac, ms, p; (split; [reflexivity|split; reflexivity]).
Qed.

End RealTimeAudioTeardown.

(* --------------------------------------------------------------------- *)
(** ** The debug log, the command table and the simulated recognizer *)
(* --------------------------------------------------------------------- *)

Section DebugLog.
Import LanguageModel SpeechTest.

Lemma slice_last_snoc {A} k (l : list A) x :
  slice_last (S k) (l ++ [x]) = slice_last k l ++ [x].
Proof.
  unfold slice_last. rewrite length_app. cbn [length].
  replace (length l + 1 - S k)%nat with (length l - k)%nat by lia.
  rewrite drop_app_le by lia. reflexivity.
Qed.

Lemma slice_last_slice_app {A} k (a b : list A) :
  slice_last k (slice_last k a ++ b) = slice_last k (a ++ b).
Proof.
  unfold slice_last. rewrite !length_app, length_drop.
  rewrite !drop_app, drop_drop, length_drop.
  f_equal; f_equal; lia.
Qed.

(** X25: Whatever the log held, after any non-empty run of [addDebug] calls it
    holds the last ten entries of the old log followed by the new ones: at
    most ten entries, the newest last. *)
Theorem debug_log_keeps_last_ten entries log :
  entries <> [] ->
  log_all entries log = slice_last 10 (log ++ entries)
  /\ (length (log_all entries log) <= 10)%nat
  /\ last (log_all entries log) = last entries.
Proof.
  intros Hne.
  assert (H : log_all entries log = slice_last 10 (log ++ entries)).
  { revert log. induction entries as [|e es IH]; intros log; [contradiction|].
    unfold log_all in *. cbn [fold_left].
    destruct es as [|e' es].
    - cbn [fold_left]. unfold addDebug. symmetry. apply slice_last_snoc.
    - rewrite IH by discriminate. unfold addDebug.
      rewrite <- slice_last_snoc, slice_last_slice_app, <- app_assoc.
      reflexivity. }
  split; [exact H|]. split.
  - rewrite H, slice_last_length. lia.
  - rewrite H. unfold slice_last. rewrite length_app.
    destruct (exists_last Hne) as (es & e & ->).
    rewrite app_assoc, last_snoc.
    rewrite length_app. cbn [length].
    rewrite drop_app_le by (rewrite length_app; lia).
    apply last_snoc.
Qed.

Lemma debug_log_keeps_last_ten_witness :
  let log := replicate 12 (js "old") in
  [js "a"; js "b"] <> []
  /\ log_all [js "a"; js "b"] log = slice_last 10 (log ++ [js "a"; js "b"])
  /\ (length (log_all [js "a"; js "b"] log) <= 10)%nat
  /\ last (log_all [js "a"; js "b"] log) = last [js "a"; js "b"].
Proof.
  split; [discriminate|].
  apply (debug_log_keeps_last_ten [js "a"; js "b"] (replicate 12 (js "old"))).
  discriminate.
Defined.

End DebugLog.

Section CommandTable.
Import LanguageModel SpeechCommands.

Lemma includes_app_r text a b :
  includes text (a ++ b) = true -> includes text b = true.
Proof.
  rewrite !includes_spec. intros (pre & post & ->).
  exists (pre ++ a), post. rewrite <- !app_assoc. reflexivity.
Qed.

(** [find] returns the first element that passes the test: an element that
    passes cannot stand before the one returned. *)
Lemma find_first {A} (f : A -> bool) l1 y l2 x :
  List.find f (l1 ++ y :: l2) = Some x -> f y = true -> In x (l1 ++ [y]).
Proof.
  intros Hfind Hy. induction l1 as [|a l1 IH]; cbn [app List.find] in *.
  - rewrite Hy in Hfind. injection Hfind as <-. left. reflexivity.
  - destruct (f a).
    + injection Hfind as <-. left. reflexivity.
    + right. apply IH. exact Hfind.
Qed.

Lemma command_splits :
  ascii_toLowerCase (js "show help") = js "show " ++ ascii_toLowerCase (js "help")
  /\ ascii_toLowerCase (js "مدد کرو") = ascii_toLowerCase (js "مدد") ++ js " کرو"
  /\ ascii_toLowerCase (js "clear transcript")
     = ascii_toLowerCase (js "clear") ++ js " transcript"
  /\ ascii_toLowerCase (js "ٹرانسکرپٹ صاف کرو")
     = js "ٹرانسکرپٹ " ++ ascii_toLowerCase (js "صاف کرو").
Proof. repeat split; vm_compute; reflexivity. Qed.

Lemma includes_app_l text a b :
  includes text (a ++ b) = true -> includes text a = true.
Proof.
  rewrite !includes_spec. intros (pre & post & ->).
  exists pre, (b ++ post). rewrite <- !app_assoc. reflexivity.
Qed.

(** X26: The command found is contained in the transcript, and four entries of
    the table can never be found: "show help", "مدد کرو", "clear transcript"
    and "ٹرانسکرپٹ صاف کرو" each contain a command that stands earlier in
    the table, which is found instead. *)
Theorem shadowed_commands_never_match transcript cmd :
  matchedCommand transcript = Some cmd ->
  includes transcript (ascii_toLowerCase cmd) = true
  /\ existsb (jsstring_eqb cmd)
       [js "show help"; js "مدد کرو"; js "clear transcript";
        js "ٹرانسکرپٹ صاف کرو"] = false.
Proof.
  intros Hfind. unfold matchedCommand in Hfind.
  pose proof (find_some _ _ Hfind) as [_ Hinc]. cbv beta in Hinc.
  split; [exact Hinc|].
  destruct command_splits as (S1 & S2 & S3 & S4).
  apply not_true_is_false. intros Hex.
  apply existsb_exists in Hex as (shadowed & Hin & Heq).
  unfold jsstring_eqb in Heq. apply bool_decide_eq_true in Heq. subst shadowed.
  cbn [In] in Hin.
  destruct Hin as [<-|[<-|[<-|[<-|[]]]]].
  - rewrite S1 in Hinc. apply includes_app_r in Hinc.
    pose proof (find_first _
                  [js "go home"; js "home"; js "open settings"; js "settings"]
                  (js "help") _ _ Hfind Hinc) as Hin.
    vm_compute in Hin. repeat (destruct Hin as [Hin|Hin]; [discriminate Hin|]).
    exact Hin.
  - rewrite S2 in Hinc. apply includes_app_l in Hinc.
    pose proof (find_first _
                  [js "go home"; js "home"; js "open settings"; js "settings";
                   js "help"; js "show help";
                   js "گھر جاؤ"; js "گھر"; js "سیٹنگز کھولو"; js "سیٹنگز"]
                  (js "مدد") _ _ Hfind Hinc) as Hin.
    vm_compute in Hin. repeat (destruct Hin as [Hin|Hin]; [discriminate Hin|]).
    exact Hin.
  - rewrite S3 in Hinc. apply includes_app_l in Hinc.
    pose proof (find_first _
                  [js "go home"; js "home"; js "open settings"; js "settings";
                   js "help"; js "show help";
                   js "گھر جاؤ"; js "گھر"; js "سیٹنگز کھولو"; js "سیٹنگز";
                   js "مدد"; js "مدد کرو";
                   js "start listening"; js "stop listening"]
                  (js "clear") _ _ Hfind Hinc) as Hin.
    vm_compute in Hin. repeat (destruct Hin as [Hin|Hin]; [discriminate Hin|]).
    exact Hin.
  - rewrite S4 in Hinc. apply includes_app_r in Hinc.
    pose proof (find_first _
                  [js "go home"; js "home"; js "open settings"; js "settings";
                   js "help"; js "show help";
                   js "گھر جاؤ"; js "گھر"; js "سیٹنگز کھولو"; js "سیٹنگز";
                   js "مدد"; js "مدد کرو";
                   js "start listening"; js "stop listening"; js "clear";
                   js "clear transcript"; js "سننا شروع کرو"; js "سننا بند کرو"]
                  (js "صاف کرو") _ _ Hfind Hinc) as Hin.
    vm_compute in Hin. repeat (destruct Hin as [Hin|Hin]; [discriminate Hin|]).
    exact Hin.
Qed.

Lemma shadowed_commands_never_match_witness :
  matchedCommand (js "please show help") = Some (js "help")
  /\ includes (js "please show help") (ascii_toLowerCase (js "help")) = true
  /\ existsb (jsstring_eqb (js "help"))
       [js "show help"; js "مدد کرو"; js "clear transcript";
        js "ٹرانسکرپٹ صاف کرو"] = false.
Proof.
  assert (H : matchedCommand (js "please show help") = Some (js "help"))
    by (vm_compute; reflexivity).
  split; [exact H|].
  apply (shadowed_commands_never_match (js "please show help") (js "help") H).
Defined.

End CommandTable.

Section SimulatedRecognition.
Import SimulatedRecognizer.

Lemma ticks_app n m st :
  ticks (n + m) st =
    (fst (ticks m (fst (ticks n st))),
     snd (ticks n st) ++ snd (ticks m (fst (ticks n st)))).
Proof.
  revert st. induction n as [|n IH]; intros st.
  - cbn [Nat.add ticks fst snd app]. destruct (ticks m st); reflexivity.
  - cbn [Nat.add ticks]. destruct (tick st) as [st1 out1].
    rewrite IH. destruct (ticks n st1) as [st2 out2]. cbn [fst snd].
    rewrite app_assoc. reflexivity.
Qed.

Lemma ticks_silent n st :
  isListening st = false ->
  match recognitionTimer st with Some id => id = 0 | None => True end ->
  ticks n st = (st, []).
Proof.
  intros Hl Ht. induction n as [|n IH]; [reflexivity|].
  cbn [ticks]. unfold tick. rewrite Hl, andb_false_r.
  destruct st as [l t i]. cbn [isListening recognitionTimer] in *. subst l.
  unfold stop. cbn [recognitionTimer index].
  destruct t as [id|]; [subst id; cbn [Z.eqb]|]; rewrite IH; reflexivity.
Qed.

(** X27: One session of the simulated recognizer: however long the interval
    keeps firing after [start], the six phrases are reported once each and
    in order, only the last as final, and the firing after them clears the
    interval and leaves the recognizer stopped. *)
Theorem simulated_recognizer_session timer st n :
  timer <> 0 -> (7 <= n)%nat ->
  ticks n (start timer st) =
    ({| isListening := false; recognitionTimer := None; index := 6 |},
     map (fun p => ReportTranscript p false) (take 5 phrases)
     ++ [ReportTranscript (js "Aap kaise hain? Main theek hoon.") true;
         ClearInterval timer]).
Proof.
  intros Ht Hn. replace n with (7 + (n - 7))%nat by lia.
  rewrite ticks_app.
  assert (H7 : ticks 7 (start timer st) =
               ({| isListening := false; recognitionTimer := None; index := 6 |},
                map (fun p => ReportTranscript p false) (take 5 phrases)
                ++ [ReportTranscript (js "Aap kaise hain? Main theek hoon.") true;
                    ClearInterval timer])).
  { unfold start. cbn [ticks tick isListening index recognitionTimer phrases
      length Nat.ltb Nat.leb andb lookup list_lookup Nat.eqb Nat.sub stop
      app map take fst snd].
    apply Z.eqb_neq in Ht. rewrite Ht. reflexivity. }
  rewrite H7. cbn [fst snd].
  rewrite ticks_silent by (cbn; trivial). cbn [fst snd].
  rewrite app_nil_r. reflexivity.
Qed.

Lemma simulated_recognizer_session_witness :
  let st := {| isListening := false; recognitionTimer := None; index := 0 |} in
  5 <> 0 /\ (7 <= 9)%nat
  /\ ticks 9 (start 5 st) =
       ({| isListening := false; recognitionTimer := None; index := 6 |},
        map (fun p => ReportTranscript p false) (take 5 phrases)
        ++ [ReportTranscript (js "Aap kaise hain? Main theek hoon.") true;
            ClearInterval 5]).
Proof.
  split; [discriminate|]. split; [lia|].
  apply (simulated_recognizer_session 5
           {| isListening := false; recognitionTimer := None; index := 0 |} 9);
    [discriminate|lia].
Defined.

(** X28: After [stop] the timer callback reports nothing more, for every state
    and however often it still fires. *)
Theorem simulated_recognizer_silent_after_stop st n :
  snd (ticks n (fst (stop st))) = []
  /\ isListening (fst (ticks n (fst (stop st)))) = false.
Proof.
  assert (H : ticks n (fst (stop st)) = (fst (stop st), [])).
  { apply ticks_silent; unfold stop; destruct (recognitionTimer st) as [id|];
      try destruct (Z.eqb_spec id 0); cbn; trivial. }
  rewrite H. cbn [fst snd]. split; [reflexivity|].
  unfold stop. destruct (recognitionTimer st) as [id|];
    [destruct (id =? 0)|]; reflexivity.
Qed.

End SimulatedRecognition.

(* --------------------------------------------------------------------- *)
(** ** [convertRomanToUrdu]: the order of the replacements *)
(* --------------------------------------------------------------------- *)

Section RomanToUrdu.
Import LanguageModel TextToSpeech.

Lemma starts_with_nil text : starts_with text [] = true.
Proof. destruct text; reflexivity. Qed.

Lemma starts_with_app_l text a b :
  starts_with text (a ++ b) = true -> starts_with text a = true.
Proof.
  rewrite !starts_with_spec. intros (post & ->).
  exists (b ++ post). rewrite <- app_assoc. reflexivity.
Qed.

(** Code units other than "h" and "o". *)
Lemma includes_ho_app_other rep rest :
  forallb (fun c => negb ((c =? 104) || (c =? 111))%N) rep = true ->
  includes (rep ++ rest) [104; 111]%N = includes rest [104; 111]%N.
Proof.
  induction rep as [|r rep IH]; intros Hrep; [reflexivity|].
  cbn [forallb] in Hrep. apply andb_true_iff in Hrep as [Hr Hrep].
  cbn [app includes starts_with]. rewrite (IH Hrep).
  destruct (N.eqb_spec 104 r) as [<-|_]; [discriminate Hr|reflexivity].
Qed.

(** A replacement by code units other than "h" and "o" yields a text
    without "ho" when it replaces "ho" itself, or when the text had none. *)
Lemma replace_from_without_ho pat rep :
  rep <> [] ->
  forallb (fun c => negb ((c =? 104) || (c =? 111))%N) rep = true ->
  forall s, pat = [104; 111]%N \/ includes s [104; 111]%N = false ->
  forall skip,
    includes (replace_from pat rep skip s) [104; 111]%N = false
    /\ (starts_with (replace_from pat rep skip s) [111%N] = true ->
        starts_with (drop skip s) [111%N] = true).
Proof.
  intros Hne Hrep s. induction s as [|c rest IH]; intros Hok skip.
  - cbn [replace_from]. split; [reflexivity|discriminate].
  - assert (Hok' : pat = [104; 111]%N \/ includes rest [104; 111]%N = false).
    { destruct Hok as [Hp|Hi]; [left; exact Hp|right].
      cbn [includes] in Hi. apply orb_false_iff in Hi as [_ Hi]. exact Hi. }
    specialize (IH Hok').
    destruct skip as [|k]; cbn [replace_from drop].
    + destruct (starts_with (c :: rest) pat) eqn:E.
      * destruct (IH (length pat - 1)%nat) as [IH1 _].
        rewrite (includes_ho_app_other _ _ Hrep). split; [exact IH1|].
        destruct rep as [|r rep]; [contradiction|].
        cbn [forallb] in Hrep. apply andb_true_iff in Hrep as [Hr _].
        cbn [app starts_with].
        destruct (N.eqb_spec 111 r) as [<-|_]; [discriminate Hr|discriminate].
      * destruct (IH 0%nat) as [IH1 IH2]. rewrite drop_0 in IH2. split.
        -- cbn [includes]. rewrite IH1, orb_false_r.
           cbn [starts_with].
           destruct (N.eqb_spec 104 c) as [<-|_]; [|reflexivity].
           cbn [andb].
           destruct (starts_with (replace_from pat rep 0 rest) [111%N]) eqn:Ho;
             [|reflexivity].
           specialize (IH2 eq_refl). exfalso.
           destruct Hok as [->|Hi].
           ++ cbn [starts_with] in E. rewrite N.eqb_refl in E. cbn [andb] in E.
              cbn [starts_with] in IH2. congruence.
           ++ cbn [includes starts_with] in Hi. rewrite N.eqb_refl in Hi.
              cbn [andb] in Hi. cbn [starts_with] in IH2.
              rewrite IH2 in Hi. discriminate Hi.
        -- cbn [starts_with]. rewrite !starts_with_nil. trivial.
    + apply IH.
Qed.

(** A pattern that begins with "ho" finds no match in a text without "ho". *)
Lemma replace_from_dead pat rep s :
  includes s [104; 111]%N = false ->
  replace_from (104 :: 111 :: pat)%N rep 0 s = s.
Proof.
  induction s as [|c rest IH]; intros Hi; [reflexivity|].
  cbn [includes] in Hi. apply orb_false_iff in Hi as [Hs Hi].
  cbn [replace_from].
  destruct (starts_with (c :: rest) (104 :: 111 :: pat)%N) eqn:E.
  - apply (starts_with_app_l _ [104; 111]%N pat) in E. congruence.
  - rewrite (IH Hi). reflexivity.
Qed.

Lemma rules_without_ho rules : forall s,
  forallb (fun '(pat, rep) =>
             negb (bool_decide (rep = []))
             && forallb (fun c => negb ((c =? 104) || (c =? 111))%N) rep)
          rules = true ->
  includes s [104; 111]%N = false ->
  includes (fold_left (fun acc '(pat, rep) => replaceAll pat rep acc) rules s)
           [104; 111]%N = false.
Proof.
  induction rules as [|[pat rep] rules IH]; intros s Hr Hs; [exact Hs|].
  cbn [forallb] in Hr. apply andb_true_iff in Hr as [Hr Hrs].
  apply andb_true_iff in Hr as [Hne Hrep].
  apply negb_true_iff, bool_decide_eq_false in Hne.
  cbn [fold_left]. apply (IH _ Hrs). unfold replaceAll.
  apply (replace_from_without_ho pat rep Hne Hrep s (or_intror Hs) 0%nat).
Qed.

Lemma replacement_facts :
  js "ho" = [104; 111]%N
  /\ js "hoga" = [104; 111; 103; 97]%N
  /\ js "hogi" = [104; 111; 103; 105]%N
  /\ js "ہو" <> []
  /\ forallb (fun c => negb ((c =? 104) || (c =? 111))%N) (js "ہو") = true.
Proof.
  split; [vm_compute; reflexivity|]. split; [vm_compute; reflexivity|].
  split; [vm_compute; reflexivity|]. split; [vm_compute; discriminate|].
  vm_compute; reflexivity.
Qed.

(** X29: The last two replacements, "hoga" and "hogi", never apply: every "ho"
    has been replaced before them and no later replacement brings one back.
    The result is that of the first seventeen replacements, and it contains
    no "ho". *)
Theorem convertRomanToUrdu_last_rules_dead s :
  convertRomanToUrdu s =
    fold_left (fun acc '(pat, rep) => replaceAll pat rep acc)
      (take 17 replacements) s
  /\ includes (convertRomanToUrdu s) (js "ho") = false.
Proof.
  destruct replacement_facts as (Eho & Ehoga & Ehogi & Hne & Hrep).
  set (before := take 11 replacements).
  set (between := take 5 (drop 12 replacements)).
  assert (Hall : replacements =
                 before ++ [(js "ho", js "ہو")] ++ between
                 ++ [(js "hoga", js "ہوگا"); (js "hogi", js "ہوگی")])
    by reflexivity.
  assert (H17 : take 17 replacements =
                before ++ [(js "ho", js "ہو")] ++ between) by reflexivity.
  assert (Hrules :
    forallb (fun '(pat, rep) =>
               negb (bool_decide (rep = []))
               && forallb (fun c => negb ((c =? 104) || (c =? 111))%N) rep)
            between = true) by (vm_compute; reflexivity).
  clearbody before between.
  unfold convertRomanToUrdu. rewrite H17, Hall.
  rewrite !fold_left_app. cbn [fold_left].
  set (s11 := fold_left _ before s).
  set (s17 := fold_left _ between _).
  assert (H : includes s17 [104; 111]%N = false).
  { unfold s17. apply rules_without_ho; [exact Hrules|].
    unfold replaceAll.
    apply (replace_from_without_ho (js "ho") (js "ہو") Hne Hrep s11
             (or_introl Eho) 0%nat). }
  assert (Hdead : replaceAll (js "hogi") (js "ہوگی")
                    (replaceAll (js "hoga") (js "ہوگا") s17) = s17).
  { unfold replaceAll. rewrite Ehoga, Ehogi.
    rewrite (replace_from_dead _ _ s17 H). apply (replace_from_dead _ _ s17 H). }
  rewrite Hdead, Eho. split; [reflexivity|exact H].
Qed.

(** A pattern whose first code unit does not occur in the text finds no
    match. *)
Lemma replace_from_no_first pat rep s :
  match pat with
  | [] => False
  | p :: _ => forallb (fun c => negb (p =? c)%N) s = true
  end ->
  replace_from pat rep 0 s = s.
Proof.
  destruct pat as [|p pat]; [contradiction|].
  induction s as [|c rest IH]; intros Hs; [reflexivity|].
  cbn [forallb] in Hs. apply andb_true_iff in Hs as [Hc Hs].
  cbn [replace_from starts_with].
  apply negb_true_iff in Hc. rewrite Hc. cbn [andb].
  rewrite (IH Hs). reflexivity.
Qed.

(** X30: A text without lower-case ASCII letters, such as one already in Urdu
    script, is returned unchanged. *)
Theorem convertRomanToUrdu_keeps_non_latin s :
  forallb (fun c => negb ((97 <=? c) && (c <=? 122))%N) s = true ->
  convertRomanToUrdu s = s.
Proof.
  intros Hs. unfold convertRomanToUrdu.
  assert (Hrules :
    forallb (fun '(pat, _) =>
               match pat with
               | [] => false
               | p :: _ => ((97 <=? p) && (p <=? 122))%N
               end) replacements = true) by (vm_compute; reflexivity).
  induction replacements as [|[pat rep] rules IH]; [reflexivity|].
  cbn [forallb] in Hrules. apply andb_true_iff in Hrules as [Hp Hrules].
  cbn [fold_left]. unfold replaceAll at 2.
  rewrite (replace_from_no_first pat rep s); [apply IH; exact Hrules|].
  destruct pat as [|p pat]; [discriminate Hp|].
  rewrite forallb_forall in Hs |- *. intros c Hc. specialize (Hs c Hc).
  apply negb_true_iff. apply negb_true_iff in Hs.
  destruct (N.eqb_spec p c) as [<-|_]; [congruence|reflexivity].
Qed.

Lemma convertRomanToUrdu_keeps_non_latin_witness :
  forallb (fun c => negb ((97 <=? c) && (c <=? 122))%N) (js "آپ کیسے ہیں؟") = true
  /\ convertRomanToUrdu (js "آپ کیسے ہیں؟") = js "آپ کیسے ہیں؟".
Proof.
  split; [vm_compute; reflexivity|].
  apply (convertRomanToUrdu_keeps_non_latin (js "آپ کیسے ہیں؟")).
  vm_compute. reflexivity.
Defined.

End RomanToUrdu.
